(** * Title and outline extraction: a shallow embedding

    The Python sources [utils.py], [outline_extractor.py],
    [title_extractor.py], [json_validator.py] and [pdf_processor.py] are
    embedded as executable Rocq functions, and the properties the
    specification states about them are proved (or refuted) on the embedding.

    Conventions.
    - A Python [str] is the list of its code points ([list N]).
    - A Python [int] is a [Z]; a Python [float] is a binary64 [float].
    - A [try ... except Exception] block is a computation in [result] that is
      closed by [catch].
    - The Unicode tables of the interpreter ([str.lower], [str.isupper],
      [str.istitle], the decimal digits of [\d], case-insensitive matching)
      are not part of the repository: they are the fields of the class
      [Unicode], with an instance that is exact on ASCII text.
    - The values the parsing engine hands over have their Python types,
      except the formatting flags of a span, which may be a value that is no
      [int]; what can be missing or fail is optional or a [result], and a
      page may fail to load. *)

From Stdlib Require Import ZArith NArith List Bool Lia Ascii String Floats.
From stdpp Require Import base decidable option list gmap sorting.

Set Warnings "-register-all,-inexact-float,-clear-no-such-hyp".

Local Open Scope Z_scope.

(** ** Python strings *)

Abbreviation str := (list N).

Fixpoint py (s : string) : str :=
  match s with
  | EmptyString => []
  | String a r => N_of_ascii a :: py r
  end.

Definition len {A} (s : list A) : Z := Z.of_nat (length s).

Definition in_range (lo hi c : N) : bool := ((lo <=? c) && (c <=? hi))%N.

(** [Py_UNICODE_ISSPACE]: the characters [str.strip] removes and [\s]
    matches. *)
Definition is_space (c : N) : bool :=
  in_range 0x09 0x0D c || in_range 0x1C 0x20 c || (c =? 0x85)%N
  || (c =? 0xA0)%N || (c =? 0x1680)%N || in_range 0x2000 0x200A c
  || (c =? 0x2028)%N || (c =? 0x2029)%N || (c =? 0x202F)%N
  || (c =? 0x205F)%N || (c =? 0x3000)%N.

Definition SP : N := 0x20.
Definition DOT : N := 0x2E.
Definition is_dot (c : N) : bool := (c =? DOT)%N.

Fixpoint drop_while {A} (p : A -> bool) (l : list A) : list A :=
  match l with
  | [] => []
  | x :: r => if p x then drop_while p r else l
  end.

Fixpoint take_while {A} (p : A -> bool) (l : list A) : list A :=
  match l with
  | [] => []
  | x :: r => if p x then x :: take_while p r else []
  end.

Definition lstrip (s : str) : str := drop_while is_space s.
Definition rstrip (s : str) : str := rev (drop_while is_space (rev s)).
Definition strip (s : str) : str := rstrip (lstrip s).

Fixpoint starts_with (p s : str) : bool :=
  match p, s with
  | [], _ => true
  | a :: p', b :: s' => (a =? b)%N && starts_with p' s'
  | _ :: _, [] => false
  end.

(** [needle in hay] *)
Fixpoint contains (needle hay : str) : bool :=
  starts_with needle hay ||
  match hay with
  | [] => false
  | _ :: r => contains needle r
  end.

(** ** Regular-expression substitution

    [re.sub(pattern, repl, t)] replaces the leftmost non-overlapping matches,
    scanning from the left.  [m t] is the length of the match of the pattern
    at the head of [t], if there is one; none of the patterns of the program
    matches the empty string.  [skip] counts the characters of the current
    match that are still to be consumed. *)

Fixpoint re_sub_from (m : str -> option nat) (repl : str) (skip : nat) (t : str) : str :=
  match t with
  | [] => []
  | c :: r =>
      match skip with
      | S k => re_sub_from m repl k r
      | O =>
          match m t with
          | Some (S n) => repl ++ re_sub_from m repl n r
          | _ => c :: re_sub_from m repl 0 r
          end
      end
  end.

Definition re_sub (m : str -> option nat) (repl t : str) : str :=
  re_sub_from m repl 0 t.

(** [\s+] *)
Definition m_spaces (t : str) : option nat :=
  match length (take_while is_space t) with
  | O => None
  | n => Some n
  end.

(** The characters U+0020..U+007E and U+00A0..U+FFFF, which the second
    substitution keeps; it deletes every other character. *)
Definition printable (c : N) : bool :=
  in_range 0x20 0x7E c || in_range 0xA0 0xFFFF c.

Definition m_unprintable (t : str) : option nat :=
  match t with
  | c :: _ => if printable c then None else Some 1%nat
  | [] => None
  end.

(** [\.{3,}] *)
Definition m_dots (t : str) : option nat :=
  let n := length (take_while is_dot t) in
  if (3 <=? n)%nat then Some n else None.

(** [\s*\.\s*\.\s*\.]: the greedy [\s*] never gives a character back,
    since the dot that follows is not white space. *)
Definition m_spaced_dot (t : str) : option (nat * str) :=
  let w := take_while is_space t in
  match drop_while is_space t with
  | c :: r => if is_dot c then Some (S (length w), r) else None
  | [] => None
  end.

Definition m_spaced_dots (t : str) : option nat :=
  match m_spaced_dot t with
  | Some (n1, t1) =>
      match m_spaced_dot t1 with
      | Some (n2, t2) =>
          match m_spaced_dot t2 with
          | Some (n3, _) => Some (n1 + n2 + n3)%nat
          | None => None
          end
      | None => None
      end
  | None => None
  end.

(** ** utils.py *)

Definition ELLIPSIS : str := [DOT; DOT; DOT].

Definition clean_spaces (text : str) : str := re_sub m_spaces [SP] (strip text).
Definition clean_printable (text : str) : str := re_sub m_unprintable [] (clean_spaces text).
Definition clean_dots (text : str) : str := re_sub m_dots ELLIPSIS (clean_printable text).

(** [clean_text], for an argument that is a string; the three
    intermediate texts are named. *)
Definition clean_text (text : str) : str :=
  strip (re_sub m_spaced_dots ELLIPSIS (clean_dots text)).

(** [normalize_level]: [f"h{level}"] for the level clamped to 1..6. *)
Definition LETTER_H : N := 0x68.
Definition digit_char (n : Z) : N := (0x30 + Z.to_N n)%N.
Definition normalize_level (level : Z) : str :=
  let level := Z.max 1 (Z.min 6 level) in
  [LETTER_H; digit_char level].

(** ** The interpreter's Unicode tables *)

Class Unicode := {
  lower : str -> str;          (* str.lower() *)
  isupper : str -> bool;       (* str.isupper() *)
  istitle : str -> bool;       (* str.istitle() *)
  is_decimal : N -> bool;      (* \d: the category Nd *)
  ieq : N -> N -> bool         (* a pattern character against a text character
                                  under re.IGNORECASE *)
}.

Module Ascii.
Definition is_upper (c : N) : bool := in_range 0x41 0x5A c.
Definition is_lower (c : N) : bool := in_range 0x61 0x7A c.
Definition to_lower (c : N) : N := if is_upper c then (c + 32)%N else c.

Definition str_isupper (s : str) : bool :=
  forallb (fun c => negb (is_lower c)) s && existsb is_upper s.

(** [istitle]: upper-case letters only follow uncased characters,
    lower-case letters only cased ones, and there is a cased character. *)
Fixpoint titled (prev_cased seen : bool) (s : str) : bool :=
  match s with
  | [] => seen
  | c :: r =>
      if is_upper c then negb prev_cased && titled true true r
      else if is_lower c then prev_cased && titled true true r
      else titled false seen r
  end.

#[export] Instance unicode : Unicode := {|
  lower := map to_lower;
  isupper := str_isupper;
  istitle := titled false false;
  is_decimal := in_range 0x30 0x39;
  ieq := fun a b => (to_lower a =? to_lower b)%N
|}.
End Ascii.

(** ** Matching at the start of a string

    A matcher consumes a prefix and returns what is left.  The patterns of the
    program are deterministic: where a greedy repetition is followed by a
    character, that character is outside the repeated class (a decimal digit
    is neither a dot, nor white space, nor a letter), and the alternatives of
    a group start differently, so the matchers never need to give characters
    back (the one place where they do, [\s+.+] and [\d+.+], is written out
    in [m_then_any]). *)

Definition matcher := str -> option str.

Definition m_chr (p : N -> bool) : matcher := fun t =>
  match t with
  | c :: r => if p c then Some r else None
  | [] => None
  end.

Definition m_plus (p : N -> bool) : matcher := fun t =>
  match t with
  | c :: r => if p c then Some (drop_while p r) else None
  | [] => None
  end.

Definition m_star (p : N -> bool) : matcher := fun t => Some (drop_while p t).

Definition m_opt (p : N -> bool) : matcher := fun t =>
  match t with
  | c :: r => if p c then Some r else Some t
  | [] => Some t
  end.

Definition m_seq (a b : matcher) : matcher := fun t =>
  match a t with
  | Some r => b r
  | None => None
  end.

Definition m_alt (a b : matcher) : matcher := fun t =>
  match a t with
  | Some r => Some r
  | None => b t
  end.

Fixpoint m_lit_by (eq : N -> N -> bool) (p : str) : matcher := fun t =>
  match p with
  | [] => Some t
  | a :: p' =>
      match t with
      | c :: r => if eq a c then m_lit_by eq p' r else None
      | [] => None
      end
  end.

Definition m_lit : str -> matcher := m_lit_by N.eqb.

Infix ">>>" := m_seq (at level 60, right associativity).

Definition matches (m : matcher) (t : str) : bool :=
  match m t with Some _ => true | None => false end.

(** [$]: the end of the string, or just before a final newline. *)
Definition m_end : matcher := fun t =>
  match t with
  | [] => Some []
  | [c] => if (c =? 0x0A)%N then Some t else None
  | _ => None
  end.

Definition NL : N := 0x0A.
Definition not_nl (c : N) : bool := negb (c =? NL)%N.

(** [p+.+]: a greedy run of [p], then at least one character other than a
    newline.  The run gives its last characters back when nothing follows it:
    there is a match when a character that is not a newline follows the run,
    or stands in the run after its first character. *)
Definition m_then_any (p : N -> bool) : matcher := fun t =>
  match t with
  | c :: r =>
      if p c then
        match drop_while p r with
        | d :: _ => if not_nl d then Some [] else
                      if existsb not_nl (take_while p r) then Some [] else None
        | [] => if existsb not_nl (take_while p r) then Some [] else None
        end
      else None
  | [] => None
  end.

Definition is_IVX (c : N) : bool := (c =? 0x49)%N || (c =? 0x56)%N || (c =? 0x58)%N.
Definition is_AZ (c : N) : bool := in_range 0x41 0x5A c.
Definition is_az (c : N) : bool := in_range 0x61 0x7A c.

(** ** utils.py: the heading-level classifier *)

(** The ["flags"] of a span: an [int], or a value of another type, on which
    [flags & 2**4] raises. *)
Inductive flags_value :=
  | FlagsInt (z : Z)
  | FlagsOther.

Coercion FlagsInt : Z >-> flags_value.

Definition bold (flags : Z) : bool := negb (Z.land flags (2 ^ 4) =? 0).

(** [float(n)] for a length [n]. *)
Definition float_of_int (z : Z) : float := PrimFloat.of_uint63 (Uint63.of_Z z).

Section Classifier.
Context `{Unicode}.

Definition digits : matcher := m_plus is_decimal.
Definition dot : matcher := m_chr is_dot.
Definition opt_dot : matcher := m_opt is_dot.
Definition spaces : matcher := m_plus is_space.
Definition opt_spaces : matcher := m_star is_space.

Definition re_num3 : matcher := digits >>> dot >>> digits >>> dot >>> digits.
Definition re_num2 : matcher := digits >>> dot >>> digits.
Definition re_num1 : matcher := digits >>> opt_dot.
Definition re_roman : matcher := m_plus is_IVX >>> opt_dot.
Definition re_letter : matcher := m_chr is_AZ >>> dot.

(** The first five rules of [detect_heading_level]. *)
Definition explicit_level (text : str) : option str :=
  if matches re_num3 text then Some (py "h3")
  else if matches re_num2 text then Some (py "h2")
  else if matches re_num1 text then Some (py "h1")
  else if matches re_roman text then Some (py "h1")
  else if matches re_letter text then Some (py "h2")
  else None.

Definition keyword_level (text_lower : str) : option str :=
  if contains (py "chapter") text_lower || contains (py "part") text_lower
  then Some (py "h1")
  else if contains (py "section") text_lower then Some (py "h2")
  else if contains (py "subsection") text_lower then Some (py "h3")
  else None.

Definition size_ratio (font_size avg_font_size : float) : float :=
  if (0 <? avg_font_size)%float then (font_size / avg_font_size)%float
  else 1.0%float.

Definition ratio_level (r : float) : str :=
  if (1.8 <=? r)%float then py "h1"
  else if (1.5 <=? r)%float then py "h2"
  else if (1.2 <=? r)%float then py "h3"
  else py "h4".

Definition detect_heading_level
    (text : str) (font_size : float) (flags : flags_value) (avg_font_size : float) : str :=
  let text_lower := lower text in
  match explicit_level text with
  | Some l => l
  | None =>
      match keyword_level text_lower with
      | Some l => l
      | None => ratio_level (size_ratio font_size avg_font_size)
      end
  end.

(** ** utils.py: the title-likelihood predicate *)

Definition one_of (ws : list string) : matcher := fun t =>
  fold_right (fun w k => m_alt (m_lit (py w)) k) (fun _ => None) ws t.

Definition non_title_patterns : list (str -> bool) :=
  [ matches (digits >>> m_end);
    matches (m_lit (py "page") >>> spaces >>> digits);
    matches (digits >>> opt_spaces >>> m_lit (py "of") >>> opt_spaces >>> digits);
    matches (one_of ["table"; "figure"; "chart"; "diagram"]%string);
    matches (one_of ["see"; "refer"; "note"; "example"]%string);
    matches (one_of ["http"; "www"; "ftp"]%string);
    contains (py "@") ].

Definition title_indicators : list (str -> bool) :=
  [ matches (one_of ["chapter"; "section"; "part"]%string >>> spaces >>> digits);
    matches (digits >>> opt_dot >>> spaces >>> m_chr is_AZ);
    matches (m_plus is_IVX >>> opt_dot >>> spaces >>> m_chr is_AZ) ].

Definition has_letter (text : str) : bool :=
  existsb (fun c => is_az c || is_AZ c) text.

Definition is_likely_title (text : str) : bool :=
  if (len text <? 3) then false
  else
    let text_lower := lower text in
    if (200 <? len text) then false
    else if existsb (fun p => p text_lower) non_title_patterns then false
    else if existsb (fun p => p text) title_indicators then true
    else
      isupper (firstn 1 text) && has_letter text
      && (negb (isupper text) || (len text <=? 50)).
End Classifier.

(** ** Exceptions *)

Inductive result (A : Type) : Type :=
  | Ok (a : A)
  | Raise.
Arguments Ok {A} a.
Arguments Raise {A}.

Definition bind {A B} (c : result A) (k : A -> result B) : result B :=
  match c with
  | Ok a => k a
  | Raise => Raise
  end.

Notation "x <- c ;; k" := (bind c (fun x => k))
  (at level 100, c at next level, right associativity).

(** [try: c  except Exception: default] *)
Definition catch {A} (c : result A) (default : A) : A :=
  match c with
  | Ok a => a
  | Raise => default
  end.

(** ** The document, as the parsing engine hands it over

    Only the fields the program reads are kept.  A field read with
    [d.get(key, default)] is optional; a field read with [d[key]] raises
    when it is absent. *)

(** The operand of [flags & 2**4]. *)
Definition int_flags (flags : flags_value) : result Z :=
  match flags with
  | FlagsInt z => Ok z
  | FlagsOther => Raise
  end.

Record span := {
  span_text : option str;
  span_size : option float;
  span_flags : option flags_value;
  span_bbox : option (list float)
}.

Record line := { line_spans : option (list span) }.
Record block := { block_lines : option (list line) }.
Record page_dict := { pd_blocks : option (list block) }.

(** A page of the document: [doc[i]] raises for a page that cannot be
    loaded; for a page that loads, [page.get_text("dict")] may raise. *)
Inductive pdf_page :=
  | Page (text : result page_dict)
  | Unloadable.

(** [doc[i]] *)
Definition load (pg : pdf_page) : result pdf_page :=
  match pg with
  | Page _ => Ok pg
  | Unloadable => Raise
  end.

(** [page.get_text("dict")]; a page that did not load has no text to get. *)
Definition get_text (pg : pdf_page) : result page_dict :=
  match pg with
  | Page text => text
  | Unloadable => Raise
  end.

Inductive meta_title :=
  | TitleAbsent                (* no metadata, or no "title" entry *)
  | TitleIs (s : str)
  | TitleNone.                 (* the entry is there and holds None *)

Record document := {
  doc_metadata : result meta_title;
  get_toc : result (list (Z * str * Z));
  pages : list pdf_page
}.

Definition page_count (doc : document) : Z := Z.of_nat (length (pages doc)).

(** The spans of a page in reading order, up to the first line without a
    ["spans"] entry; the flag tells whether the walk went through. *)
Fixpoint spans_of_lines (ls : list line) : list span * bool :=
  match ls with
  | [] => ([], true)
  | l :: r =>
      match line_spans l with
      | None => ([], false)
      | Some ss => let (rest, ok) := spans_of_lines r in (ss ++ rest, ok)
      end
  end.

Fixpoint spans_of_blocks (bs : list block) : list span * bool :=
  match bs with
  | [] => ([], true)
  | b :: r =>
      match block_lines b with
      | None => spans_of_blocks r
      | Some ls =>
          let (here, ok) := spans_of_lines ls in
          if ok then let (rest, ok') := spans_of_blocks r in (here ++ rest, ok')
          else (here, false)
      end
  end.

Definition blocks_of (pd : page_dict) : list block := default [] (pd_blocks pd).

(** [seq[1]] *)
Definition index1 (l : list float) : result float :=
  match l with
  | _ :: y :: _ => Ok y
  | _ => Raise
  end.

(** [list.sort] is stable; [lt a b] compares the keys.  On keys that are
    totally ordered every stable sort returns this list. *)
Fixpoint insert_by {A} (lt : A -> A -> bool) (x : A) (l : list A) : list A :=
  match l with
  | [] => [x]
  | y :: r => if lt y x then y :: insert_by lt x r else x :: l
  end.

Definition stable_sort {A} (lt : A -> A -> bool) (l : list A) : list A :=
  fold_right (insert_by lt) [] l.

(** ** outline_extractor.py *)

Record item := { level : str; text : str; page : Z }.

Record text_span := {
  ts_text : str;
  ts_size : float;
  ts_flags : flags_value;
  ts_y : float
}.

Definition level_map : gmap (list N) Z :=
  list_to_map [(py "h1", 1); (py "h2", 2); (py "h3", 3);
               (py "h4", 4); (py "h5", 5); (py "h6", 6)].

Definition reverse_map : gmap Z (list N) :=
  list_to_map [(1, py "h1"); (2, py "h2"); (3, py "h3");
               (4, py "h4"); (5, py "h5"); (6, py "h6")].

(** The loop of [_fix_hierarchy]; [current_level] is the state. *)
Fixpoint fix_levels (current_level : Z) (outline : list item) : list item :=
  match outline with
  | [] => []
  | it :: r =>
      let level_num := default 1 (level_map !! level it) in
      let level_num :=
        if current_level + 1 <? level_num then current_level + 1 else level_num in
      {| level := default (py "h1") (reverse_map !! level_num);
         text := text it; page := page it |}
      :: fix_levels level_num r
  end.

Definition _fix_hierarchy (outline : list item) : list item := fix_levels 1 outline.

Section Outline.
Context `{Unicode}.

(** [_extract_from_bookmarks] *)
Fixpoint bookmark_items (page_count : Z) (toc : list (Z * str * Z)) : list item :=
  match toc with
  | [] => []
  | (lvl, title, pg) :: r =>
      let clean_title := clean_text title in
      if (len clean_title <? 2) then bookmark_items page_count r
      else
        {| level := normalize_level lvl;
           text := clean_title;
           page := Z.max 1 (Z.min pg page_count) |}
        :: bookmark_items page_count r
  end.

Definition _extract_from_bookmarks (doc : document) : list item :=
  catch (toc <- get_toc doc ;;
         Ok (bookmark_items (page_count doc) toc))
        [].

(** [_is_likely_heading] *)
Definition icase (cls : N -> bool) (c : N) : bool :=
  existsb (fun a => cls a && ieq a c) (map N.of_nat (seq 0x41 26)).

Definition then_text : matcher := m_then_any is_space.

Definition heading_patterns : list matcher :=
  [ digits >>> opt_dot >>> then_text;
    m_plus (icase is_IVX) >>> opt_dot >>> then_text;
    m_chr (icase is_AZ) >>> opt_dot >>> then_text;
    m_lit_by ieq (py "Chapter") >>> spaces >>> m_then_any is_decimal;
    m_lit_by ieq (py "Section") >>> spaces >>> m_then_any is_decimal;
    digits >>> dot >>> digits >>> then_text;
    digits >>> dot >>> digits >>> dot >>> digits >>> then_text ].

Definition level_indicators : list string :=
  ["chapter"; "section"; "subsection"; "part"; "appendix"]%string.

Definition _is_likely_heading
    (text : str) (font_size : float) (flags : flags_value) (avg_font_size : float) :
    result bool :=
  if (len text <? 3) || (200 <? len text) then Ok false
  else if (avg_font_size * 1.2 <? font_size)%float then Ok true
  else
    flags <- int_flags flags ;;
    Ok (if bold flags && (len text <? 100) then true
        else if existsb (fun m => matches m text) heading_patterns then true
        else existsb (fun w => contains (py w) (lower text)) level_indicators).

(** [_calculate_average_font_size]: [sum] adds from the left, starting
    from 0. *)
Definition _calculate_average_font_size (text_spans : list text_span) : float :=
  match text_spans with
  | [] => 12.0%float
  | _ =>
      let total_size := fold_left (fun a s => (a + ts_size s)%float) text_spans 0%float in
      (total_size / float_of_int (len text_spans))%float
  end.

(** The first loop of [_find_headings_on_page]: every statement of it can
    raise, and [headings] is still empty while it runs. *)
Fixpoint text_spans_of (ss : list span) : result (list text_span) :=
  match ss with
  | [] => Ok []
  | sp :: r =>
      let text := strip (default [] (span_text sp)) in
      match text with
      | [] => text_spans_of r
      | _ =>
          y <- index1 (default [0; 0; 0; 0]%float (span_bbox sp)) ;;
          rest <- text_spans_of r ;;
          Ok ({| ts_text := text;
                 ts_size := default 0%float (span_size sp);
                 ts_flags := default (FlagsInt 0) (span_flags sp);
                 ts_y := y |} :: rest)
      end
  end.

Definition page_text_spans (pg : pdf_page) : result (list text_span) :=
  page_dict <- get_text pg ;;
  let (ss, ok) := spans_of_blocks (blocks_of page_dict) in
  text_spans <- text_spans_of ss ;;
  if ok then Ok (stable_sort (fun a b => (ts_y a <? ts_y b)%float) text_spans)
  else Raise.

(** The second loop of [_find_headings_on_page]: a fault ends it, and the
    headings appended so far are the ones returned. *)
Fixpoint headings_from (page_num : Z) (avg_font_size : float) (text_spans : list text_span) :
    list item :=
  match text_spans with
  | [] => []
  | sp :: r =>
      match _is_likely_heading (ts_text sp) (ts_size sp) (ts_flags sp) avg_font_size with
      | Raise => []
      | Ok true =>
          {| level := detect_heading_level (ts_text sp) (ts_size sp) (ts_flags sp)
                        avg_font_size;
             text := clean_text (ts_text sp);
             page := page_num |}
          :: headings_from page_num avg_font_size r
      | Ok false => headings_from page_num avg_font_size r
      end
  end.

Definition headings_of (page_num : Z) (text_spans : list text_span) : list item :=
  headings_from page_num (_calculate_average_font_size text_spans) text_spans.

Definition _find_headings_on_page (pg : pdf_page) (page_num : Z) : list item :=
  catch (text_spans <- page_text_spans pg ;;
         Ok (headings_of page_num text_spans))
        [].

(** [_refine_outline] *)
Fixpoint dedup (seen : gset (list N * Z)) (outline : list item) : list item :=
  match outline with
  | [] => []
  | it :: r =>
      let key := (lower (text it), page it) in
      if decide (key ∈ seen) then dedup seen r
      else it :: dedup ({[key]} ∪ seen) r
  end.

Definition sort_by_page : list item -> list item :=
  stable_sort (fun a b => page a <? page b).

Definition _refine_outline (outline : list item) : list item :=
  _fix_hierarchy (sort_by_page (dedup ∅ outline)).

(** [_extract_from_content]: the loop over the pages, from page index
    [page_num] on.  Loading a page stands outside the [try] of
    [_find_headings_on_page]: when it raises, the [try] of the function
    itself answers, with the empty outline. *)
Fixpoint headings_of_pages (page_num : Z) (pgs : list pdf_page) : result (list item) :=
  match pgs with
  | [] => Ok []
  | pg :: r =>
      page <- load pg ;;
      let headings := _find_headings_on_page page (page_num + 1) in
      rest <- headings_of_pages (page_num + 1) r ;;
      Ok (headings ++ rest)
  end.

Definition _extract_from_content (doc : document) : list item :=
  catch (outline <- headings_of_pages 0 (pages doc) ;;
         Ok (_refine_outline outline))
        [].

(** [extract_outline] *)
Definition extract_outline (doc : document) : list item :=
  match _extract_from_bookmarks doc with
  | (_ :: _) as outline => outline
  | [] => _extract_from_content doc
  end.
End Outline.

(** ** title_extractor.py *)

Record text_block := {
  tb_text : str;
  tb_size : float;
  tb_flags : flags_value;
  tb_bbox : list float
}.

Record candidate := {
  c_text : str;
  c_font_size : float;
  c_y_position : float;
  c_score : float
}.

Section Title.
Context `{Unicode}.

Definition ignore_words : list string :=
  ["page"; "chapter"; "section"; "table"; "figure"; "contents"; "index";
   "appendix"; "bibliography"; "abstract"; "introduction"; "conclusion"]%string.

(** [_get_text_blocks_with_formatting]: its own [try] keeps the blocks
    gathered before a failure. *)
Definition block_of_span (sp : span) : list text_block :=
  match strip (default [] (span_text sp)) with
  | [] => []
  | text =>
      [ {| tb_text := text;
           tb_size := default 0%float (span_size sp);
           tb_flags := default (FlagsInt 0) (span_flags sp);
           tb_bbox := default [] (span_bbox sp) |} ]
  end.

Definition _get_text_blocks_with_formatting (pg : pdf_page) : list text_block :=
  match get_text pg with
  | Raise => []
  | Ok page_dict => flat_map block_of_span (fst (spans_of_blocks (blocks_of page_dict)))
  end.

(** [_calculate_title_score] *)
Definition title_score (text : str) (font_size : float) (flags : Z) (y_pos : float) : float :=
  let score := (0 + font_size * 2)%float in
  let d := (800 - y_pos)%float in
  let score := (score + (if (0 <? d)%float then d else 0%float) / 10)%float in
  let score := if bold flags then (score + 20)%float else score in
  let score := if (10 <=? len text) && (len text <=? 100) then (score + 30)%float else score in
  let score := if istitle text then (score + 15)%float else score in
  if isupper text && (20 <? len text) then (score - 10)%float else score.

Definition _calculate_title_score (b : text_block) : result float :=
  y_pos <- index1 (tb_bbox b) ;;
  flags <- int_flags (tb_flags b) ;;
  Ok (title_score (tb_text b) (tb_size b) flags y_pos).

(** The filters of [_extract_from_first_page]. *)
Definition survives (b : text_block) : bool :=
  let text := strip (tb_text b) in
  if (len text <? 5) || (200 <? len text) then false
  else if existsb (fun w => contains (lower (py w)) (lower text)) ignore_words then false
  else is_likely_title text.

Fixpoint candidates_of (bs : list text_block) : result (list candidate) :=
  match bs with
  | [] => Ok []
  | b :: r =>
      if survives b then
        y <- index1 (tb_bbox b) ;;
        sc <- _calculate_title_score b ;;
        rest <- candidates_of r ;;
        Ok ({| c_text := strip (tb_text b); c_font_size := tb_size b;
               c_y_position := y; c_score := sc |} :: rest)
      else candidates_of r
  end.

(** [candidates.sort(key=score, reverse=True)] *)
Definition sort_by_score : list candidate -> list candidate :=
  stable_sort (fun a b => (c_score b <? c_score a)%float).

Definition _extract_from_metadata (doc : document) : option str :=
  catch (metadata <- doc_metadata doc ;;
         title <- match metadata with
                  | TitleAbsent => Ok []
                  | TitleIs s => Ok s
                  | TitleNone => Raise
                  end ;;
         let title := strip title in
         if (3 <? len title) then Ok (Some (clean_text title)) else Ok None)
        None.

Definition _extract_from_outline (doc : document) : option str :=
  catch (outline <- get_toc doc ;;
         match outline with
         | (lvl, title, _) :: _ =>
             if (lvl =? 1) && is_likely_title title then Ok (Some (clean_text title))
             else Ok None
         | [] => Ok None
         end)
        None.

Definition _extract_from_first_page (doc : document) : option str :=
  catch (match pages doc with
         | [] => Ok None
         | pg :: _ =>
             page <- load pg ;;
             let text_blocks := _get_text_blocks_with_formatting page in
             candidates <- candidates_of text_blocks ;;
             match sort_by_score candidates with
             | c :: _ => Ok (Some (clean_text (c_text c)))
             | [] => Ok None
             end
         end)
        None.

(** The scan of [_extract_by_font_size]; the state is
    [(max_font_size, title_candidates)]. *)
Definition font_step (st : float * list str) (b : text_block) : float * list str :=
  let (max_font_size, title_candidates) := st in
  let font_size := tb_size b in
  let text := strip (tb_text b) in
  if (max_font_size <? font_size)%float && (5 <? len text) && is_likely_title text
  then (font_size, [text])
  else if (font_size =? max_font_size)%float && (5 <? len text) && is_likely_title text
  then (max_font_size, title_candidates ++ [text])
  else st.

(** The blocks the scan goes through, page after page; loading a page may
    raise. *)
Fixpoint blocks_of_pages (pgs : list pdf_page) : result (list text_block) :=
  match pgs with
  | [] => Ok []
  | pg :: r =>
      page <- load pg ;;
      rest <- blocks_of_pages r ;;
      Ok (_get_text_blocks_with_formatting page ++ rest)
  end.

Definition _extract_by_font_size (doc : document) : option str :=
  catch (blocks <- blocks_of_pages (firstn 3 (pages doc)) ;;
         match snd (fold_left font_step blocks (0%float, [])) with
         | t :: _ => Ok (Some (clean_text t))
         | [] => Ok None
         end)
        None.

(** [if title: return title], and otherwise what follows, [k]. *)
Definition or_else (o : option str) (k : str) : str :=
  match o with
  | Some ((_ :: _) as t) => t
  | _ => k
  end.

Definition extract_title (doc : document) : str :=
  or_else (_extract_from_metadata doc)
    (or_else (_extract_from_outline doc)
       (or_else (_extract_from_first_page doc)
          (or_else (_extract_by_font_size doc) []))).

(** ** pdf_processor.py *)

Record extraction := { title : str; outline : list item }.

Definition process_pdf (opened : result document) : extraction :=
  catch (doc <- opened ;;
         if (page_count doc =? 0) then Raise
         else Ok {| title := extract_title doc; outline := extract_outline doc |})
        {| title := []; outline := [] |}.
End Title.

(** ** json_validator.py *)

(** The values a result dictionary can hold.  A [bool] is an [int] for
    [isinstance], as in Python. *)
Inductive pyval :=
  | PNone
  | PBool (b : bool)
  | PInt (z : Z)
  | PFloat (f : float)
  | PStr (s : str)
  | PList (l : list pyval)
  | PDict (d : list (list N * pyval)).

Module JSONValidator.

Fixpoint dict_get (d : list (list N * pyval)) (key : str) : option pyval :=
  match d with
  | [] => None
  | (k, v) :: r => if decide (k = key) then Some v else dict_get r key
  end.

Definition valid_levels : gset (list N) :=
  list_to_set [py "h1"; py "h2"; py "h3"; py "h4"; py "h5"; py "h6"].

(** [isinstance(v, int)] with the value of the integer. *)
Definition as_int (v : pyval) : option Z :=
  match v with
  | PInt z => Some z
  | PBool b => Some (if b then 1 else 0)
  | _ => None
  end.

Definition _validate_title (title : pyval) : bool :=
  match title with
  | PStr s => negb (500 <? len s)
  | _ => false
  end.

Definition _validate_outline_item (it : pyval) : bool :=
  match it with
  | PDict d =>
      match dict_get d (py "level"), dict_get d (py "text"), dict_get d (py "page") with
      | Some lvl, Some txt, Some pg =>
          match lvl with
          | PStr l =>
              if decide (l ∈ valid_levels) then
                match txt with
                | PStr t =>
                    if (len (strip t) =? 0) then false
                    else if (1000 <? len t) then false
                    else
                      match as_int pg with
                      | Some n => negb (n <? 1)
                      | None => false
                      end
                | _ => false
                end
              else false
          | _ => false
          end
      | _, _, _ => false
      end
  | _ => false
  end.

Definition _validate_outline (outline : pyval) : bool :=
  match outline with
  | PList l => forallb _validate_outline_item l
  | _ => false
  end.

Definition validate (data : pyval) : bool :=
  match data with
  | PDict d =>
      match dict_get d (py "title"), dict_get d (py "outline") with
      | Some t, Some o => _validate_title t && _validate_outline o
      | _, _ => false
      end
  | _ => false
  end.

Section Sanitize.
(** [str(v)] for a value that is not a string: the interpreter's. *)
Variable str_of : pyval -> str.

Definition to_str (v : pyval) : str :=
  match v with
  | PStr s => s
  | _ => str_of v
  end.

Definition sanitize_item (it : pyval) : list pyval :=
  match it with
  | PDict d =>
      let lvl :=
        match default (PStr (py "h1")) (dict_get d (py "level")) with
        | PStr l => if decide (l ∈ valid_levels) then l else py "h1"
        | _ => py "h1"
        end in
      let txt := to_str (default (PStr []) (dict_get d (py "text"))) in
      let txt := take 1000 (strip txt) in
      match txt with
      | [] => []
      | _ =>
          let pg := default (PInt 1) (dict_get d (py "page")) in
          let pg := match as_int pg with
                    | Some n => if (n <? 1) then PInt 1 else pg
                    | None => PInt 1
                    end in
          [ PDict [(py "level", PStr lvl); (py "text", PStr txt); (py "page", pg)] ]
      end
  | _ => []
  end.

Definition sanitize_data (data : list (list N * pyval)) : pyval :=
  let ttl := to_str (default (PStr []) (dict_get data (py "title"))) in
  let outline :=
    match default (PList []) (dict_get data (py "outline")) with
    | PList l => l
    | _ => []
    end in
  PDict [ (py "title", PStr (take 500 (strip ttl)));
          (py "outline", PList (flat_map sanitize_item outline)) ].
End Sanitize.
End JSONValidator.

(** ** utils.py: limits *)

(** [validate_page_number] *)
Definition validate_page_number (page max_pages : Z) : Z :=
  Z.max 1 (Z.min page max_pages).

(** [seq[:k]]: a negative [k] counts from the end. *)
Definition slice_to {A} (l : list A) (k : Z) : list A :=
  if k <? 0 then firstn (Z.to_nat (len l + k)) l else firstn (Z.to_nat k) l.

Definition level_priority : gmap (list N) Z :=
  list_to_map [(py "h1", 1); (py "h2", 2); (py "h3", 3);
               (py "h4", 4); (py "h5", 5); (py "h6", 6)].

(** The sort key of [filter_outline_items], and [<] on such pairs. *)
Definition priority_key (it : item) : Z * Z :=
  (default 6 (level_priority !! level it), page it).

Definition pair_lt (a b : Z * Z) : bool :=
  (fst a <? fst b) || ((fst a =? fst b) && (snd a <? snd b)).

(** [filter_outline_items]; the list it returns is a new one. *)
Definition filter_outline_items (outline : list item) (max_items : Z) : list item :=
  if len outline <=? max_items then outline
  else slice_to (stable_sort (fun a b => pair_lt (priority_key a) (priority_key b)) outline)
                max_items.

(** ** pdf_processor.py: the text blocks of the first pages *)

Record paged_block := {
  pb_text : str;
  pb_page : Z;
  pb_size : float;
  pb_flags : flags_value;
  pb_bbox : list float
}.

Definition paged_block_of (page_number : Z) (sp : span) : list paged_block :=
  match strip (default [] (span_text sp)) with
  | [] => []
  | text =>
      [ {| pb_text := text;
           pb_page := page_number;
           pb_size := default 0%float (span_size sp);
           pb_flags := default (FlagsInt 0) (span_flags sp);
           pb_bbox := default [] (span_bbox sp) |} ]
  end.

(** The loop of [extract_text_blocks] from page index [page_num] on: one
    [try] encloses it, so the first failure ends it and the blocks gathered
    so far are returned.  [doc[page_num]] raises for a page that cannot be
    loaded, and [page.get_text("dict")["blocks"]] when there is no such
    entry. *)
Fixpoint text_blocks_from (page_num : Z) (pgs : list pdf_page) : list paged_block :=
  match pgs with
  | [] => []
  | pg :: r =>
      match load pg with
      | Raise => []
      | Ok page =>
          match get_text page with
          | Raise => []
          | Ok page_dict =>
              match pd_blocks page_dict with
              | None => []
              | Some blocks =>
                  let (ss, ok) := spans_of_blocks blocks in
                  let here := flat_map (paged_block_of (page_num + 1)) ss in
                  if ok then here ++ text_blocks_from (page_num + 1) r else here
              end
          end
      end
  end.

Definition extract_text_blocks (doc : document) (max_pages : Z) : list paged_block :=
  text_blocks_from 0 (firstn (Z.to_nat (Z.min max_pages (page_count doc))) (pages doc)).

(** ** The result as the validator receives it *)

(** The dictionaries [process_pdf] and the outline extractors build. *)
Definition item_to_py (it : item) : pyval :=
  PDict [(py "level", PStr (level it)); (py "text", PStr (text it)); (py "page", PInt (page it))].

Definition extraction_fields (e : extraction) : list (list N * pyval) :=
  [(py "title", PStr (title e)); (py "outline", PList (map item_to_py (outline e)))].

Definition extraction_to_py (e : extraction) : pyval := PDict (extraction_fields e).

(** * Vocabulary of the properties *)

(** ** Cleaned text *)

(** The only white-space character that may remain is U+0020. *)
Definition space_is_SP (c : N) : Prop := is_space c = true -> c = SP.

(** A character of a cleaned text: kept by the second substitution, and no
    white space other than U+0020. *)
Definition clean_char (c : N) : bool :=
  printable c && (negb (is_space c) || (c =? SP)%N).

(** Every run of consecutive dots has at most [n] dots; [cur] dots
    precede the string. *)
Fixpoint runs_le (n cur : nat) (s : str) : bool :=
  match s with
  | [] => true
  | c :: r =>
      if is_dot c then (S cur <=? n)%nat && runs_le n (S cur) r
      else runs_le n 0 r
  end.

Definition dot_runs_le (n : nat) (s : str) : bool := runs_le n 0 s.

(** The same, with white space between dots ignored. *)
Fixpoint spaced_runs_le (n cur : nat) (s : str) : bool :=
  match s with
  | [] => true
  | c :: r =>
      if is_dot c then (S cur <=? n)%nat && spaced_runs_le n (S cur) r
      else if is_space c then spaced_runs_le n cur r
      else spaced_runs_le n 0 r
  end.

(** The characters of a string that are not white space, in order. *)
Definition visible (s : str) : str := List.filter (fun c => negb (is_space c)) s.

(** No two white-space characters are adjacent; [prev] tells whether one
    precedes the string. *)
Fixpoint no_adjacent_spaces (prev : bool) (s : str) : bool :=
  match s with
  | [] => true
  | c :: r =>
      if is_space c then negb prev && no_adjacent_spaces true r
      else no_adjacent_spaces false r
  end.

(** The states of the scan of [re_sub_from] for [\.{3,}] and for [\s+]:
    [k] characters of the current match are left, [cur] dots were just
    written (resp. [prev]: a space was just written). *)
Definition leading_dots (t : str) : nat := length (take_while is_dot t).

Definition dots_state (k cur : nat) (t : str) : Prop :=
  match k with
  | O => (3 <= leading_dots t -> cur = 0)%nat
         /\ (leading_dots t < 3 -> cur + leading_dots t <= 3)%nat
  | S _ => leading_dots t = k /\ (cur <= 3)%nat
  end.

Definition leading_spaces (t : str) : nat := length (take_while is_space t).

Definition spaces_state (k : nat) (prev : bool) (t : str) : Prop :=
  match k with
  | O => prev = true -> leading_spaces t = 0%nat
  | S _ => leading_spaces t = k
  end.

(** A match is at least as long as its replacement, and lies in the text. *)
Definition shrinking (m : str -> option nat) (repl : str) : Prop :=
  forall u n, m u = Some n -> (length repl <= n <= length u)%nat.

(** ** Levels *)

(** A native entry whose cleaned title has at least two characters. *)
Definition kept_entry (e : Z * str * Z) : bool := 2 <=? len (clean_text (snd (fst e))).

Definition level_ordinal (l : str) : option Z := level_map !! l.

(** [levelOrdinal(b) <= levelOrdinal(a) + 1], both levels being tags. *)
Definition step_ok (a b : item) : bool :=
  match level_ordinal (level a), level_ordinal (level b) with
  | Some m, Some n => n <=? m + 1
  | _, _ => false
  end.

(** The pairs of adjacent items, in order. *)
Definition adjacent {A} (l : list A) : list (A * A) := zip l (tail l).

Definition level_monotone (l : list item) : bool :=
  forallb (fun p => step_ok (fst p) (snd p)) (adjacent l).

(** The first level is at most [n]. *)
Definition first_level_le (n : Z) (l : list item) : bool :=
  match l with
  | [] => true
  | it :: _ =>
      match level_ordinal (level it) with
      | Some m => m <=? n
      | None => false
      end
  end.

(** One step of [_fix_hierarchy]: the number it writes back, and its tag. *)
Definition repaired (current_level : Z) (it : item) : Z :=
  let level_num := default 1 (level_map !! level it) in
  if current_level + 1 <? level_num then current_level + 1 else level_num.

Definition tag (n : Z) : str := default (py "h1") (reverse_map !! n).

(** The key under which [_refine_outline] remembers an item. *)
Definition dedup_key `{Unicode} (it : item) : list N * Z := (lower (text it), page it).

(** ** Scores *)

(** [x == x]: [x] is not a NaN. *)
Definition ordered (x : float) : bool := (x =? x)%float.

(** [c] is the earliest element of [l] with the greatest score. *)
Definition first_max {A} (score : A -> float) (c : A) (l : list A) : Prop :=
  exists pre post,
    l = pre ++ c :: post
    /\ Forall (fun x => (score x <? score c)%float = true) pre
    /\ Forall (fun x => (score x <=? score c)%float = true) post.

(** The block has a bounding box with a second coordinate. *)
Definition has_y (b : text_block) : bool :=
  match tb_bbox b with
  | _ :: _ :: _ => true
  | _ => false
  end.

(** The score the program gives a block (the length in it is that of the
    trimmed text); not a number when the program fails to compute one. *)
Definition score_of `{Unicode} (b : text_block) : float :=
  catch (_calculate_title_score b) nan.

Definition candidate_of `{Unicode} (b : text_block) : candidate :=
  {| c_text := strip (tb_text b); c_font_size := tb_size b;
     c_y_position := nth 1 (tb_bbox b) 0%float; c_score := score_of b |}.

(** The score as the specification words it, to compare with [title_score]:
    the same sum, with the length of the cleaned text in the length bonus. *)
Definition spec_title_score `{Unicode}
    (text : str) (font_size : float) (flags : Z) (y_pos : float) : float :=
  let score := (2 * font_size)%float in
  let d := (800 - y_pos)%float in
  let score := (score + (if (0 <? d)%float then d else 0%float) / 10)%float in
  let score := if bold flags then (score + 20)%float else score in
  let score := if (10 <=? len (clean_text text)) && (len (clean_text text) <=? 100)
               then (score + 30)%float else score in
  let score := if istitle text then (score + 15)%float else score in
  if isupper text && (20 <? len text) then (score - 10)%float else score.

(** ** Documents without signal *)

Definition blank_span (sp : span) : bool :=
  match strip (default [] (span_text sp)) with
  | [] => true
  | _ => false
  end.

(** The page cannot be loaded or read, or none of its spans has text. *)
Definition no_usable_spans (pg : pdf_page) : bool :=
  match get_text pg with
  | Raise => true
  | Ok page_dict => forallb blank_span (fst (spans_of_blocks (blocks_of page_dict)))
  end.

Definition no_metadata_title (doc : document) : bool :=
  match doc_metadata doc with
  | Ok (TitleIs s) => match strip s with [] => true | _ => false end
  | _ => true
  end.

Definition no_native_outline (doc : document) : bool :=
  match get_toc doc with
  | Ok (_ :: _) => false
  | _ => true
  end.

Definition empty_extraction : extraction := {| title := []; outline := [] |}.

(** ** Faults *)

(** The analysis of the span raises. *)
Definition analysis_fails `{Unicode} (avg_font_size : float) (sp : text_span) : bool :=
  match _is_likely_heading (ts_text sp) (ts_size sp) (ts_flags sp) avg_font_size with
  | Raise => true
  | Ok _ => false
  end.

(** The headings among spans: one item for every span that is judged a
    heading. *)
Definition headings_among `{Unicode}
    (page_num : Z) (avg_font_size : float) (text_spans : list text_span) : list item :=
  flat_map (fun sp =>
    match _is_likely_heading (ts_text sp) (ts_size sp) (ts_flags sp) avg_font_size with
    | Ok true =>
        [ {| level := detect_heading_level (ts_text sp) (ts_size sp) (ts_flags sp)
                        avg_font_size;
             text := clean_text (ts_text sp);
             page := page_num |} ]
    | _ => []
    end) text_spans.

(** The first answer that is a text and is not empty; the empty string when
    there is none. *)
Fixpoint first_answer (answers : list (option str)) : str :=
  match answers with
  | [] => []
  | Some ((_ :: _) as t) :: _ => t
  | _ :: r => first_answer r
  end.

(** ** Sanitized items *)

(** A sanitized outline item: the three fields, within their bounds. *)
Definition item_ok (it : pyval) : Prop :=
  exists l t pg n,
    it = PDict [(py "level", PStr l); (py "text", PStr t); (py "page", pg)]
    /\ l ∈ JSONValidator.valid_levels
    /\ strip t <> [] /\ len t <= 1000
    /\ JSONValidator.as_int pg = Some n /\ 1 <= n.

(** ** Documents of the scenarios *)

(** [doc[i]] gives a page object. *)
Definition loaded (pg : pdf_page) : bool :=
  match pg with
  | Page _ => true
  | Unloadable => false
  end.

Definition blank_page : pdf_page := Page (Ok {| pd_blocks := None |}).

Definition unreadable_page : pdf_page := Page Raise.

Definition span_of (t : string) (size y0 : float) (flags : Z) : span :=
  {| span_text := Some (py t); span_size := Some size; span_flags := Some (FlagsInt flags);
     span_bbox := Some [72; y0; 300; y0 + size]%float |}.

Definition page_of (ss : list span) : pdf_page :=
  Page (Ok {| pd_blocks := Some [ {| block_lines := Some [ {| line_spans := Some ss |} ] |} ] |}).

Definition with_pages (doc : document) (pgs : list pdf_page) : document :=
  {| doc_metadata := doc_metadata doc; get_toc := get_toc doc; pages := pgs |}.

Definition doc_titled (s : str) (toc : result (list (Z * str * Z))) (pgs : list pdf_page) :
  document :=
  {| doc_metadata := Ok (TitleIs s); get_toc := toc; pages := pgs |}.

Definition toc_c1 : list (Z * str * Z) :=
  [(1, py "Intro", 1); (3, py "Deep Dive", 2); (2, py "Background", 2)].

Definition doc_c1 : document :=
  {| doc_metadata := Ok TitleAbsent; get_toc := Ok toc_c1;
     pages := [blank_page; blank_page] |}.

Definition doc_c6 : document :=
  {| doc_metadata := Ok TitleAbsent; get_toc := Ok [];
     pages := [ page_of [ span_of "Ab  cd  ef" 10 0 0; span_of "Abcdefgh" 12 0 0 ] ] |}.

(** A first page whose only span has no bounding box. *)
Definition doc_c6_nobox : document :=
  {| doc_metadata := Ok TitleAbsent; get_toc := Ok [];
     pages := [ page_of [ {| span_text := Some (py "Quarterly Results");
                             span_size := Some 20%float; span_flags := Some (FlagsInt 0);
                             span_bbox := None |} ] ] |}.

Definition doc_c8 : document :=
  {| doc_metadata := Raise; get_toc := Raise;
     pages := [ page_of [ span_of "1. Scope" 18 40 0 ];
                unreadable_page;
                page_of [ span_of "2. Method" 18 40 0 ] ] |}.

(** A page whose second span has flags that are no integer, between two
    numbered headings. *)
Definition page_c8_flags : pdf_page :=
  page_of [ span_of "1. Scope" 18 40 0;
            {| span_text := Some (py "plain body text"); span_size := Some 10%float;
               span_flags := Some FlagsOther;
               span_bbox := Some [72; 60; 300; 70]%float |};
            span_of "2. Method" 18 80 0 ].

(** The document [doc_c8] with a second page that cannot be loaded. *)
Definition doc_c8_unloadable : document :=
  {| doc_metadata := Raise; get_toc := Raise;
     pages := [ page_of [ span_of "1. Scope" 18 40 0 ];
                Unloadable;
                page_of [ span_of "2. Method" 18 40 0 ] ] |}.

(** A document whose metadata cannot be read and whose native outline
    starts with a title. *)
Definition doc_c8_toc_title : document :=
  {| doc_metadata := Raise; get_toc := Ok [(1, py "Chapter 1: Origins", 1)]; pages := [] |}.

(** ** Comparisons of binary64 values, case by case *)

Ltac sf_cases :=
  repeat match goal with
  | s : bool |- _ => destruct s
  | |- context [Pos.compare_cont Eq ?a ?b] =>
      change (Pos.compare_cont Eq a b) with (Pos.compare a b)
  | H : context [Pos.compare_cont Eq ?a ?b] |- _ =>
      change (Pos.compare_cont Eq a b) with (Pos.compare a b) in H
  end;
  repeat match goal with
  | |- context [Z.compare ?a ?b] => destruct (Z.compare_spec a b)
  | H : context [Z.compare ?a ?b] |- _ => destruct (Z.compare_spec a b)
  | |- context [Pos.compare ?a ?b] => destruct (Pos.compare_spec a b)
  | H : context [Pos.compare ?a ?b] |- _ => destruct (Pos.compare_spec a b)
  end; simpl in *; try congruence; try lia.

(** ** Limits *)

(** [<=] on the sort keys of [filter_outline_items]. *)
Definition pair_le (a b : Z * Z) : Prop :=
  fst a < fst b \/ (fst a = fst b /\ snd a <= snd b).

(** Every element of [kept] comes before every element of [dropped] in the
    order of priority. *)
Definition all_before (kept dropped : list item) : Prop :=
  Forall (fun k => Forall (fun d => pair_le (priority_key k) (priority_key d)) dropped) kept.

(** ** Ordinary text *)

(** The number of dots of a text. *)
Definition dot_count (t : str) : nat := length (List.filter is_dot t).

(** A text that needs no cleaning: trimmed, single spaces as the only white
    space, characters that are kept, and fewer than three dots. *)
Definition ordinary (t : str) : bool :=
  forallb clean_char t && no_adjacent_spaces true t
  && negb (existsb is_space (firstn 1 (rev t))) && (dot_count t <=? 2)%nat.

(** The items of one page. *)
Definition on_page (p : Z) (it : item) : bool := page it =? p.

(** ** Results *)

(** The levels the classifier gives. *)
Definition h1_to_h4 : list str := [py "h1"; py "h2"; py "h3"; py "h4"].

(** What the validator asks of the text of an item. *)
Definition text_ok (it : item) : Prop := strip (text it) <> [] /\ len (text it) <= 1000.

(** The value a dictionary holds under a key; [None] of Python when it has
    none. *)
Definition field_of (d : list (list N * pyval)) (key : string) : pyval :=
  default PNone (JSONValidator.dict_get d (py key)).

(** A string value without the white space around it. *)
Definition trimmed_str (v : pyval) : pyval :=
  match v with
  | PStr s => PStr (strip s)
  | _ => v
  end.

(** An item reduced to its level, its trimmed text and its page, in this
    order. *)
Definition kept_item (it : pyval) : pyval :=
  match it with
  | PDict d => PDict [ (py "level", field_of d "level");
                       (py "text", trimmed_str (field_of d "text"));
                       (py "page", field_of d "page") ]
  | _ => it
  end.

Definition kept_items (outline : pyval) : pyval :=
  match outline with
  | PList l => PList (map kept_item l)
  | _ => outline
  end.

(** A dictionary reduced to its trimmed title and its reduced items. *)
Definition kept_data (data : list (list N * pyval)) : pyval :=
  PDict [ (py "title", trimmed_str (field_of data "title"));
          (py "outline", kept_items (field_of data "outline")) ].

(** A valid dictionary with keys that the schema does not know, in an item
    and at the top, and a page that is a Boolean. *)
Definition data_x17 : list (list N * pyval) :=
  [ (py "source", PStr (py "scan"));
    (py "outline",
     PList [ PDict [ (py "font", PFloat 12%float);
                     (py "page", PInt 2);
                     (py "text", PStr (py " Scope "));
                     (py "level", PStr (py "h2")) ];
             PDict [ (py "level", PStr (py "h1"));
                     (py "text", PStr (py "Method"));
                     (py "page", PBool true) ] ]);
    (py "title", PStr (py " Report ")) ].

(** ** Titles *)

(** What a strategy returns, when it returns a text, is a cleaned text of
    at most 200 characters. *)
Definition short_clean (o : option str) : Prop :=
  forall t, o = Some t -> exists s, t = clean_text s /\ len s <= 200.

(** A block the scan of [_extract_by_font_size] can take: more than five
    characters after trimming, title-like, and a size that is a number and
    not below 0. *)
Definition font_candidate `{Unicode} (b : text_block) : bool :=
  (5 <? len (strip (tb_text b))) && is_likely_title (strip (tb_text b))
  && (0 <=? tb_size b)%float.

(** The state of the scan after the blocks whose candidates are [seen]. *)
Definition font_scan_inv (seen : list text_block) (st : float * list str) : Prop :=
  (0 <=? fst st)%float = true
  /\ match snd st with
     | [] => seen = [] /\ fst st = 0%float
     | t :: _ =>
         exists b, t = strip (tb_text b)
                   /\ (tb_size b =? fst st)%float = true
                   /\ first_max tb_size b seen
     end.

(** ** Pages *)

(** A block with lines: a text block; an image block has none. *)
Definition has_lines (b : block) : bool :=
  match block_lines b with
  | Some _ => true
  | None => false
  end.

(** The page without its image blocks. *)
Definition without_images (pg : pdf_page) : pdf_page :=
  match pg with
  | Page (Ok page_dict) =>
      Page (Ok {| pd_blocks := option_map (List.filter has_lines) (pd_blocks page_dict) |})
  | _ => pg
  end.

(** The walk through the page raises: the page cannot be loaded or read,
    has no ["blocks"] entry, or has a line without ["spans"]. *)
Definition page_fails (pg : pdf_page) : bool :=
  match get_text pg with
  | Raise => true
  | Ok page_dict =>
      match pd_blocks page_dict with
      | None => true
      | Some blocks => negb (snd (spans_of_blocks blocks))
      end
  end.

(** * Properties *)

(** ** Lists and strings *)

Lemma drop_while_Forall {A} (P : A -> Prop) p (l : list A) :
  Forall P l -> Forall P (drop_while p l).
Proof.
  induction 1 as [|x l Hx Hl IH]; simpl; [constructor|].
  destruct (p x); [exact IH | constructor; assumption].
Qed.

Lemma take_while_Forall {A} (p : A -> bool) (l : list A) :
  Forall (fun x => p x = true) (take_while p l).
Proof.
  induction l as [|x l IH]; simpl; [constructor|].
  destruct (p x) eqn:E; constructor; assumption.
Qed.

Lemma take_drop_while {A} (p : A -> bool) (l : list A) :
  take_while p l ++ drop_while p l = l.
Proof.
  induction l as [|x l IH]; simpl; [reflexivity|].
  destruct (p x); simpl; [now rewrite IH | reflexivity].
Qed.

Lemma drop_while_head {A} (p : A -> bool) (l : list A) x r :
  drop_while p l = x :: r -> p x = false.
Proof.
  induction l as [|y l IH]; simpl; [discriminate|].
  destruct (p y) eqn:E; [exact IH | intros [= <- <-]; exact E].
Qed.

Lemma drop_while_fix {A} (p : A -> bool) (l : list A) :
  drop_while p (drop_while p l) = drop_while p l.
Proof.
  induction l as [|y l IH]; simpl; [reflexivity|].
  destruct (p y) eqn:E; [exact IH | simpl; now rewrite E].
Qed.

Lemma drop_while_snoc {A} (p : A -> bool) (l : list A) x :
  p x = false -> drop_while p (l ++ [x]) = drop_while p l ++ [x].
Proof.
  intros Hx. induction l as [|y l IH]; simpl; [now rewrite Hx|].
  destruct (p y); [exact IH | reflexivity].
Qed.

Lemma drop_while_length {A} (p : A -> bool) (l : list A) :
  (length (drop_while p l) <= length l)%nat.
Proof.
  induction l as [|y l IH]; simpl; [lia|]. destruct (p y); simpl; lia.
Qed.

Lemma strip_Forall (P : N -> Prop) (s : str) : Forall P s -> Forall P (strip s).
Proof.
  intros Hs. unfold strip, rstrip, lstrip.
  apply Forall_rev, drop_while_Forall, Forall_rev, drop_while_Forall, Hs.
Qed.

Lemma rstrip_keeps_head (c : N) (r : str) :
  is_space c = false -> exists r', rstrip (c :: r) = c :: r'.
Proof.
  intros Hc. unfold rstrip. simpl rev.
  rewrite drop_while_snoc by exact Hc.
  rewrite rev_app_distr. simpl. eauto.
Qed.

Lemma strip_idemp (s : str) : strip (strip s) = strip s.
Proof.
  unfold strip at 1.
  assert (Hl : lstrip (strip s) = strip s).
  { unfold strip. destruct (lstrip s) as [|c r] eqn:E; [reflexivity|].
    apply drop_while_head in E as Hc.
    destruct (rstrip_keeps_head c r Hc) as [r' ->].
    unfold lstrip. simpl. now rewrite Hc. }
  rewrite Hl. unfold strip, rstrip.
  rewrite rev_involutive, drop_while_fix. reflexivity.
Qed.

Lemma strip_length (s : str) : (length (strip s) <= length s)%nat.
Proof.
  unfold strip, rstrip, lstrip. rewrite length_rev.
  etransitivity; [apply drop_while_length|]. rewrite length_rev.
  apply drop_while_length.
Qed.

(** ** Substitution *)

Lemma re_sub_from_Forall (P : N -> Prop) m repl k t :
  Forall P repl -> Forall P t -> Forall P (re_sub_from m repl k t).
Proof.
  intros Hrepl Ht. revert k.
  induction Ht as [|c r Hc Hr IH]; intros k; simpl; [constructor|].
  destruct k as [|k]; [|apply IH].
  destruct (m (c :: r)) as [[|n]|].
  - constructor; [exact Hc | apply IH].
  - apply Forall_app; split; [exact Hrepl | apply IH].
  - constructor; [exact Hc | apply IH].
Qed.

Lemma clean_spaces_only_SP k t :
  Forall space_is_SP (re_sub_from m_spaces [SP] k t).
Proof.
  revert k. induction t as [|c r IH]; intros k; simpl; [constructor|].
  destruct k as [|k]; [|apply IH].
  unfold m_spaces. simpl take_while.
  destruct (is_space c) eqn:Ec; simpl.
  - constructor; [intros _; reflexivity | apply IH].
  - constructor; [intros E; congruence | apply IH].
Qed.

Lemma clean_printable_all k t :
  Forall (fun c => printable c = true) (re_sub_from m_unprintable [] k t).
Proof.
  revert k. induction t as [|c r IH]; intros k; simpl; [constructor|].
  destruct k as [|k]; [|apply IH].
  destruct (printable c) eqn:Ec; simpl; [constructor; [exact Ec | apply IH] | apply IH].
Qed.

Lemma clean_dots_runs k cur t :
  dots_state k cur t -> runs_le 3 cur (re_sub_from m_dots ELLIPSIS k t) = true.
Proof.
  revert k cur. induction t as [|c r IH]; intros k cur Hst; [reflexivity|].
  simpl re_sub_from. destruct k as [|k].
  - unfold m_dots. fold (leading_dots (c :: r)).
    destruct Hst as [Hge Hlt].
    destruct (3 <=? leading_dots (c :: r))%nat eqn:E3.
    + apply Nat.leb_le in E3. specialize (Hge E3). subst cur.
      unfold leading_dots in *. simpl in E3 |- *.
      destruct (is_dot c) eqn:Ec; simpl in E3; [|lia].
      simpl. apply IH. unfold dots_state.
      destruct (length (take_while is_dot r)) as [|n] eqn:En; [lia|].
      unfold leading_dots. rewrite En. split; [reflexivity | lia].
    + apply Nat.leb_gt in E3. specialize (Hlt E3).
      unfold leading_dots in *. simpl in E3, Hlt |- *.
      destruct (is_dot c) eqn:Ec; simpl in *.
      * apply andb_true_iff; split; [apply Nat.leb_le; lia|].
        apply IH. unfold dots_state, leading_dots. split; lia.
      * apply IH. unfold dots_state, leading_dots. split; lia.
  - destruct Hst as [Hk Hcur]. unfold leading_dots in Hk. simpl in Hk.
    destruct (is_dot c) eqn:Ec; simpl in Hk; [|discriminate].
    injection Hk as Hk. apply IH. unfold dots_state, leading_dots.
    destruct k as [|k]; [split; lia | split; [exact Hk | exact Hcur]].
Qed.

Lemma clean_spaces_single k prev t :
  spaces_state k prev t ->
  no_adjacent_spaces prev (re_sub_from m_spaces [SP] k t) = true.
Proof.
  revert k prev. induction t as [|c r IH]; intros k prev Hst; [reflexivity|].
  simpl re_sub_from. unfold spaces_state, leading_spaces in Hst.
  destruct k as [|k].
  - unfold m_spaces. simpl in Hst |- *.
    destruct (is_space c) eqn:Ec; simpl in Hst |- *.
    + destruct prev; [specialize (Hst eq_refl); discriminate|].
      simpl. apply IH. unfold spaces_state, leading_spaces.
      destruct (length (take_while is_space r)); [reflexivity | reflexivity].
    + rewrite Ec. apply IH. unfold spaces_state. discriminate.
  - simpl in Hst. destruct (is_space c) eqn:Ec; simpl in Hst; [|discriminate].
    injection Hst as Hst. apply IH. unfold spaces_state, leading_spaces.
    destruct k; [intros _; exact Hst | exact Hst].
Qed.

Lemma clean_char_iff c : clean_char c = true <-> printable c = true /\ space_is_SP c.
Proof.
  unfold clean_char, space_is_SP.
  rewrite andb_true_iff, orb_true_iff, negb_true_iff, N.eqb_eq.
  split; intros [Hp Hs]; split; try exact Hp.
  - intros E. destruct Hs as [Hs|Hs]; [congruence | exact Hs].
  - destruct (is_space c); [right; now apply Hs | now left].
Qed.

Lemma clean_text_chars (t : str) : Forall (fun c => clean_char c = true) (clean_text t).
Proof.
  assert (Hdot : clean_char DOT = true) by reflexivity.
  unfold clean_text. apply strip_Forall.
  apply re_sub_from_Forall; [repeat constructor; exact Hdot|].
  unfold clean_dots. apply re_sub_from_Forall; [repeat constructor; exact Hdot|].
  unfold clean_printable, re_sub.
  eapply Forall_impl; [|intros c Hc; apply clean_char_iff; exact Hc].
  apply Forall_and; split; [apply clean_printable_all|].
  apply re_sub_from_Forall; [constructor | apply clean_spaces_only_SP].
Qed.

(** C7 (the code at the failing inputs): in ["... ..."] the substitution
    for runs of dots leaves both ellipses as they are, and the one for spaced
    dots, which matches three dots at a time with the white space before
    each, replaces the second ellipsis together with the space before it by
    ["..."]: the returned string is a run of six dots.  The six spaced dots
    of ["Intro . . . . . . 5"] become six consecutive dots in the same way,
    and of the four spaced dots of [". . . ."] all four are returned. *)
Theorem C7_joined_ellipses :
  clean_dots (py "... ...") = py "... ..."
  /\ clean_text (py "... ...") = py "......"
  /\ dot_runs_le 3 (clean_text (py "... ...")) = false
  /\ spaced_runs_le 3 0 (clean_text (py "... ...")) = false
  /\ clean_text (py "Intro . . . . . . 5") = py "Intro...... 5"
  /\ clean_text (py ". . . .") = py "... ."
  /\ spaced_runs_le 3 0 (clean_text (py ". . . .")) = false.
Proof. vm_compute. repeat split. Qed.

(** ** Hierarchy repair *)

Lemma fix_levels_cons c it r :
  fix_levels c (it :: r) =
  {| level := tag (repaired c it); text := text it; page := page it |}
  :: fix_levels (repaired c it) r.
Proof. reflexivity. Qed.

Lemma level_map_range (l : str) : 1 <= default 1 (level_map !! l) <= 6.
Proof.
  unfold level_map. simpl list_to_map.
  repeat (rewrite lookup_insert; case_decide; [simpl; lia|]).
  rewrite lookup_empty. simpl. lia.
Qed.

Lemma ordinal_tag (n : Z) : 1 <= n <= 6 -> level_ordinal (tag n) = Some n.
Proof.
  intros Hn.
  assert (n = 1 \/ n = 2 \/ n = 3 \/ n = 4 \/ n = 5 \/ n = 6) as Hc by lia.
  destruct Hc as [->|[->|[->|[->|[->| ->]]]]]; vm_compute; reflexivity.
Qed.

Lemma repaired_range c it : 1 <= c <= 6 -> 1 <= repaired c it <= 6 /\ repaired c it <= c + 1.
Proof.
  intros Hc. unfold repaired. pose proof (level_map_range (level it)) as Hl.
  destruct (c + 1 <? default 1 (level_map !! level it)) eqn:E.
  - apply Z.ltb_lt in E. lia.
  - apply Z.ltb_ge in E. lia.
Qed.

Lemma repaired_tag c it :
  1 <= c <= 6 ->
  repaired c {| level := tag (repaired c it); text := text it; page := page it |}
  = repaired c it.
Proof.
  intros Hc. destruct (repaired_range c it Hc) as [Hr Hle].
  unfold repaired at 1. simpl level.
  fold (level_ordinal (tag (repaired c it))). rewrite ordinal_tag by exact Hr.
  simpl. destruct (c + 1 <? repaired c it) eqn:E; [apply Z.ltb_lt in E; lia | reflexivity].
Qed.

Lemma fix_levels_idemp c l : 1 <= c <= 6 -> fix_levels c (fix_levels c l) = fix_levels c l.
Proof.
  revert c. induction l as [|it r IH]; intros c Hc; [reflexivity|].
  rewrite !fix_levels_cons. rewrite repaired_tag by exact Hc. simpl text. simpl page.
  f_equal. apply IH. apply (repaired_range c it Hc).
Qed.

Lemma fix_levels_monotone c l :
  1 <= c <= 6 ->
  level_monotone (fix_levels c l) = true
  /\ match fix_levels c l with
     | [] => True
     | it :: _ => exists n, level_ordinal (level it) = Some n /\ 1 <= n <= 6 /\ n <= c + 1
     end.
Proof.
  revert c. induction l as [|it r IH]; intros c Hc; [split; [reflexivity | exact I]|].
  rewrite fix_levels_cons. destruct (repaired_range c it Hc) as [Hr Hle].
  destruct (IH (repaired c it) Hr) as [Hmono Hhead]. split.
  - unfold level_monotone, adjacent in *. simpl tail.
    destruct (fix_levels (repaired c it) r) as [|it' r'] eqn:E; [reflexivity|].
    simpl zip. simpl forallb. rewrite andb_true_iff. split; [|exact Hmono].
    destruct Hhead as (n & Hn & _ & Hn'). unfold step_ok. simpl.
    rewrite ordinal_tag by exact Hr. rewrite Hn. apply Z.leb_le. exact Hn'.
  - exists (repaired c it). simpl. rewrite ordinal_tag by exact Hr. auto.
Qed.

Lemma fix_levels_pages c l : map page (fix_levels c l) = map page l.
Proof.
  revert c. induction l as [|it r IH]; intros c; [reflexivity|].
  rewrite fix_levels_cons. simpl. now rewrite IH.
Qed.

Lemma fix_levels_texts c l : map text (fix_levels c l) = map text l.
Proof.
  revert c. induction l as [|it r IH]; intros c; [reflexivity|].
  rewrite fix_levels_cons. simpl. now rewrite IH.
Qed.

(** ** Stable sorting *)

Section Sorting.
Context {A : Type} (key : A -> Z).

Let lt (a b : A) : bool := key a <? key b.

Lemma insert_by_perm x l : insert_by lt x l ≡ₚ x :: l.
Proof.
  induction l as [|y l IH]; simpl; [reflexivity|].
  destruct (lt y x); [|reflexivity].
  rewrite IH. apply perm_swap.
Qed.

Lemma stable_sort_perm l : stable_sort lt l ≡ₚ l.
Proof.
  induction l as [|x l IH]; simpl; [reflexivity|].
  rewrite insert_by_perm. now rewrite IH.
Qed.

Lemma insert_by_sorted x l :
  Sorted Z.le (map key l) -> Sorted Z.le (map key (insert_by lt x l)).
Proof.
  induction l as [|y l IH]; intros Hs; simpl; [repeat constructor|].
  unfold lt at 1. destruct (key y <? key x) eqn:E.
  - apply Z.ltb_lt in E. inversion Hs as [|? ? Hs' Hhd]; subst.
    simpl. constructor; [apply IH, Hs'|].
    destruct l as [|z l]; simpl; [constructor; lia|].
    unfold lt. destruct (key z <? key x) eqn:E'; simpl; constructor.
    + inversion Hhd; subst. assumption.
    + lia.
  - apply Z.ltb_ge in E. simpl. constructor; [exact Hs | constructor; exact E].
Qed.

Lemma stable_sort_sorted l : Sorted Z.le (map key (stable_sort lt l)).
Proof.
  induction l as [|x l IH]; simpl; [constructor | apply insert_by_sorted, IH].
Qed.

Lemma stable_sort_fixed l : Sorted Z.le (map key l) -> stable_sort lt l = l.
Proof.
  induction l as [|x l IH]; intros Hs; simpl; [reflexivity|].
  inversion Hs as [|? ? Hs' Hhd]; subst. rewrite IH by exact Hs'.
  destruct l as [|y l]; simpl; [reflexivity|].
  inversion Hhd; subst. unfold lt.
  destruct (key y <? key x) eqn:E; [apply Z.ltb_lt in E; lia | reflexivity].
Qed.
End Sorting.

(** ** The normalizer *)

Section Normalizer.
Context `{Unicode}.

Lemma dedup_keys seen l :
  NoDup (map dedup_key (dedup seen l))
  /\ Forall (fun it => dedup_key it ∉ seen) (dedup seen l).
Proof.
  revert seen. induction l as [|it r IH]; intros seen; simpl.
  - split; constructor.
  - fold (dedup_key it). destruct (decide (dedup_key it ∈ seen)) as [Hin|Hout]; [apply IH|].
    destruct (IH ({[dedup_key it]} ∪ seen)) as [Hnd Hfa]. split.
    + simpl. apply NoDup_cons. split; [|exact Hnd].
      intros Hmem. apply list_elem_of_fmap in Hmem as (it' & Heq & Hit').
      rewrite Forall_forall in Hfa. apply (Hfa it' Hit'). rewrite <- Heq. set_solver.
    + constructor; [exact Hout|].
      eapply Forall_impl; [exact Hfa|]. intros it'. simpl. set_solver.
Qed.

Lemma dedup_fixed seen l :
  NoDup (map dedup_key l) -> Forall (fun it => dedup_key it ∉ seen) l ->
  dedup seen l = l.
Proof.
  revert seen. induction l as [|it r IH]; intros seen Hnd Hfa; simpl; [reflexivity|].
  fold (dedup_key it). inversion Hfa as [|? ? Hit Hr]; subst.
  simpl in Hnd. apply NoDup_cons in Hnd as [Hnotin Hnd].
  destruct (decide (dedup_key it ∈ seen)) as [Hin|_]; [contradiction|].
  f_equal. apply IH; [exact Hnd|].
  rewrite Forall_forall in Hr |- *. intros it' Hit'.
  assert (dedup_key it' <> dedup_key it).
  { intros Heq. apply Hnotin. rewrite <- Heq. apply list_elem_of_fmap. eauto. }
  specialize (Hr it' Hit'). set_solver.
Qed.

Lemma fix_levels_keys c l : map dedup_key (fix_levels c l) = map dedup_key l.
Proof.
  revert c. induction l as [|it r IH]; intros c; [reflexivity|].
  rewrite fix_levels_cons. simpl. now rewrite IH.
Qed.

Lemma refine_keys_nodup xs : NoDup (map dedup_key (_refine_outline xs)).
Proof.
  unfold _refine_outline, _fix_hierarchy, sort_by_page.
  rewrite fix_levels_keys.
  assert (Hperm : map dedup_key (stable_sort (fun a b => page a <? page b) (dedup ∅ xs))
                  ≡ₚ map dedup_key (dedup ∅ xs))
    by apply Permutation_map, (stable_sort_perm page).
  rewrite Hperm. apply (dedup_keys ∅ xs).
Qed.

Lemma refine_pages_sorted xs : Sorted Z.le (map page (_refine_outline xs)).
Proof.
  unfold _refine_outline, _fix_hierarchy, sort_by_page.
  rewrite fix_levels_pages. apply (stable_sort_sorted page).
Qed.

(** C2: in the output of [_refine_outline], for all adjacent items the
    level ordinal of the second is at most the level ordinal of the first
    plus one, every level being one of the tags h1..h6; and as the repair
    starts from level 1, the first item is at most h2. *)
Theorem C2_refine_level_monotone (xs : list item) :
  level_monotone (_refine_outline xs) = true
  /\ first_level_le 2 (_refine_outline xs) = true.
Proof.
  unfold _refine_outline, _fix_hierarchy.
  destruct (fix_levels_monotone 1 (sort_by_page (dedup ∅ xs)) ltac:(lia)) as [Hmono Hhead].
  split; [exact Hmono|].
  destruct (fix_levels 1 (sort_by_page (dedup ∅ xs))) as [|it r]; [reflexivity|].
  destruct Hhead as (n & Hn & _ & Hle). simpl. rewrite Hn. apply Z.leb_le. exact Hle.
Qed.

(** C5: the normalizer is idempotent,
    [refine (refine xs) = refine xs] for every raw outline [xs]. *)
Theorem C5_refine_idempotent (xs : list item) :
  _refine_outline (_refine_outline xs) = _refine_outline xs.
Proof.
  unfold _refine_outline at 1.
  rewrite dedup_fixed;
    [|apply refine_keys_nodup | apply Forall_forall; intros; set_solver].
  unfold sort_by_page. rewrite (stable_sort_fixed page) by apply refine_pages_sorted.
  unfold _refine_outline, _fix_hierarchy. apply fix_levels_idemp. lia.
Qed.
End Normalizer.

(** ** The order of binary64 values *)

Lemma SFcompare_trans x y z a b :
  SFcompare x y = Some a -> a <> Gt -> SFcompare y z = Some b -> b <> Gt ->
  exists c, SFcompare x z = Some c /\ c <> Gt /\ (a = Lt \/ b = Lt -> c = Lt).
Proof.
  destruct x as [sx|sx| |sx mx ex], y as [sy|sy| |sy my ey], z as [sz|sz| |sz mz ez];
    simpl; intros Ha Hna Hb Hnb; try discriminate;
    injection Ha as <-; injection Hb as <-; eexists; (split; [reflexivity|]);
    revert Hna Hnb; sf_cases; (split; [try congruence|]); intros [?|?]; try congruence.
Qed.

Lemma SFcompare_swap x y : SFcompare y x = option_map CompOpp (SFcompare x y).
Proof.
  destruct x as [sx|sx| |sx mx ex], y as [sy|sy| |sy my ey]; simpl;
    try reflexivity; sf_cases.
Qed.

Lemma SFcompare_defined x y :
  SFcompare x x <> None -> SFcompare y y <> None -> SFcompare x y <> None.
Proof.
  destruct x as [sx|sx| |sx mx ex], y as [sy|sy| |sy my ey]; simpl; congruence.
Qed.

Lemma ordered_spec x : ordered x = true -> SFcompare (Prim2SF x) (Prim2SF x) <> None.
Proof.
  unfold ordered. rewrite FloatAxioms.eqb_spec. unfold SFeqb.
  destruct (SFcompare (Prim2SF x) (Prim2SF x)); congruence.
Qed.

Lemma float_leb_of_not_ltb x y :
  ordered x = true -> ordered y = true -> (x <? y)%float = false -> (y <=? x)%float = true.
Proof.
  intros Hx Hy. rewrite FloatAxioms.ltb_spec, FloatAxioms.leb_spec. unfold SFltb, SFleb.
  rewrite (SFcompare_swap (Prim2SF x) (Prim2SF y)).
  pose proof (SFcompare_defined _ _ (ordered_spec x Hx) (ordered_spec y Hy)) as Hd.
  destruct (SFcompare (Prim2SF x) (Prim2SF y)) as [[]|]; simpl; congruence.
Qed.

Lemma float_leb_of_ltb x y : (x <? y)%float = true -> (x <=? y)%float = true.
Proof.
  rewrite FloatAxioms.ltb_spec, FloatAxioms.leb_spec. unfold SFltb, SFleb.
  destruct (SFcompare (Prim2SF x) (Prim2SF y)) as [[]|]; congruence.
Qed.

Lemma float_not_ltb_of_leb x y : (x <=? y)%float = true -> (y <? x)%float = false.
Proof.
  rewrite FloatAxioms.ltb_spec, FloatAxioms.leb_spec. unfold SFltb, SFleb.
  rewrite (SFcompare_swap (Prim2SF x) (Prim2SF y)).
  destruct (SFcompare (Prim2SF x) (Prim2SF y)) as [[]|]; simpl; congruence.
Qed.

Lemma float_leb_trans x y z :
  (x <=? y)%float = true -> (y <=? z)%float = true -> (x <=? z)%float = true.
Proof.
  rewrite !FloatAxioms.leb_spec. unfold SFleb. intros Hxy Hyz.
  destruct (SFcompare (Prim2SF x) (Prim2SF y)) as [a|] eqn:Ea; [|discriminate].
  destruct (SFcompare (Prim2SF y) (Prim2SF z)) as [b|] eqn:Eb; [|discriminate].
  destruct (SFcompare_trans _ _ _ a b Ea ltac:(destruct a; congruence)
              Eb ltac:(destruct b; congruence)) as (c & -> & Hc & _).
  destruct c; congruence.
Qed.

(** ** Outlines from native bookmarks *)

(** C1 (counterexample): for the native outline
    [(1,"Intro",1),(3,"Deep Dive",2),(2,"Background",2)] of a two-page
    document the extracted levels are h1, h3, h2, not h1, h2, h2: the outline
    breaks the one-step invariant. *)
Lemma C1_counterexample :
  map level (@extract_outline Ascii.unicode doc_c1) = [py "h1"; py "h3"; py "h2"]
  /\ map level (@extract_outline Ascii.unicode doc_c1) <> [py "h1"; py "h2"; py "h2"]
  /\ level_monotone (@extract_outline Ascii.unicode doc_c1) = false.
Proof. vm_compute. repeat split. discriminate. Qed.

Lemma bookmark_levels (page_count : Z) (toc : list (Z * str * Z)) :
  map level (bookmark_items page_count toc)
  = map (fun e => normalize_level (fst (fst e))) (List.filter kept_entry toc).
Proof.
  induction toc as [|[[lvl ttl] pg] toc IH]; [reflexivity|].
  simpl. unfold kept_entry at 1. simpl.
  destruct (len (clean_text ttl) <? 2) eqn:E.
  - apply Z.ltb_lt in E. destruct (2 <=? len (clean_text ttl)) eqn:E'; [|exact IH].
    apply Z.leb_le in E'. lia.
  - apply Z.ltb_ge in E. destruct (2 <=? len (clean_text ttl)) eqn:E'.
    + simpl. now rewrite IH.
    + apply Z.leb_gt in E'. lia.
Qed.

(** C1 (amended): whatever the metadata and the pages of the document, a
    native outline [(1,"Intro",1),(3,"Deep Dive",2),(2,"Background",2)]
    produces the three items in that order with levels h1, h3, h2: for every
    native outline the bookmark path gives each kept entry its native level
    clamped into 1..6, and applies no hierarchy repair. *)
Theorem C1_bookmark_outline `{Unicode} (meta : result meta_title) (pgs : list pdf_page) :
  map (fun it => (level it, text it))
      (extract_outline {| doc_metadata := meta; get_toc := Ok toc_c1; pages := pgs |})
  = [(py "h1", py "Intro"); (py "h3", py "Deep Dive"); (py "h2", py "Background")]
  /\ forall toc,
       map level (_extract_from_bookmarks
                    {| doc_metadata := meta; get_toc := Ok toc; pages := pgs |})
       = map (fun e => normalize_level (fst (fst e))) (List.filter kept_entry toc).
Proof.
  split; [reflexivity|].
  intros toc. unfold _extract_from_bookmarks. simpl. apply bookmark_levels.
Qed.

(** ** The heading-level classifier *)

Lemma starts_with_app_contains (p q s : str) :
  starts_with (p ++ q) s = true -> contains q s = true.
Proof.
  revert s. induction p as [|a p IH]; intros s; simpl.
  - intros Hq. destruct s; simpl; rewrite Hq; reflexivity.
  - destruct s as [|c s]; [discriminate|].
    intros Hs. apply andb_true_iff in Hs as [_ Hs].
    simpl. rewrite (IH s Hs). apply orb_true_r.
Qed.

Lemma contains_suffix (p q s : str) : contains (p ++ q) s = true -> contains q s = true.
Proof.
  induction s as [|c s IH].
  - simpl. rewrite orb_false_r. apply starts_with_app_contains.
  - simpl. intros Hc. apply orb_true_iff in Hc as [Hc|Hc].
    + apply (starts_with_app_contains p q (c :: s) Hc).
    + rewrite (IH Hc). apply orb_true_r.
Qed.

(** A text with the keyword "subsection" that reaches the keyword rules is
    classified by the rule for "section", which is tested first. *)
Lemma subsection_is_h2 `{Unicode} text font_size flags avg_font_size :
  contains (py "subsection") (lower text) = true ->
  explicit_level text = None ->
  contains (py "chapter") (lower text) = false ->
  contains (py "part") (lower text) = false ->
  detect_heading_level text font_size flags avg_font_size = py "h2".
Proof.
  intros Hsub Hexp Hch Hpa. unfold detect_heading_level, keyword_level.
  rewrite Hexp, Hch, Hpa.
  rewrite (contains_suffix (py "sub") (py "section") _ Hsub). reflexivity.
Qed.

(** The rule ["subsection" -> h3] is never the one that answers. *)
Lemma keyword_level_never_h3 (text_lower : str) : keyword_level text_lower <> Some (py "h3").
Proof.
  unfold keyword_level.
  destruct (contains (py "chapter") text_lower || contains (py "part") text_lower);
    [discriminate|].
  destruct (contains (py "section") text_lower) eqn:Es; [discriminate|].
  destruct (contains (py "subsection") text_lower) eqn:Eb; [|discriminate].
  rewrite (contains_suffix (py "sub") (py "section") _ Eb) in Es. discriminate.
Qed.

Section AsciiFixtures.
Import Ascii.

(** C3 (the code at the failing input): "Subsection overview" contains the
    keyword "subsection", matches none of the earlier rules and contains
    neither "chapter" nor "part"; the classifier returns h2 for it. *)
Theorem C3_subsection_overview :
  contains (py "subsection") (lower (py "Subsection overview")) = true
  /\ explicit_level (py "Subsection overview") = None
  /\ contains (py "chapter") (lower (py "Subsection overview")) = false
  /\ contains (py "part") (lower (py "Subsection overview")) = false
  /\ detect_heading_level (py "Subsection overview") 12 0 12 = py "h2".
Proof. vm_compute. repeat split. Qed.

Lemma size_ratio_nonpositive font_size avg_font_size :
  (avg_font_size <=? 0)%float = true -> size_ratio font_size avg_font_size = 1.0%float.
Proof.
  intros Hle. unfold size_ratio. now rewrite (float_not_ltb_of_leb _ _ Hle).
Qed.

(** C9: the classifier maps "1.1 Overview", "Chapter 3" and "Random text"
    (with sizes 14, 14, 24 against an average of 12) to h2, h1 and h1; and
    for a text that none of the pattern or keyword rules matches, with the
    ratio [r] of the font size to the average (1.0 when the average is not
    positive), it returns h1 when [r >= 1.8], else h2 when [r >= 1.5], else
    h3 when [r >= 1.2], else h4. *)
Theorem C9_classifier :
  (detect_heading_level (py "1.1 Overview") 14 0 12 = py "h2"
   /\ detect_heading_level (py "Chapter 3") 14 0 12 = py "h1"
   /\ detect_heading_level (py "Random text") 24 0 12 = py "h1")
  /\ forall (U : Unicode) text font_size flags avg_font_size,
       @explicit_level U text = None ->
       keyword_level (@lower U text) = None ->
       let r := size_ratio font_size avg_font_size in
       ((avg_font_size <=? 0)%float = true -> r = 1.0%float)
       /\ ((0 <? avg_font_size)%float = true -> r = (font_size / avg_font_size)%float)
       /\ @detect_heading_level U text font_size flags avg_font_size =
          if (1.8 <=? r)%float then py "h1"
          else if (1.5 <=? r)%float then py "h2"
          else if (1.2 <=? r)%float then py "h3"
          else py "h4".
Proof.
  split; [vm_compute; repeat split|].
  intros U text font_size flags avg_font_size Hexp Hkey r. subst r.
  split; [apply size_ratio_nonpositive|]. split.
  - intros Hpos. unfold size_ratio. now rewrite Hpos.
  - unfold detect_heading_level. rewrite Hexp, Hkey. reflexivity.
Qed.

(** The fallback of C9 at the fixture "Random text". *)
Lemma C9_witness :
  detect_heading_level (py "Random text") 24 0 12 =
  if (1.8 <=? size_ratio 24 12)%float then py "h1"
  else if (1.5 <=? size_ratio 24 12)%float then py "h2"
  else if (1.2 <=? size_ratio 24 12)%float then py "h3"
  else py "h4".
Proof.
  apply (proj2 C9_classifier Ascii.unicode (py "Random text") 24%float 0 12%float);
    vm_compute; reflexivity.
Defined.

End AsciiFixtures.

(** ** Cleaning never lengthens *)

Lemma take_while_length {A} (p : A -> bool) (l : list A) :
  (length (take_while p l) + length (drop_while p l) = length l)%nat.
Proof. rewrite <- length_app, take_drop_while. reflexivity. Qed.

Lemma re_sub_from_length m repl k t :
  shrinking m repl -> (length (re_sub_from m repl k t) <= length t - k)%nat.
Proof.
  intros Hm. revert k. induction t as [|c r IH]; intros k; simpl; [lia|].
  destruct k as [|k]; [|apply IH].
  destruct (m (c :: r)) as [[|n]|] eqn:E.
  - specialize (IH 0%nat). simpl. lia.
  - apply Hm in E. simpl in E. rewrite length_app. specialize (IH n). lia.
  - specialize (IH 0%nat). simpl. lia.
Qed.

Lemma m_spaces_shrinking : shrinking m_spaces [SP].
Proof.
  intros u n. unfold m_spaces. pose proof (take_while_length is_space u).
  destruct (length (take_while is_space u)) eqn:E; [discriminate|].
  intros [= <-]. simpl. lia.
Qed.

Lemma m_unprintable_shrinking : shrinking m_unprintable [].
Proof.
  intros [|c u] n; simpl; [discriminate|].
  destruct (printable c); [discriminate|]. intros [= <-]. lia.
Qed.

Lemma m_dots_shrinking : shrinking m_dots ELLIPSIS.
Proof.
  intros u n. unfold m_dots. pose proof (take_while_length is_dot u).
  destruct (3 <=? length (take_while is_dot u))%nat eqn:E; [|discriminate].
  apply Nat.leb_le in E. intros [= <-]. simpl. lia.
Qed.

Lemma m_spaced_dot_length t n r :
  m_spaced_dot t = Some (n, r) -> (1 <= n /\ n + length r = length t)%nat.
Proof.
  unfold m_spaced_dot. pose proof (take_while_length is_space t) as Hl.
  destruct (drop_while is_space t) as [|c r']; [discriminate|].
  destruct (is_dot c); [|discriminate]. intros [= <- <-]. simpl in Hl. lia.
Qed.

Lemma m_spaced_dots_shrinking : shrinking m_spaced_dots ELLIPSIS.
Proof.
  intros u n. unfold m_spaced_dots.
  destruct (m_spaced_dot u) as [[n1 t1]|] eqn:E1; [|discriminate].
  destruct (m_spaced_dot t1) as [[n2 t2]|] eqn:E2; [|discriminate].
  destruct (m_spaced_dot t2) as [[n3 t3]|] eqn:E3; [|discriminate].
  apply m_spaced_dot_length in E1, E2, E3. intros [= <-]. simpl. lia.
Qed.

Lemma clean_text_length (t : str) : (length (clean_text t) <= length (strip t))%nat.
Proof.
  unfold clean_text, clean_dots, clean_printable, clean_spaces, re_sub.
  etransitivity; [apply strip_length|].
  etransitivity; [apply re_sub_from_length, m_spaced_dots_shrinking|]. rewrite Nat.sub_0_r.
  etransitivity; [apply re_sub_from_length, m_dots_shrinking|]. rewrite Nat.sub_0_r.
  etransitivity; [apply re_sub_from_length, m_unprintable_shrinking|]. rewrite Nat.sub_0_r.
  etransitivity; [apply re_sub_from_length, m_spaces_shrinking|]. lia.
Qed.

Lemma clean_text_strip (t : str) : clean_text (strip t) = clean_text t.
Proof. unfold clean_text, clean_dots, clean_printable, clean_spaces. now rewrite strip_idemp. Qed.

(** ** The title strategies *)

Section AsciiTitles.
Import Ascii.

(** C4 (counterexample): the metadata title ["a  b"] is accepted although its
    cleaned form ["a b"] has length 3; and the title of four U+0001
    characters is accepted by the metadata strategy, cleaned to the empty
    string, and the outline strategy then answers. *)
Lemma C4_counterexample :
  (_extract_from_metadata (doc_titled (py "a  b") (Ok []) []) = Some (py "a b")
   /\ len (clean_text (py "a  b")) = 3)
  /\ (_extract_from_metadata (doc_titled [1; 1; 1; 1]%N (Ok [(1, py "Chapter 1: Origins", 1)]) [])
      = Some []
      /\ extract_title (doc_titled [1; 1; 1; 1]%N (Ok [(1, py "Chapter 1: Origins", 1)]) [])
         = py "Chapter 1: Origins").
Proof. vm_compute. repeat split. Qed.

End AsciiTitles.

(** C4 (amended): the metadata strategy accepts the metadata title exactly
    when its length after trimming, before cleaning, exceeds 3, which is the
    case whenever its length after cleaning exceeds 3, and then yields the
    cleaned title; when the cleaned title is not empty, [extract_title]
    returns it whatever the native outline and the pages are (even when
    reading them fails); so for "Annual Report 2023". *)
Theorem C4_metadata_title `{Unicode} (s : str) (toc : result (list (Z * str * Z)))
    (pgs : list pdf_page) :
  (is_Some (_extract_from_metadata (doc_titled s toc pgs)) <-> 3 < len (strip s))
  /\ (3 < len (clean_text s) -> 3 < len (strip s))
  /\ (3 < len (strip s) ->
      _extract_from_metadata (doc_titled s toc pgs) = Some (clean_text s)
      /\ (clean_text s <> [] -> extract_title (doc_titled s toc pgs) = clean_text s))
  /\ extract_title (doc_titled (py "Annual Report 2023") toc pgs) = py "Annual Report 2023".
Proof.
  assert (Hmeta : _extract_from_metadata (doc_titled s toc pgs)
                  = if 3 <? len (strip s) then Some (clean_text s) else None).
  { unfold _extract_from_metadata, doc_titled. simpl.
    rewrite clean_text_strip. destruct (3 <? len (strip s)); reflexivity. }
  split; [|split; [|split]].
  - rewrite Hmeta. destruct (3 <? len (strip s)) eqn:E.
    + apply Z.ltb_lt in E. split; [intros _; exact E | intros _; eexists; reflexivity].
    + apply Z.ltb_ge in E. split; [intros [? ?]; discriminate | lia].
  - pose proof (clean_text_length s). unfold len. lia.
  - intros Hlen. apply Z.ltb_lt in Hlen. rewrite Hmeta, Hlen. split; [reflexivity|].
    intros Hne. unfold extract_title. rewrite Hmeta, Hlen.
    destruct (clean_text s); [contradiction | reflexivity].
  - reflexivity.
Qed.

(** C4 at "Annual Report 2023", the native outline being unreadable. *)
Lemma C4_witness :
  @extract_title Ascii.unicode (doc_titled (py "Annual Report 2023") Raise [])
  = clean_text (py "Annual Report 2023").
Proof.
  refine (proj2 (proj1 (proj2 (proj2
            (@C4_metadata_title Ascii.unicode (py "Annual Report 2023") Raise []))) _) _).
  - vm_compute. reflexivity.
  - vm_compute. discriminate.
Defined.

(** ** First-page scoring *)

Section BestFirst.
Context {A : Type} (score : A -> float).

Lemma stable_sort_desc_head (l : list A) :
  l <> [] ->
  Forall (fun x => ordered (score x) = true) l ->
  exists c r, stable_sort (fun a b => (score b <? score a)%float) l = c :: r
              /\ first_max score c l.
Proof.
  induction l as [|x l IH]; intros Hne Hord; [contradiction|].
  inversion Hord as [|? ? Hx Hl]; subst. simpl stable_sort.
  destruct l as [|y l'].
  - exists x, []. split; [reflexivity|]. exists [], []. repeat split; constructor.
  - destruct (IH ltac:(discriminate) Hl) as (c & r & Hsort & pre & post & Hsplit & Hpre & Hpost).
    rewrite Hsort. simpl insert_by.
    destruct (score x <? score c)%float eqn:E.
    + exists c, (insert_by (fun a b => (score b <? score a)%float) x r).
      split; [reflexivity|]. exists (x :: pre), post.
      rewrite Hsplit. repeat split; [constructor; assumption | assumption].
    + exists x, (c :: r). split; [reflexivity|]. exists [], (y :: l').
      split; [reflexivity|]. split; [constructor|].
      assert (Hc : ordered (score c) = true).
      { rewrite Forall_forall in Hl. apply Hl. rewrite Hsplit.
        apply elem_of_app. right. left. }
      pose proof (float_leb_of_not_ltb _ _ Hx Hc E) as Hcx.
      rewrite Hsplit. apply Forall_app. split; [|constructor; [exact Hcx|]].
      * eapply Forall_impl; [exact Hpre|]. intros z Hz. simpl in Hz.
        eapply float_leb_trans; [apply float_leb_of_ltb, Hz | exact Hcx].
      * eapply Forall_impl; [exact Hpost|]. intros z Hz. simpl in Hz.
        eapply float_leb_trans; [exact Hz | exact Hcx].
Qed.
End BestFirst.

Section FirstPage.
Context `{Unicode}.

Lemma index1_has_y b : has_y b = true -> index1 (tb_bbox b) = Ok (nth 1 (tb_bbox b) 0%float).
Proof.
  unfold has_y. destruct (tb_bbox b) as [|x [|y l]]; try discriminate. reflexivity.
Qed.

Lemma score_of_ok b : ordered (score_of b) = true -> _calculate_title_score b = Ok (score_of b).
Proof.
  unfold score_of. destruct (_calculate_title_score b) as [sc|]; simpl; [reflexivity|].
  intros Hnan. vm_compute in Hnan. discriminate.
Qed.

Lemma text_blocks_unloadable : _get_text_blocks_with_formatting Unloadable = [].
Proof. reflexivity. Qed.

Lemma candidates_of_ok (bs : list text_block) :
  Forall (fun b => has_y b = true /\ ordered (score_of b) = true) (List.filter survives bs) ->
  candidates_of bs = Ok (map candidate_of (List.filter survives bs)).
Proof.
  induction bs as [|b bs IH]; intros Hy; simpl; [reflexivity|].
  simpl in Hy. destruct (survives b) eqn:Es.
  - inversion Hy as [|? ? [Hb Hsc] Hbs]; subst.
    rewrite (index1_has_y b Hb), (score_of_ok b Hsc). simpl.
    rewrite (IH Hbs). reflexivity.
  - apply IH, Hy.
Qed.

(** C6 (amended): when page 1 yields at least one block that survives the
    filters (trimmed length in 5..200, no ignore word, title-likelihood) and
    every surviving block has a bounding box and a score that is a number
    (so computing it did not fail), the first-page strategy returns the
    cleaned text of the surviving block with the greatest score, the
    earliest one among equals, where the score is
    [2 * fontSize + max(0, 800 - y0) / 10], plus 20 if bold, plus 30 if the
    length of the trimmed (not the cleaned) text is in 10..100, plus 15 if
    title case, minus 10 if all upper case and longer than 20. *)
Theorem C6_first_page_best (doc : document) (pg : pdf_page) (rest : list pdf_page) :
  pages doc = pg :: rest ->
  List.filter survives (_get_text_blocks_with_formatting pg) <> [] ->
  Forall (fun b => has_y b = true /\ ordered (score_of b) = true)
         (List.filter survives (_get_text_blocks_with_formatting pg)) ->
  exists b,
    _extract_from_first_page doc = Some (clean_text (tb_text b))
    /\ first_max score_of b (List.filter survives (_get_text_blocks_with_formatting pg)).
Proof.
  intros Hpages Hne Hall.
  assert (Hload : load pg = Ok pg) by (destruct pg; [reflexivity | contradiction]).
  set (bs := List.filter survives (_get_text_blocks_with_formatting pg)) in *.
  pose proof Hall as Hboth. apply Forall_and in Hall as [Hy Hord].
  assert (Hcs : map candidate_of bs <> []) by (destruct bs; [contradiction | discriminate]).
  destruct (stable_sort_desc_head c_score (map candidate_of bs) Hcs) as
    (c & r & Hsort & pre & post & Hsplit & Hpre & Hpost).
  { apply Forall_map. exact Hord. }
  apply map_eq_app in Hsplit as (pre' & tl & Hbs & Hpre' & Htl).
  apply map_eq_cons in Htl as (b & post' & Htl & Hb & Hpost'). subst tl.
  exists b. split.
  - unfold _extract_from_first_page. rewrite Hpages, Hload. simpl bind.
    rewrite candidates_of_ok by exact Hboth. fold bs. simpl.
    unfold sort_by_score. rewrite Hsort. simpl.
    rewrite <- Hb. simpl. now rewrite clean_text_strip.
  - exists pre', post'. split; [exact Hbs|]. subst pre post c. split.
    + apply Forall_map in Hpre. exact Hpre.
    + apply Forall_map in Hpost. exact Hpost.
Qed.
End FirstPage.

Section AsciiFirstPage.
Import Ascii.

(** C6 (counterexample): on a first page with the spans "Ab  cd  ef" (size 10)
    and "Abcdefgh" (size 12), both at the top and both surviving the filters,
    the score with the length of the cleaned text is 100 for the first and
    119 for the second, yet the strategy returns the first: its trimmed
    length 10 earns it the length bonus, its cleaned length 8 would not.
    Besides, a surviving span without a bounding box makes the strategy
    return nothing. *)
Lemma C6_counterexample :
  (map tb_text (List.filter survives (flat_map _get_text_blocks_with_formatting (pages doc_c6)))
   = [py "Ab  cd  ef"; py "Abcdefgh"]
   /\ spec_title_score (py "Ab  cd  ef") 10 0 0 = 100%float
   /\ spec_title_score (py "Abcdefgh") 12 0 0 = 119%float
   /\ (spec_title_score (py "Ab  cd  ef") 10 0 0 <? spec_title_score (py "Abcdefgh") 12 0 0)%float
      = true
   /\ _extract_from_first_page doc_c6 = Some (py "Ab cd ef"))
  /\ (map tb_text
        (List.filter survives (flat_map _get_text_blocks_with_formatting (pages doc_c6_nobox)))
      = [py "Quarterly Results"]
      /\ _extract_from_first_page doc_c6_nobox = None).
Proof. vm_compute. repeat split. Qed.

(** C6 at the first page of [doc_c6]. *)
Lemma C6_witness :
  exists b,
    _extract_from_first_page doc_c6 = Some (clean_text (tb_text b))
    /\ first_max score_of b
         (List.filter survives
            (_get_text_blocks_with_formatting
               (page_of [ span_of "Ab  cd  ef" 10 0 0; span_of "Abcdefgh" 12 0 0 ]))).
Proof.
  apply (C6_first_page_best doc_c6 _ []).
  - reflexivity.
  - vm_compute. discriminate.
  - vm_compute. repeat constructor.
Defined.

End AsciiFirstPage.

(** ** Faults stay where they happen *)

Section Faults.
Context `{Unicode}.

Lemma find_headings_fault pg n : page_text_spans pg = Raise -> _find_headings_on_page pg n = [].
Proof. intros Hf. unfold _find_headings_on_page. now rewrite Hf. Qed.

Lemma headings_from_sound n avg (text_spans : list text_span) :
  existsb (analysis_fails avg) text_spans = false ->
  headings_from n avg text_spans = headings_among n avg text_spans.
Proof.
  induction text_spans as [|sp r IH]; [reflexivity|].
  simpl. unfold analysis_fails at 1.
  destruct (_is_likely_heading (ts_text sp) (ts_size sp) (ts_flags sp) avg) as [[|]|];
    simpl; intros Hr; [now rewrite (IH Hr) | exact (IH Hr) | discriminate].
Qed.

Lemma headings_from_fault n avg (before : list text_span) sp after :
  existsb (analysis_fails avg) before = false ->
  analysis_fails avg sp = true ->
  headings_from n avg (before ++ sp :: after) = headings_among n avg before.
Proof.
  intros Hb Hsp. induction before as [|s r IH].
  - simpl. unfold analysis_fails in Hsp.
    destruct (_is_likely_heading (ts_text sp) (ts_size sp) (ts_flags sp) avg); [discriminate|].
    reflexivity.
  - simpl in Hb |- *. unfold analysis_fails in Hb at 1.
    destruct (_is_likely_heading (ts_text s) (ts_size s) (ts_flags s) avg) as [[|]|];
      simpl in Hb |- *; [now rewrite (IH Hb) | exact (IH Hb) | discriminate].
Qed.

Lemma headings_of_pages_loaded k (pgs : list pdf_page) :
  forallb loaded pgs = true ->
  headings_of_pages k pgs
  = Ok (concat (imap (fun i pg => _find_headings_on_page pg (k + Z.of_nat i + 1)) pgs)).
Proof.
  revert k. induction pgs as [|pg r IH]; intros k Hl; [reflexivity|].
  simpl in Hl. apply andb_true_iff in Hl as [Hpg Hr].
  destruct pg as [t|]; [|discriminate]. simpl.
  rewrite (IH (k + 1) Hr). simpl. rewrite Z.add_0_r. do 3 f_equal.
  apply imap_ext. intros i x _. simpl. f_equal. lia.
Qed.

Lemma headings_of_pages_unloadable k (pgs : list pdf_page) :
  forallb loaded pgs = false -> headings_of_pages k pgs = Raise.
Proof.
  revert k. induction pgs as [|pg r IH]; intros k Hl; [discriminate|].
  simpl in Hl. destruct pg as [t|]; [|reflexivity]. simpl in Hl |- *.
  now rewrite (IH (k + 1) Hl).
Qed.

Lemma content_outline_closed (doc : document) :
  _extract_from_content doc
  = if forallb loaded (pages doc)
    then _refine_outline
           (concat (imap (fun i pg => _find_headings_on_page pg (Z.of_nat i + 1)) (pages doc)))
    else [].
Proof.
  unfold _extract_from_content. destruct (forallb loaded (pages doc)) eqn:E.
  - rewrite (headings_of_pages_loaded 0 _ E). reflexivity.
  - rewrite (headings_of_pages_unloadable 0 _ E). reflexivity.
Qed.

Lemma content_outline_fault doc pre pg post :
  loaded pg = true -> page_text_spans pg = Raise ->
  _extract_from_content (with_pages doc (pre ++ pg :: post))
  = _extract_from_content (with_pages doc (pre ++ blank_page :: post)).
Proof.
  intros Hl Hf. rewrite !content_outline_closed. unfold with_pages. simpl pages.
  rewrite !forallb_app. cbn [forallb]. change (loaded blank_page) with true.
  rewrite Hl. cbn [andb].
  destruct (forallb loaded pre && forallb loaded post); [|reflexivity].
  rewrite !imap_app. simpl. now rewrite (find_headings_fault pg _ Hf).
Qed.

Lemma text_spans_of_blank ss : forallb blank_span ss = true -> text_spans_of ss = Ok [].
Proof.
  induction ss as [|sp ss IH]; simpl; [reflexivity|].
  intros Hb. apply andb_true_iff in Hb as [Hsp Hss]. unfold blank_span in Hsp.
  destruct (strip (default [] (span_text sp))); [apply IH, Hss | discriminate].
Qed.

Lemma find_headings_blank pg n : no_usable_spans pg = true -> _find_headings_on_page pg n = [].
Proof.
  unfold no_usable_spans, _find_headings_on_page, page_text_spans.
  destruct (get_text pg) as [pd|]; [|reflexivity]. simpl.
  destruct (spans_of_blocks (blocks_of pd)) as [ss ok]. simpl. intros Hb.
  rewrite (text_spans_of_blank ss Hb). simpl. destruct ok; reflexivity.
Qed.

Lemma text_blocks_blank pg : no_usable_spans pg = true -> _get_text_blocks_with_formatting pg = [].
Proof.
  unfold no_usable_spans, _get_text_blocks_with_formatting.
  destruct (get_text pg) as [pd|]; [|reflexivity].
  induction (fst (spans_of_blocks (blocks_of pd))) as [|sp ss IH]; simpl; [reflexivity|].
  intros Hb. apply andb_true_iff in Hb as [Hsp Hss]. rewrite (IH Hss).
  unfold block_of_span, blank_span in *.
  destruct (strip (default [] (span_text sp))); [reflexivity | discriminate].
Qed.

Lemma headings_of_pages_blank k (pgs : list pdf_page) :
  Forall (fun pg => no_usable_spans pg = true) pgs ->
  headings_of_pages k pgs = Raise \/ headings_of_pages k pgs = Ok [].
Proof.
  intros Hall. revert k. induction Hall as [|pg r Hpg _ IH]; intros k; [now right|].
  simpl. destruct pg as [t|]; [|now left]. simpl.
  rewrite (find_headings_blank _ _ Hpg).
  destruct (IH (k + 1)) as [-> | ->]; [now left | now right].
Qed.

Lemma blocks_of_pages_blank (pgs : list pdf_page) :
  Forall (fun pg => no_usable_spans pg = true) pgs ->
  blocks_of_pages pgs = Raise \/ blocks_of_pages pgs = Ok [].
Proof.
  intros Hall. induction Hall as [|pg r Hpg _ IH]; [now right|].
  simpl. destruct pg as [t|]; [|now left]. simpl.
  rewrite (text_blocks_blank _ Hpg).
  destruct IH as [-> | ->]; [now left | now right].
Qed.

Lemma content_outline_blank doc :
  Forall (fun pg => no_usable_spans pg = true) (pages doc) -> _extract_from_content doc = [].
Proof.
  intros Hall. unfold _extract_from_content.
  destruct (headings_of_pages_blank 0 _ Hall) as [-> | ->]; reflexivity.
Qed.

Lemma blocks_of_pages_unloadable (pgs : list pdf_page) :
  forallb loaded pgs = false -> blocks_of_pages pgs = Raise.
Proof.
  induction pgs as [|pg r IH]; intros Hl; [discriminate|].
  simpl in Hl. destruct pg as [t|]; [|reflexivity]. simpl in Hl |- *.
  now rewrite (IH Hl).
Qed.

Lemma blocks_of_pages_loaded (pgs : list pdf_page) :
  forallb loaded pgs = true ->
  blocks_of_pages pgs = Ok (flat_map _get_text_blocks_with_formatting pgs).
Proof.
  induction pgs as [|pg r IH]; intros Hl; [reflexivity|].
  simpl in Hl. apply andb_true_iff in Hl as [Hpg Hr].
  destruct pg as [t|]; [|discriminate]. simpl. now rewrite (IH Hr).
Qed.

Lemma extract_title_first_answer (doc : document) :
  extract_title doc
  = first_answer [ _extract_from_metadata doc; _extract_from_outline doc;
                   _extract_from_first_page doc; _extract_by_font_size doc ].
Proof.
  unfold extract_title.
  destruct (_extract_from_metadata doc) as [[|]|], (_extract_from_outline doc) as [[|]|],
    (_extract_from_first_page doc) as [[|]|], (_extract_by_font_size doc) as [[|]|];
    reflexivity.
Qed.
End Faults.

Section Containment.
Context `{Unicode}.

(** C8 (amended): a fault never leaves the core, and it is contained as
    follows.
    - A page that loads and whose spans cannot be read (reading raises, a
      line has no spans, a bounding box is too short) yields no heading, and
      the content outline is the one of the document with a blank page in
      its place: the items of the other pages are kept.
    - A page where the analysis of a span raises yields the headings found
      among the spans before that span, and all of them when no analysis
      raises.
    - When every page loads, the content outline is made of what each page
      yields by itself; when a page cannot be loaded, it is empty.
    - The title is the first answer, in the order metadata, native outline,
      first page, largest font, that is a text and not empty; a strategy
      that fails answers nothing: so for unreadable metadata (or a title that
      is None), for an unreadable native outline (then also the outline comes
      from the content), for a first page that cannot be loaded or scored,
      and for a page among the first three that cannot be loaded.
    - A document without metadata title, without native outline and without
      usable spans yields exactly the empty title and the empty outline, and
      so does a document that cannot be opened. *)
Theorem C8_faults_are_contained :
  (forall doc pre pg post,
     loaded pg = true ->
     page_text_spans pg = Raise ->
     _find_headings_on_page pg (len pre + 1) = []
     /\ _extract_from_content (with_pages doc (pre ++ pg :: post))
        = _extract_from_content (with_pages doc (pre ++ blank_page :: post)))
  /\ (forall pg n text_spans,
        page_text_spans pg = Ok text_spans ->
        let avg := _calculate_average_font_size text_spans in
        (existsb (analysis_fails avg) text_spans = false ->
         _find_headings_on_page pg n = headings_among n avg text_spans)
        /\ (forall before sp after,
              text_spans = before ++ sp :: after ->
              existsb (analysis_fails avg) before = false ->
              analysis_fails avg sp = true ->
              _find_headings_on_page pg n = headings_among n avg before))
  /\ (forall doc,
        _extract_from_content doc
        = if forallb loaded (pages doc)
          then _refine_outline
                 (concat (imap (fun i pg => _find_headings_on_page pg (Z.of_nat i + 1))
                               (pages doc)))
          else [])
  /\ (forall doc,
        extract_title doc
        = first_answer [ _extract_from_metadata doc; _extract_from_outline doc;
                         _extract_from_first_page doc; _extract_by_font_size doc ])
  /\ (forall doc,
        doc_metadata doc = Raise \/ doc_metadata doc = Ok TitleNone ->
        _extract_from_metadata doc = None
        /\ extract_title doc
           = first_answer [ _extract_from_outline doc; _extract_from_first_page doc;
                            _extract_by_font_size doc ])
  /\ (forall doc,
        get_toc doc = Raise ->
        _extract_from_outline doc = None
        /\ extract_title doc
           = first_answer [ _extract_from_metadata doc; _extract_from_first_page doc;
                            _extract_by_font_size doc ]
        /\ extract_outline doc = _extract_from_content doc)
  /\ (forall doc pg rest,
        pages doc = pg :: rest ->
        loaded pg = false \/ candidates_of (_get_text_blocks_with_formatting pg) = Raise ->
        _extract_from_first_page doc = None
        /\ extract_title doc
           = first_answer [ _extract_from_metadata doc; _extract_from_outline doc;
                            _extract_by_font_size doc ])
  /\ (forall doc,
        forallb loaded (firstn 3 (pages doc)) = false ->
        _extract_by_font_size doc = None
        /\ extract_title doc
           = first_answer [ _extract_from_metadata doc; _extract_from_outline doc;
                            _extract_from_first_page doc ])
  /\ (forall doc,
        no_metadata_title doc = true ->
        no_native_outline doc = true ->
        Forall (fun pg => no_usable_spans pg = true) (pages doc) ->
        process_pdf (Ok doc) = empty_extraction)
  /\ process_pdf Raise = empty_extraction.
Proof.
  split; [|split; [|split; [|split; [|split; [|split; [|split; [|split; [|split]]]]]]]].
  - intros doc pre pg post Hl Hf. split; [apply find_headings_fault, Hf|].
    apply content_outline_fault; assumption.
  - intros pg n text_spans Hs avg. unfold _find_headings_on_page. rewrite Hs. simpl.
    unfold headings_of. fold avg. split.
    + apply headings_from_sound.
    + intros before sp after -> Hb Hsp. now apply headings_from_fault.
  - apply content_outline_closed.
  - apply extract_title_first_answer.
  - intros doc Hm.
    assert (Hnone : _extract_from_metadata doc = None).
    { unfold _extract_from_metadata. destruct Hm as [-> | ->]; reflexivity. }
    split; [exact Hnone|]. rewrite extract_title_first_answer, Hnone. reflexivity.
  - intros doc Ht.
    assert (Hnone : _extract_from_outline doc = None).
    { unfold _extract_from_outline. rewrite Ht. reflexivity. }
    split; [exact Hnone|]. split.
    + rewrite extract_title_first_answer, Hnone.
      destruct (_extract_from_metadata doc) as [[|]|]; reflexivity.
    + unfold extract_outline, _extract_from_bookmarks. rewrite Ht. reflexivity.
  - intros doc pg rest Hp Hc.
    assert (Hnone : _extract_from_first_page doc = None).
    { unfold _extract_from_first_page. rewrite Hp.
      destruct pg as [t|]; [|reflexivity]. simpl.
      destruct Hc as [Hc | Hc]; [discriminate | now rewrite Hc]. }
    split; [exact Hnone|]. rewrite extract_title_first_answer, Hnone.
    destruct (_extract_from_metadata doc) as [[|]|];
      destruct (_extract_from_outline doc) as [[|]|]; reflexivity.
  - intros doc Hl.
    assert (Hnone : _extract_by_font_size doc = None).
    { unfold _extract_by_font_size. now rewrite (blocks_of_pages_unloadable _ Hl). }
    split; [exact Hnone|]. rewrite extract_title_first_answer, Hnone.
    destruct (_extract_from_metadata doc) as [[|]|];
      destruct (_extract_from_outline doc) as [[|]|];
      destruct (_extract_from_first_page doc) as [[|]|]; reflexivity.
  - intros doc Hm Ht Hp. unfold process_pdf. simpl.
    destruct (page_count doc =? 0); [reflexivity|]. simpl. unfold empty_extraction.
    assert (Hmeta : first_answer [_extract_from_metadata doc] = []).
    { unfold _extract_from_metadata, no_metadata_title in *.
      destruct (doc_metadata doc) as [[| s |]|]; try reflexivity. simpl.
      destruct (strip s); [reflexivity | discriminate]. }
    assert (Htoc : get_toc doc = Ok [] \/ get_toc doc = Raise).
    { unfold no_native_outline in Ht.
      destruct (get_toc doc) as [[|]|]; [now left | discriminate | now right]. }
    assert (Hfirst : _extract_from_first_page doc = None).
    { unfold _extract_from_first_page. destruct Hp as [|pg pgs Hpg _]; [reflexivity|].
      destruct pg as [t|]; [|reflexivity]. simpl.
      rewrite (text_blocks_blank _ Hpg). reflexivity. }
    assert (Hfont : _extract_by_font_size doc = None).
    { unfold _extract_by_font_size.
      assert (Hp3 : Forall (fun pg => no_usable_spans pg = true) (firstn 3 (pages doc)))
        by (apply Forall_take, Hp).
      destruct (blocks_of_pages_blank _ Hp3) as [-> | ->]; reflexivity. }
    f_equal.
    + rewrite extract_title_first_answer, Hfirst, Hfont.
      assert (Hout : _extract_from_outline doc = None)
        by (unfold _extract_from_outline; destruct Htoc as [-> | ->]; reflexivity).
      rewrite Hout. destruct (_extract_from_metadata doc) as [[|]|];
        simpl in *; congruence.
    + unfold extract_outline, _extract_from_bookmarks.
      destruct Htoc as [-> | ->]; simpl; apply content_outline_blank, Hp.
  - reflexivity.
Qed.
End Containment.

Section AsciiFaults.
Import Ascii.

(** C8 (counterexample): on a page whose second span has flags that are no
    integer, between the headings "1. Scope" and "2. Method", the analysis of
    the second span raises and the page yields the first heading: it does
    not contribute zero items, and the heading after the fault is lost.
    And in the document [doc_c8_unloadable], whose second page cannot be
    loaded, the outline is empty although pages 1 and 3 have a heading each:
    the items of the other pages are not kept. *)
Lemma C8_counterexample :
  (map ts_text (catch (page_text_spans page_c8_flags) [])
   = [py "1. Scope"; py "plain body text"; py "2. Method"]
   /\ map (analysis_fails
             (_calculate_average_font_size (catch (page_text_spans page_c8_flags) [])))
          (catch (page_text_spans page_c8_flags) [])
      = [false; true; false]
   /\ map text (_find_headings_on_page page_c8_flags 1) = [py "1. Scope"]
   /\ _find_headings_on_page page_c8_flags 1 <> [])
  /\ (map text (_find_headings_on_page (page_of [ span_of "1. Scope" 18 40 0 ]) 1)
      = [py "1. Scope"]
      /\ map text (_find_headings_on_page (page_of [ span_of "2. Method" 18 40 0 ]) 3)
         = [py "2. Method"]
      /\ extract_outline doc_c8_unloadable = []
      /\ outline (process_pdf (Ok doc_c8_unloadable)) = []).
Proof. vm_compute. repeat split. discriminate. Qed.

(** C8 at a document whose metadata, native outline and second page are
    unreadable: the headings of pages 1 and 3 are kept; at a page with a
    span whose analysis raises; and at a document whose metadata cannot be
    read and whose native outline gives the title. *)
Lemma C8_witness :
  (_find_headings_on_page unreadable_page 2 = []
   /\ _extract_from_content doc_c8
      = _extract_from_content
          (with_pages doc_c8 [ page_of [ span_of "1. Scope" 18 40 0 ]; blank_page;
                               page_of [ span_of "2. Method" 18 40 0 ] ]))
  /\ map text (extract_outline doc_c8) = [py "1. Scope"; py "2. Method"]
  /\ (_extract_from_metadata doc_c8_toc_title = None
      /\ extract_title doc_c8_toc_title
         = first_answer [ _extract_from_outline doc_c8_toc_title;
                          _extract_from_first_page doc_c8_toc_title;
                          _extract_by_font_size doc_c8_toc_title ])
  /\ extract_title doc_c8_toc_title = py "Chapter 1: Origins"
  /\ process_pdf (Ok (with_pages doc_c8 [blank_page; unreadable_page]))
     = empty_extraction.
Proof.
  split; [|split; [|split; [|split]]].
  - apply (proj1 C8_faults_are_contained doc_c8 [ page_of [ span_of "1. Scope" 18 40 0 ] ]
             unreadable_page [ page_of [ span_of "2. Method" 18 40 0 ] ]);
      reflexivity.
  - vm_compute. reflexivity.
  - apply (proj1 (proj2 (proj2 (proj2 (proj2 C8_faults_are_contained)))) doc_c8_toc_title).
    left. reflexivity.
  - vm_compute. reflexivity.
  - apply (proj1 (proj2 (proj2 (proj2 (proj2 (proj2 (proj2 (proj2 (proj2
             C8_faults_are_contained))))))))).
    + reflexivity.
    + reflexivity.
    + vm_compute. repeat constructor.
Defined.

End AsciiFaults.

(** ** Sanitized results are valid *)

Lemma strip_head (s : str) c r : strip s = c :: r -> is_space c = false.
Proof.
  unfold strip. destruct (lstrip s) as [|c' r'] eqn:E; [discriminate|].
  apply drop_while_head in E as Hc'.
  destruct (rstrip_keeps_head c' r' Hc') as [r'' ->]. intros [= <- _]. exact Hc'.
Qed.

Lemma strip_cons_nonempty c (r : str) : is_space c = false -> strip (c :: r) <> [].
Proof.
  intros Hc. unfold strip, lstrip. simpl. rewrite Hc.
  destruct (rstrip_keeps_head c r Hc) as [r' ->]. discriminate.
Qed.

Lemma strip_take_nonempty n (s : str) : take n (strip s) <> [] -> strip (take n (strip s)) <> [].
Proof.
  destruct (strip s) as [|c r] eqn:E; [destruct n; contradiction|].
  apply strip_head in E. destruct n as [|n]; [contradiction|].
  intros _. simpl. apply strip_cons_nonempty, E.
Qed.

Module JSONFacts.
Import JSONValidator.

Lemma dict_get_here k v (d : list (list N * pyval)) : dict_get ((k, v) :: d) k = Some v.
Proof. simpl. destruct (decide (k = k)); congruence. Qed.

Lemma dict_get_next k k' v (d : list (list N * pyval)) :
  k' <> k -> dict_get ((k', v) :: d) k = dict_get d k.
Proof. intros Hne. simpl. destruct (decide (k' = k)); congruence. Qed.

Lemma h1_valid : py "h1" ∈ valid_levels.
Proof. unfold valid_levels. apply elem_of_list_to_set. left. Qed.

Lemma item_ok_valid it : item_ok it -> _validate_outline_item it = true.
Proof.
  intros (l & t & pg & n & -> & Hl & Ht & Hlen & Hpg & Hn).
  unfold _validate_outline_item.
  rewrite dict_get_here.
  rewrite dict_get_next by discriminate. rewrite dict_get_here.
  rewrite !dict_get_next by discriminate. rewrite dict_get_here.
  destruct (decide (l ∈ valid_levels)); [|contradiction].
  destruct (len (strip t) =? 0) eqn:E0.
  { apply Z.eqb_eq in E0. unfold len in E0. destruct (strip t); [contradiction | discriminate]. }
  destruct (1000 <? len t) eqn:E1; [apply Z.ltb_lt in E1; lia|].
  rewrite Hpg. apply negb_true_iff, Z.ltb_ge. exact Hn.
Qed.

Section Sanitized.
Variable str_of : pyval -> str.

Lemma sanitize_item_ok it : Forall item_ok (sanitize_item str_of it).
Proof.
  destruct it as [| | | | | |d]; try constructor. unfold sanitize_item.
  set (l := match default (PStr (py "h1")) (dict_get d (py "level")) with
            | PStr l => if decide (l ∈ valid_levels) then l else py "h1"
            | _ => py "h1"
            end).
  set (t0 := to_str str_of (default (PStr []) (dict_get d (py "text")))).
  set (pg0 := default (PInt 1) (dict_get d (py "page"))).
  set (pg := match as_int pg0 with
             | Some n => if n <? 1 then PInt 1 else pg0
             | None => PInt 1
             end).
  destruct (take 1000 (strip t0)) as [|c r] eqn:Et; [constructor|].
  constructor; [|constructor].
  assert (Hl : l ∈ valid_levels).
  { subst l. destruct (default (PStr (py "h1")) (dict_get d (py "level")));
      try apply h1_valid. destruct (decide (s ∈ valid_levels)); [assumption | apply h1_valid]. }
  assert (Hpg : exists n, as_int pg = Some n /\ 1 <= n).
  { subst pg. destruct (as_int pg0) as [n|] eqn:En; [|exists 1; split; [reflexivity | lia]].
    destruct (n <? 1) eqn:E1; [exists 1; split; [reflexivity | lia]|].
    apply Z.ltb_ge in E1. exists n. split; assumption. }
  destruct Hpg as (n & Hn & Hn1).
  exists l, (c :: r), pg, n. split; [reflexivity|]. split; [exact Hl|].
  split; [|split; [|split; assumption]].
  - rewrite <- Et. apply strip_take_nonempty. rewrite Et. discriminate.
  - rewrite <- Et. unfold len. rewrite length_take. lia.
Qed.

(** C10: for every input dictionary, the sanitized data is a dictionary with
    a title of at most 500 characters and an outline whose every item has a
    level among h1..h6, a text that is not empty after trimming and has at
    most 1000 characters, and an integer page of at least 1; [validate]
    accepts it. *)
Theorem C10_sanitized_is_valid (data : list (list N * pyval)) :
  validate (sanitize_data str_of data) = true
  /\ exists t items,
       sanitize_data str_of data = PDict [(py "title", PStr t); (py "outline", PList items)]
       /\ len t <= 500
       /\ Forall item_ok items.
Proof.
  unfold sanitize_data.
  set (t := take 500 (strip (to_str str_of (default (PStr []) (dict_get data (py "title")))))).
  set (items := flat_map (sanitize_item str_of)
                  match default (PList []) (dict_get data (py "outline")) with
                  | PList l => l
                  | _ => []
                  end).
  assert (Ht : len t <= 500) by (subst t; unfold len; rewrite length_take; lia).
  assert (Hitems : Forall item_ok items).
  { subst items. generalize (match default (PList []) (dict_get data (py "outline")) with
                             | PList l => l
                             | _ => []
                             end).
    intros l. induction l as [|it l IH]; simpl; [constructor|].
    apply Forall_app. split; [apply sanitize_item_ok | exact IH]. }
  split; [|exists t, items; auto].
  unfold validate. rewrite dict_get_here.
  rewrite dict_get_next by discriminate. rewrite dict_get_here.
  apply andb_true_iff. split.
  - simpl. apply negb_true_iff, Z.ltb_ge. exact Ht.
  - simpl. apply forallb_forall. intros it Hit. apply item_ok_valid.
    rewrite Forall_forall in Hitems. apply Hitems. apply list_elem_of_In. exact Hit.
Qed.
End Sanitized.
End JSONFacts.

(** * Further properties of the program *)

(** ** Levels and page numbers *)

Lemma normalize_level_tag (n : Z) : normalize_level n = tag (Z.max 1 (Z.min 6 n)).
Proof.
  unfold normalize_level.
  assert (Hc : Z.max 1 (Z.min 6 n) = 1 \/ Z.max 1 (Z.min 6 n) = 2 \/ Z.max 1 (Z.min 6 n) = 3
               \/ Z.max 1 (Z.min 6 n) = 4 \/ Z.max 1 (Z.min 6 n) = 5
               \/ Z.max 1 (Z.min 6 n) = 6) by lia.
  destruct Hc as [-> |[-> |[-> |[-> |[-> | ->]]]]]; reflexivity.
Qed.

(** X1: for every integer, the tag [normalize_level] builds is one of
    h1..h6, and its ordinal in the table of [_fix_hierarchy] is the integer
    clamped into 1..6. *)
Theorem X1_normalize_level_ordinal (n : Z) :
  level_ordinal (normalize_level n) = Some (Z.max 1 (Z.min 6 n))
  /\ normalize_level n ∈ JSONValidator.valid_levels.
Proof.
  rewrite normalize_level_tag.
  assert (Hc : Z.max 1 (Z.min 6 n) = 1 \/ Z.max 1 (Z.min 6 n) = 2 \/ Z.max 1 (Z.min 6 n) = 3
               \/ Z.max 1 (Z.min 6 n) = 4 \/ Z.max 1 (Z.min 6 n) = 5
               \/ Z.max 1 (Z.min 6 n) = 6) by lia.
  split; [apply ordinal_tag; lia|].
  unfold JSONValidator.valid_levels. apply elem_of_list_to_set.
  destruct Hc as [-> |[-> |[-> |[-> |[-> | ->]]]]]; vm_compute;
    repeat (first [left | right]).
Qed.

(** X2: [validate_page_number] returns a page of at least 1; it returns the
    page itself when that lies in [1, max_pages], at most [max_pages] when
    [max_pages] is at least 1, and 1 (more than [max_pages]) otherwise;
    clamping twice changes nothing. *)
Theorem X2_validate_page_number (page max_pages : Z) :
  1 <= validate_page_number page max_pages
  /\ (1 <= max_pages -> validate_page_number page max_pages <= max_pages)
  /\ (max_pages < 1 -> validate_page_number page max_pages = 1)
  /\ (1 <= page <= max_pages -> validate_page_number page max_pages = page)
  /\ validate_page_number (validate_page_number page max_pages) max_pages
     = validate_page_number page max_pages.
Proof. unfold validate_page_number. repeat split; lia. Qed.

(** X2 at page 7 of 5 pages, and at page 3. *)
Lemma X2_witness :
  validate_page_number 7 5 <= 5 /\ validate_page_number 3 5 = 3
  /\ validate_page_number 7 0 = 1.
Proof.
  split; [|split].
  - apply (proj1 (proj2 (X2_validate_page_number 7 5))). lia.
  - apply (proj1 (proj2 (proj2 (proj2 (X2_validate_page_number 3 5))))). lia.
  - apply (proj1 (proj2 (proj2 (X2_validate_page_number 7 0)))). lia.
Defined.

(** ** Sorting by any total preorder *)

Section OrderedSort.
Context {A : Type} (lt : A -> A -> bool) (le : A -> A -> Prop).
Hypothesis le_trans : forall x y z, le x y -> le y z -> le x z.
Hypothesis lt_false : forall x y, lt y x = false -> le x y.
Hypothesis lt_true : forall x y, lt y x = true -> le y x.

Lemma insert_by_permutation x l : insert_by lt x l ≡ₚ x :: l.
Proof.
  induction l as [|y l IH]; simpl; [reflexivity|].
  destruct (lt y x); [|reflexivity]. rewrite IH. apply perm_swap.
Qed.

Lemma stable_sort_permutation l : stable_sort lt l ≡ₚ l.
Proof.
  induction l as [|x l IH]; simpl; [reflexivity|].
  rewrite insert_by_permutation. now rewrite IH.
Qed.

Lemma insert_by_strongly_sorted x l :
  StronglySorted le l -> StronglySorted le (insert_by lt x l).
Proof.
  induction l as [|y l IH]; intros Hs; simpl; [repeat constructor|].
  apply StronglySorted_inv in Hs as [Hs Hy].
  destruct (lt y x) eqn:E.
  - constructor; [apply IH, Hs|].
    rewrite insert_by_permutation. constructor; [apply lt_true, E | exact Hy].
  - constructor; [constructor; assumption|].
    constructor; [apply lt_false, E|].
    eapply Forall_impl; [exact Hy|]. intros z Hz. simpl in Hz.
    eapply le_trans; [apply lt_false, E | exact Hz].
Qed.

Lemma stable_sort_strongly_sorted l : StronglySorted le (stable_sort lt l).
Proof.
  induction l as [|x l IH]; simpl; [constructor | apply insert_by_strongly_sorted, IH].
Qed.

Lemma strongly_sorted_split (l : list A) (n : nat) :
  StronglySorted le l ->
  Forall (fun k => Forall (fun d => le k d) (skipn n l)) (firstn n l).
Proof.
  intros Hs. rewrite <- (firstn_skipn n l) in Hs.
  apply StronglySorted_app in Hs as (H12 & _ & _).
  apply Forall_forall. intros k Hk. apply Forall_forall. intros d Hd.
  apply (H12 k d Hk Hd).
Qed.
End OrderedSort.

(** ** Limiting an outline *)

Lemma pair_le_trans a b c : pair_le a b -> pair_le b c -> pair_le a c.
Proof. unfold pair_le. lia. Qed.

Lemma pair_lt_false a b : pair_lt b a = false -> pair_le a b.
Proof.
  unfold pair_lt, pair_le. intros Hf.
  apply orb_false_iff in Hf as [H1 H2]. apply Z.ltb_ge in H1.
  apply andb_false_iff in H2 as [H2|H2]; [apply Z.eqb_neq in H2 | apply Z.ltb_ge in H2]; lia.
Qed.

Lemma pair_lt_true a b : pair_lt b a = true -> pair_le b a.
Proof.
  unfold pair_lt, pair_le. intros Ht.
  apply orb_true_iff in Ht as [H1|H2]; [apply Z.ltb_lt in H1; lia|].
  apply andb_true_iff in H2 as [H2 H3]. apply Z.eqb_eq in H2. apply Z.ltb_lt in H3. lia.
Qed.

Lemma slice_to_length {A} (l : list A) (k : Z) :
  len (slice_to l k) = if k <? 0 then Z.max 0 (len l + k) else Z.min k (len l).
Proof.
  unfold slice_to, len. destruct (k <? 0) eqn:E; rewrite length_firstn.
  - apply Z.ltb_lt in E. lia.
  - apply Z.ltb_ge in E. lia.
Qed.

Lemma slice_to_split {A} (l : list A) (k : Z) :
  exists n, slice_to l k = firstn n l.
Proof. unfold slice_to. destruct (k <? 0); eauto. Qed.

(** X3: an outline of at most [max_items] items is returned as it is;
    otherwise exactly [max_items] items are returned, for a negative
    [max_items] all but the last [-max_items] of the sorted ones (none when
    the outline is shorter than that). *)
Theorem X3_filter_outline_size (outline : list item) (max_items : Z) :
  (len outline <= max_items -> filter_outline_items outline max_items = outline)
  /\ len (filter_outline_items outline max_items)
     = if len outline <=? max_items then len outline
       else if max_items <? 0 then Z.max 0 (len outline + max_items)
       else max_items.
Proof.
  unfold filter_outline_items. split.
  - intros Hle. apply Z.leb_le in Hle. now rewrite Hle.
  - destruct (len outline <=? max_items) eqn:E; [reflexivity|].
    apply Z.leb_gt in E. rewrite slice_to_length.
    assert (Hl : len (stable_sort (fun a b => pair_lt (priority_key a) (priority_key b)) outline)
                 = len outline).
    { unfold len. f_equal. apply Permutation_length, stable_sort_permutation. }
    rewrite Hl. destruct (max_items <? 0); lia.
Qed.

(** X3 at the default limit, on a short outline. *)
Lemma X3_witness :
  filter_outline_items [ {| level := py "h2"; text := py "B"; page := 2 |};
                         {| level := py "h1"; text := py "A"; page := 1 |} ] 100
  = [ {| level := py "h2"; text := py "B"; page := 2 |};
      {| level := py "h1"; text := py "A"; page := 1 |} ].
Proof. apply (proj1 (X3_filter_outline_size _ 100)). vm_compute. discriminate. Defined.

(** X4: the items [filter_outline_items] returns are items of the outline,
    each as often as it occurs there; and no item it leaves out comes before
    a returned one in the order of priority (level first, unknown levels as
    h6, then page): the shallowest levels are the ones kept. *)
Theorem X4_filter_outline_priority (outline : list item) (max_items : Z) :
  exists dropped,
    filter_outline_items outline max_items ++ dropped ≡ₚ outline
    /\ all_before (filter_outline_items outline max_items) dropped.
Proof.
  unfold filter_outline_items. destruct (len outline <=? max_items).
  - exists []. rewrite app_nil_r. split; [reflexivity|].
    apply Forall_forall. intros k _. constructor.
  - set (sorted := stable_sort (fun a b => pair_lt (priority_key a) (priority_key b)) outline).
    destruct (slice_to_split sorted max_items) as [n ->].
    exists (skipn n sorted). split.
    + rewrite firstn_skipn. apply stable_sort_permutation.
    + apply (strongly_sorted_split (fun a b => pair_le (priority_key a) (priority_key b))).
      apply (stable_sort_strongly_sorted (fun a b => pair_lt (priority_key a) (priority_key b))).
      * intros x y z. apply pair_le_trans.
      * intros x y. apply pair_lt_false.
      * intros x y. apply pair_lt_true.
Qed.

(** ** Cleaning *)

Lemma strip_blank (t : str) : forallb is_space t = true -> strip t = [].
Proof.
  intros Hb. unfold strip, lstrip.
  assert (Hd : drop_while is_space t = []).
  { induction t as [|c r IH]; [reflexivity|]. simpl in Hb |- *.
    apply andb_true_iff in Hb as [-> Hr]. apply IH, Hr. }
  now rewrite Hd.
Qed.

(** X5: the cleaned text is never longer than the trimmed text, white space
    around the text does not change the result, and a text of white space
    only is cleaned to the empty string. *)
Theorem X5_clean_text_shrinks (t : str) :
  len (clean_text t) <= len (strip t) <= len t
  /\ clean_text (strip t) = clean_text t
  /\ (forallb is_space t = true -> clean_text t = []).
Proof.
  pose proof (clean_text_length t) as Hl. pose proof (strip_length t) as Hs.
  split; [unfold len; lia|]. split; [apply clean_text_strip|].
  intros Hb. rewrite (strip_blank t Hb) in Hl. simpl in Hl.
  destruct (clean_text t); [reflexivity | simpl in Hl; lia].
Qed.

(** X5 at a string of a tab, a no-break space and a newline. *)
Lemma X5_witness : clean_text [0x09; 0xA0; 0x0A]%N = [].
Proof. apply (proj2 (proj2 (X5_clean_text_shrinks _))). reflexivity. Defined.

Lemma re_sub_spaces_fixed prev t :
  no_adjacent_spaces prev t = true -> Forall space_is_SP t ->
  re_sub_from m_spaces [SP] 0 t = t.
Proof.
  revert prev. induction t as [|c r IH]; intros prev Hna Hsp; [reflexivity|].
  inversion Hsp as [|? ? Hc Hr]; subst. simpl in Hna |- *. unfold m_spaces. simpl.
  destruct (is_space c) eqn:Ec.
  - apply andb_true_iff in Hna as [_ Hna].
    assert (Hsp' : c = SP) by (apply Hc, Ec).
    assert (Htw : take_while is_space r = []).
    { destruct r as [|c' r']; [reflexivity|]. simpl in Hna |- *.
      destruct (is_space c'); [discriminate | reflexivity]. }
    rewrite Htw. simpl. rewrite Hsp'. f_equal. apply (IH true Hna Hr).
  - f_equal. apply (IH false Hna Hr).
Qed.

Lemma re_sub_printable_fixed t :
  Forall (fun c => printable c = true) t -> re_sub_from m_unprintable [] 0 t = t.
Proof.
  induction 1 as [|c r Hc Hr IH]; [reflexivity|]. simpl. rewrite Hc. now rewrite IH.
Qed.

Lemma leading_le_count t : (leading_dots t <= dot_count t)%nat.
Proof.
  unfold leading_dots, dot_count. induction t as [|c r IH]; simpl; [lia|].
  destruct (is_dot c); simpl; lia.
Qed.

Lemma dot_count_tail c r : (dot_count r <= dot_count (c :: r))%nat.
Proof. unfold dot_count. simpl. destruct (is_dot c); simpl; lia. Qed.

Lemma re_sub_dots_fixed t : (dot_count t <= 2)%nat -> re_sub_from m_dots ELLIPSIS 0 t = t.
Proof.
  induction t as [|c r IH]; intros Hd; [reflexivity|]. simpl. unfold m_dots.
  pose proof (leading_le_count (c :: r)) as Hl. unfold leading_dots in Hl.
  destruct (3 <=? length (take_while is_dot (c :: r)))%nat eqn:E;
    [apply Nat.leb_le in E; lia|].
  f_equal. apply IH. pose proof (dot_count_tail c r). lia.
Qed.

Lemma m_spaced_dot_count t n r :
  m_spaced_dot t = Some (n, r) -> (S (dot_count r) <= dot_count t)%nat.
Proof.
  unfold m_spaced_dot. rewrite <- (take_drop_while is_space t) at 2.
  destruct (drop_while is_space t) as [|c r'] eqn:E; [discriminate|].
  destruct (is_dot c) eqn:Ec; [|discriminate]. intros [= <- <-].
  unfold dot_count. rewrite List.filter_app, length_app. simpl. rewrite Ec. simpl. lia.
Qed.

Lemma re_sub_spaced_dots_fixed t :
  (dot_count t <= 2)%nat -> re_sub_from m_spaced_dots ELLIPSIS 0 t = t.
Proof.
  induction t as [|c r IH]; intros Hd; [reflexivity|]. simpl.
  assert (Hnone : m_spaced_dots (c :: r) = None).
  { unfold m_spaced_dots.
    destruct (m_spaced_dot (c :: r)) as [[n1 t1]|] eqn:E1; [|reflexivity].
    destruct (m_spaced_dot t1) as [[n2 t2]|] eqn:E2; [|reflexivity].
    destruct (m_spaced_dot t2) as [[n3 t3]|] eqn:E3; [|reflexivity].
    apply m_spaced_dot_count in E1, E2, E3. lia. }
  rewrite Hnone. f_equal. apply IH. pose proof (dot_count_tail c r). lia.
Qed.

Lemma strip_fixed (t : str) :
  no_adjacent_spaces true t = true -> existsb is_space (firstn 1 (rev t)) = false ->
  strip t = t.
Proof.
  intros Hhead Hlast. unfold strip, lstrip, rstrip.
  assert (Hl : drop_while is_space t = t).
  { destruct t as [|c r]; [reflexivity|]. simpl in Hhead |- *.
    destruct (is_space c); [discriminate | reflexivity]. }
  rewrite Hl.
  assert (Hr : drop_while is_space (rev t) = rev t).
  { destruct (rev t) as [|c r]; [reflexivity|]. simpl in Hlast |- *.
    destruct (is_space c); [discriminate | reflexivity]. }
  rewrite Hr. apply rev_involutive.
Qed.

(** X6: a text that is trimmed, has single U+0020 characters as its only
    white space, only characters of U+0020..U+007E and U+00A0..U+FFFF, and at
    most two dots, is returned unchanged. *)
Theorem X6_clean_text_ordinary (t : str) : ordinary t = true -> clean_text t = t.
Proof.
  unfold ordinary. rewrite !andb_true_iff, negb_true_iff, Nat.leb_le.
  intros [[[Hchars Hna] Hlast] Hdots].
  assert (Hall : Forall (fun c => printable c = true /\ space_is_SP c) t).
  { apply Forall_forall. intros c Hc. apply clean_char_iff.
    rewrite forallb_forall in Hchars. apply Hchars. apply list_elem_of_In. exact Hc. }
  apply Forall_and in Hall as [Hp Hsp].
  pose proof (strip_fixed t Hna Hlast) as Hstrip.
  unfold clean_text, clean_dots, clean_printable, clean_spaces, re_sub.
  rewrite Hstrip, (re_sub_spaces_fixed true t Hna Hsp), (re_sub_printable_fixed t Hp),
    (re_sub_dots_fixed t Hdots), (re_sub_spaced_dots_fixed t Hdots).
  exact Hstrip.
Qed.

(** X6 at "Annual Report 2023" and at "e.g. Vol 2". *)
Lemma X6_witness :
  clean_text (py "Annual Report 2023") = py "Annual Report 2023"
  /\ clean_text (py "e.g. Vol 2") = py "e.g. Vol 2".
Proof. split; apply X6_clean_text_ordinary; reflexivity. Defined.

(** ** The pass for spaced dots *)

Lemma visible_app (s1 s2 : str) : visible (s1 ++ s2) = visible s1 ++ visible s2.
Proof. apply List.filter_app. Qed.

Lemma visible_spaces (s : str) : Forall (fun c => is_space c = true) s -> visible s = [].
Proof.
  induction 1 as [|c r Hc _ IH]; [reflexivity|]. unfold visible in *. simpl. now rewrite Hc.
Qed.

Lemma visible_drop_while (s : str) : visible (drop_while is_space s) = visible s.
Proof.
  rewrite <- (take_drop_while is_space s) at 2.
  rewrite visible_app, (visible_spaces _ (take_while_Forall is_space s)). reflexivity.
Qed.

Lemma visible_rev (s : str) : visible (rev s) = rev (visible s).
Proof.
  induction s as [|c r IH]; [reflexivity|]. simpl rev. rewrite visible_app, IH.
  unfold visible. simpl. destruct (is_space c); simpl; [now rewrite app_nil_r | reflexivity].
Qed.

Lemma visible_strip (s : str) : visible (strip s) = visible s.
Proof.
  unfold strip, rstrip, lstrip.
  rewrite visible_rev, visible_drop_while, visible_rev, rev_involutive.
  apply visible_drop_while.
Qed.

Lemma re_sub_from_drop m repl k (t : str) :
  re_sub_from m repl k t = re_sub_from m repl 0 (drop k t).
Proof.
  revert k. induction t as [|c r IH]; intros [|k]; try reflexivity.
  simpl re_sub_from at 1. rewrite IH. reflexivity.
Qed.

Lemma m_spaced_dot_spec (t t1 : str) n :
  m_spaced_dot t = Some (n, t1) ->
  t1 = drop n t /\ visible (take n t) = [DOT] /\ (0 < n <= length t)%nat.
Proof.
  unfold m_spaced_dot. destruct (drop_while is_space t) as [|c r] eqn:E; [discriminate|].
  destruct (is_dot c) eqn:Ec; [|discriminate]. intros [= <- <-].
  apply N.eqb_eq in Ec. subst c.
  pose proof (take_drop_while is_space t) as Ht. rewrite E in Ht.
  set (w := take_while is_space t) in *.
  assert (Hw : visible w = []) by apply visible_spaces, take_while_Forall.
  rewrite <- Ht.
  replace (w ++ DOT :: r) with ((w ++ [DOT]) ++ r) by now rewrite <- app_assoc.
  replace (S (length w)) with (length (w ++ [DOT])) by (rewrite length_app; simpl; lia).
  rewrite drop_app_length, take_app_length.
  rewrite visible_app, Hw. split; [reflexivity|]. split; [reflexivity|].
  rewrite !length_app. simpl. lia.
Qed.

Lemma m_spaced_dots_spec (t : str) n :
  m_spaced_dots t = Some n ->
  visible (take n t) = ELLIPSIS /\ (0 < n <= length t)%nat.
Proof.
  unfold m_spaced_dots.
  destruct (m_spaced_dot t) as [[n1 t1]|] eqn:E1; [|discriminate].
  destruct (m_spaced_dot t1) as [[n2 t2]|] eqn:E2; [|discriminate].
  destruct (m_spaced_dot t2) as [[n3 t3]|] eqn:E3; [|discriminate].
  intros [= <-].
  apply m_spaced_dot_spec in E1 as (-> & V1 & L1).
  apply m_spaced_dot_spec in E2 as (-> & V2 & L2).
  apply m_spaced_dot_spec in E3 as (_ & V3 & L3).
  rewrite !length_drop in *.
  split; [|lia].
  assert (H1 : length (take n1 t) = n1) by (rewrite length_take; lia).
  assert (H2 : length (take n2 (drop n1 t)) = n2) by (rewrite length_take, length_drop; lia).
  rewrite <- (take_drop n1 t) at 1.
  replace (n1 + n2 + n3)%nat with (n1 + (n2 + n3))%nat by lia.
  rewrite (take_app_add' (take n1 t) (drop n1 t) n1 (n2 + n3)) by (symmetry; exact H1).
  rewrite visible_app, V1.
  rewrite <- (take_drop n2 (drop n1 t)) at 1.
  rewrite (take_app_add' (take n2 (drop n1 t)) (drop n2 (drop n1 t)) n2 n3)
    by (symmetry; exact H2).
  rewrite visible_app, V2, V3. reflexivity.
Qed.

Lemma spaced_pass_visible_upto (k : nat) (t : str) :
  (length t <= k)%nat -> visible (re_sub_from m_spaced_dots ELLIPSIS 0 t) = visible t.
Proof.
  revert t. induction k as [|k IH]; intros [|c r] Hlen; try reflexivity; [simpl in Hlen; lia|].
  simpl in Hlen. simpl re_sub_from.
  destruct (m_spaced_dots (c :: r)) as [[|n]|] eqn:E.
  - apply m_spaced_dots_spec in E as [_ ?]. lia.
  - apply m_spaced_dots_spec in E as [V L]. simpl in L.
    change (DOT :: DOT :: DOT :: re_sub_from m_spaced_dots ELLIPSIS n r)
      with (ELLIPSIS ++ re_sub_from m_spaced_dots ELLIPSIS n r).
    rewrite re_sub_from_drop, visible_app.
    rewrite IH by (rewrite length_drop; lia).
    rewrite <- (take_drop (S n) (c :: r)) at 1. rewrite visible_app, V. reflexivity.
  - change (c :: re_sub_from m_spaced_dots ELLIPSIS 0 r)
      with ([c] ++ re_sub_from m_spaced_dots ELLIPSIS 0 r).
    change (c :: r) with ([c] ++ r).
    rewrite !visible_app, IH by lia. reflexivity.
Qed.

Lemma spaced_pass_visible (t : str) :
  visible (re_sub m_spaced_dots ELLIPSIS t) = visible t.
Proof. apply (spaced_pass_visible_upto (length t)). lia. Qed.

Lemma spaced_runs_visible n cur (s : str) :
  spaced_runs_le n cur s = runs_le n cur (visible s).
Proof.
  revert cur. induction s as [|c r IH]; intros cur; [reflexivity|].
  unfold visible in *. simpl.
  destruct (is_dot c) eqn:Ed.
  - apply N.eqb_eq in Ed. subst c. simpl. now rewrite IH.
  - destruct (is_space c); simpl; [apply IH | rewrite Ed; apply IH].
Qed.

Lemma clean_text_visible (t : str) : visible (clean_text t) = visible (clean_dots t).
Proof. unfold clean_text. now rewrite visible_strip, spaced_pass_visible. Qed.

(** X25: what the passes of [clean_text] achieve, for every input
    string.  After the first pass (trimming, and each run of white space
    replaced by one space) no two white-space characters are adjacent; after
    the pass for runs of dots no run of consecutive dots is longer than
    three; every character of the returned string is in U+0020..U+007E or in
    U+00A0..U+FFFF and its only white-space character is U+0020; and the
    returned string is trimmed. *)
Theorem X25_clean_text_passes (t : str) :
  no_adjacent_spaces false (clean_spaces t) = true
  /\ dot_runs_le 3 (clean_dots t) = true
  /\ Forall (fun c => clean_char c = true) (clean_text t)
  /\ strip (clean_text t) = clean_text t.
Proof.
  split; [|split; [|split]].
  - apply clean_spaces_single. discriminate.
  - apply clean_dots_runs. unfold dots_state. split; lia.
  - apply clean_text_chars.
  - unfold clean_text. apply strip_idemp.
Qed.

(** X26: the last substitution of [clean_text], the one for spaced dots,
    deletes white space only.  The characters of the returned string that
    are not white space are those of the text after the first three passes,
    in the same order; so a group of dots separated by optional white space
    has as many dots in the returned string as it had before that
    substitution, and stays within a bound exactly when it was within it. *)
Theorem X26_spaced_dots_kept (t : str) :
  visible (clean_text t) = visible (clean_dots t)
  /\ forall n, spaced_runs_le n 0 (clean_text t) = spaced_runs_le n 0 (clean_dots t).
Proof.
  split; [apply clean_text_visible|].
  intros n. now rewrite !spaced_runs_visible, clean_text_visible.
Qed.

(** ** More on the repair of levels *)

Lemma tag_valid (n : Z) : 1 <= n <= 6 -> tag n ∈ JSONValidator.valid_levels.
Proof.
  intros Hn. unfold JSONValidator.valid_levels. apply elem_of_list_to_set.
  assert (Hc : n = 1 \/ n = 2 \/ n = 3 \/ n = 4 \/ n = 5 \/ n = 6) by lia.
  destruct Hc as [-> |[-> |[-> |[-> |[-> | ->]]]]]; vm_compute;
    repeat (first [left | right]).
Qed.

Lemma level_map_inv (l : str) (n : Z) : level_map !! l = Some n -> l = tag n /\ 1 <= n <= 6.
Proof.
  unfold level_map. simpl list_to_map.
  repeat (rewrite lookup_insert; case_decide;
          [intros [= <-]; subst l; split; [reflexivity | lia]|]).
  rewrite lookup_empty. discriminate.
Qed.

Lemma repaired_le c it : repaired c it <= default 1 (level_map !! level it).
Proof.
  unfold repaired. destruct (c + 1 <? default 1 (level_map !! level it)) eqn:E; [|lia].
  apply Z.ltb_lt in E. lia.
Qed.

Lemma fix_levels_never_deepen c l :
  1 <= c <= 6 ->
  Forall2 (fun a b => exists n, level_ordinal (level b) = Some n
                                /\ n <= default 1 (level_map !! level a))
          l (fix_levels c l).
Proof.
  revert c. induction l as [|it r IH]; intros c Hc; [constructor|].
  rewrite fix_levels_cons. destruct (repaired_range c it Hc) as [Hr _].
  constructor; [|apply IH, Hr].
  exists (repaired c it). simpl. split; [apply ordinal_tag, Hr | apply repaired_le].
Qed.

Lemma fix_levels_valid c l :
  1 <= c <= 6 -> Forall (fun it => level it ∈ JSONValidator.valid_levels) (fix_levels c l).
Proof.
  revert c. induction l as [|it r IH]; intros c Hc; [constructor|].
  rewrite fix_levels_cons. destruct (repaired_range c it Hc) as [Hr _].
  constructor; [apply tag_valid, Hr | apply IH, Hr].
Qed.

(** X7: [_fix_hierarchy] rewrites levels only: the texts and the pages of
    the items, and so their number and order, stay; every level it writes is
    one of h1..h6; and it never makes an item deeper than it was (a level
    that is not a tag counts as h1). *)
Theorem X7_fix_hierarchy_levels_only (l : list item) :
  map text (_fix_hierarchy l) = map text l
  /\ map page (_fix_hierarchy l) = map page l
  /\ Forall (fun it => level it ∈ JSONValidator.valid_levels) (_fix_hierarchy l)
  /\ Forall2 (fun a b => exists n, level_ordinal (level b) = Some n
                                   /\ n <= default 1 (level_map !! level a))
             l (_fix_hierarchy l).
Proof.
  unfold _fix_hierarchy. split; [apply fix_levels_texts|]. split; [apply fix_levels_pages|].
  split; [apply fix_levels_valid; lia | apply fix_levels_never_deepen; lia].
Qed.

Lemma level_monotone_cons it it' r :
  level_monotone (it :: it' :: r) = step_ok it it' && level_monotone (it' :: r).
Proof. reflexivity. Qed.

Lemma fix_levels_fixed c l :
  1 <= c <= 6 -> first_level_le (c + 1) l = true -> level_monotone l = true ->
  fix_levels c l = l.
Proof.
  revert c. induction l as [|it r IH]; intros c Hc Hfirst Hmono; [reflexivity|].
  rewrite fix_levels_cons. simpl in Hfirst. unfold level_ordinal in Hfirst.
  destruct (level_map !! level it) as [m|] eqn:Em; [|discriminate].
  apply Z.leb_le in Hfirst. destruct (level_map_inv _ _ Em) as [Htag Hm].
  assert (Hrep : repaired c it = m).
  { unfold repaired. rewrite Em. simpl.
    destruct (c + 1 <? m) eqn:E; [apply Z.ltb_lt in E; lia | reflexivity]. }
  rewrite Hrep. f_equal.
  - destruct it as [lv tx pg]. simpl in *. now rewrite Htag.
  - destruct r as [|it' r']; [reflexivity|].
    rewrite level_monotone_cons in Hmono. apply andb_true_iff in Hmono as [Hstep Hmono].
    apply IH; [exact Hm | | exact Hmono].
    unfold step_ok, level_ordinal in Hstep. rewrite Em in Hstep.
    simpl. unfold level_ordinal. destruct (level_map !! level it'); [exact Hstep | discriminate].
Qed.

(** X8: [_fix_hierarchy] leaves an outline as it is exactly when the
    outline already conforms: its levels are tags h1..h6, the first is at
    most h2, and no level exceeds the one before it by more than one. *)
Theorem X8_fix_hierarchy_fixed_points (l : list item) :
  _fix_hierarchy l = l <-> level_monotone l = true /\ first_level_le 2 l = true.
Proof.
  unfold _fix_hierarchy. split.
  - intros Hfix. destruct (fix_levels_monotone 1 l ltac:(lia)) as [Hmono Hhead].
    rewrite Hfix in Hmono, Hhead. split; [exact Hmono|].
    destruct l as [|it r]; [reflexivity|].
    destruct Hhead as (n & Hn & _ & Hle). simpl. rewrite Hn. apply Z.leb_le. exact Hle.
  - intros [Hmono Hfirst]. apply fix_levels_fixed; [lia | exact Hfirst | exact Hmono].
Qed.

(** ** More on the normalizer *)

Section RefineFacts.
Context `{Unicode}.

Lemma dedup_key_set seen (l : list item) k :
  k ∈ map dedup_key (dedup seen l) <-> k ∈ map dedup_key l /\ k ∉ seen.
Proof.
  revert seen. induction l as [|it r IH]; intros seen; simpl.
  - split; [intros Hk; inversion Hk | intros [Hk _]; inversion Hk].
  - fold (dedup_key it). destruct (decide (dedup_key it ∈ seen)) as [Hin|Hout].
    + rewrite IH. rewrite elem_of_cons. split; [intros [? ?]; auto|].
      intros [[-> | Hk] Hns]; [contradiction | auto].
    + simpl. rewrite !elem_of_cons, IH. split.
      * intros [-> | [Hk Hns]]; [auto|]. split; [auto | set_solver].
      * intros [[-> | Hk] Hns]; [auto|].
        destruct (decide (k = dedup_key it)) as [-> | Hne]; [auto|].
        right. split; [exact Hk | set_solver].
Qed.

Lemma dedup_length seen (l : list item) : (length (dedup seen l) <= length l)%nat.
Proof.
  revert seen. induction l as [|it r IH]; intros seen; simpl; [lia|].
  destruct (decide ((lower (text it), page it) ∈ seen)); simpl.
  - specialize (IH seen). lia.
  - specialize (IH ({[(lower (text it), page it)]} ∪ seen)). lia.
Qed.

Lemma refine_keys_perm xs :
  map dedup_key (_refine_outline xs) ≡ₚ map dedup_key (dedup ∅ xs).
Proof.
  unfold _refine_outline, _fix_hierarchy, sort_by_page. rewrite fix_levels_keys.
  apply Permutation_map, (stable_sort_permutation (fun a b => page a <? page b)).
Qed.

(** X9: the output of [_refine_outline] is in ascending page order, no two
    of its items share the key (lower-cased text, page), it has exactly the
    keys of the input, and it is never longer than the input. *)
Theorem X9_refine_sorted_distinct (xs : list item) :
  Sorted Z.le (map page (_refine_outline xs))
  /\ NoDup (map dedup_key (_refine_outline xs))
  /\ (forall k, k ∈ map dedup_key (_refine_outline xs) <-> k ∈ map dedup_key xs)
  /\ (length (_refine_outline xs) <= length xs)%nat.
Proof.
  split; [apply refine_pages_sorted|]. split; [apply refine_keys_nodup|]. split.
  - intros k. rewrite (refine_keys_perm xs), dedup_key_set. set_solver.
  - pose proof (Permutation_length (refine_keys_perm xs)) as Hl.
    rewrite !length_map in Hl. rewrite Hl. apply dedup_length.
Qed.

Lemma insert_by_on_page p x (l : list item) :
  List.filter (on_page p) (insert_by (fun a b => page a <? page b) x l)
  = List.filter (on_page p) (x :: l).
Proof.
  induction l as [|y l IH]; [reflexivity|]. simpl insert_by.
  destruct (page y <? page x) eqn:E; [|reflexivity].
  apply Z.ltb_lt in E. simpl List.filter at 1. rewrite IH. simpl. unfold on_page.
  destruct (page x =? p) eqn:Ex, (page y =? p) eqn:Ey; try reflexivity.
  apply Z.eqb_eq in Ex, Ey. lia.
Qed.

Lemma sort_by_page_on_page p (l : list item) :
  List.filter (on_page p) (sort_by_page l) = List.filter (on_page p) l.
Proof.
  unfold sort_by_page. induction l as [|x l IH]; [reflexivity|]. simpl stable_sort.
  rewrite insert_by_on_page. simpl. now rewrite IH.
Qed.

Lemma fix_levels_on_page p c (l : list item) :
  map text (List.filter (on_page p) (fix_levels c l)) = map text (List.filter (on_page p) l).
Proof.
  revert c. induction l as [|it r IH]; intros c; [reflexivity|].
  rewrite fix_levels_cons. simpl List.filter.
  change (on_page p {| level := tag (repaired c it); text := text it; page := page it |})
    with (on_page p it).
  destruct (on_page p it); simpl; now rewrite IH.
Qed.

Lemma dedup_on_page p seen seen' (l : list item) :
  (forall t, (t, p) ∈ seen <-> (t, p) ∈ seen') ->
  List.filter (on_page p) (dedup seen l) = dedup seen' (List.filter (on_page p) l).
Proof.
  revert seen seen'. induction l as [|it r IH]; intros seen seen' Hagree; [reflexivity|].
  simpl. unfold on_page at 2. destruct (page it =? p) eqn:Ep.
  - apply Z.eqb_eq in Ep. simpl.
    destruct (decide ((lower (text it), page it) ∈ seen)) as [Hin|Hout];
      destruct (decide ((lower (text it), page it) ∈ seen')) as [Hin'|Hout'].
    + apply IH, Hagree.
    + rewrite Ep in Hin, Hout'. apply Hagree in Hin. contradiction.
    + rewrite Ep in Hin', Hout. apply Hagree in Hin'. contradiction.
    + simpl. unfold on_page at 1. rewrite (proj2 (Z.eqb_eq _ _) Ep). f_equal.
      apply IH. intros t. rewrite !elem_of_union, !elem_of_singleton, Hagree. reflexivity.
  - apply Z.eqb_neq in Ep.
    destruct (decide ((lower (text it), page it) ∈ seen)) as [Hin|Hout].
    + apply IH, Hagree.
    + simpl. unfold on_page at 1. rewrite (proj2 (Z.eqb_neq _ _) Ep).
      apply IH. intros t. rewrite elem_of_union, elem_of_singleton, Hagree.
      split; [intros [[= _ Hp] | Hs]; [congruence | exact Hs] | auto].
Qed.

(** X10: within one page the order of the input is kept: the texts of the
    items of a page [p] in the output are those of the items of page [p] of
    the input, in input order, each key at its first occurrence only. *)
Theorem X10_refine_order_within_page (xs : list item) (p : Z) :
  map text (List.filter (on_page p) (_refine_outline xs))
  = map text (dedup ∅ (List.filter (on_page p) xs)).
Proof.
  unfold _refine_outline, _fix_hierarchy.
  rewrite fix_levels_on_page, sort_by_page_on_page.
  now rewrite (dedup_on_page p ∅ ∅ xs).
Qed.
End RefineFacts.

(** ** The bookmark path *)

Lemma bookmark_items_inv (pc : Z) (toc : list (Z * str * Z)) :
  Forall (fun it => level it ∈ JSONValidator.valid_levels
                    /\ 2 <= len (text it) /\ strip (text it) = text it
                    /\ 1 <= page it <= Z.max 1 pc)
         (bookmark_items pc toc).
Proof.
  induction toc as [|[[lvl ttl] pg] toc IH]; [constructor|].
  simpl. destruct (len (clean_text ttl) <? 2) eqn:E; [exact IH|].
  apply Z.ltb_ge in E. constructor; [|exact IH]. simpl.
  split; [rewrite normalize_level_tag; apply tag_valid; lia|].
  split; [exact E|]. split; [unfold clean_text; apply strip_idemp | lia].
Qed.

Lemma bookmark_items_length (pc : Z) (toc : list (Z * str * Z)) :
  (length (bookmark_items pc toc) <= length toc)%nat.
Proof.
  induction toc as [|[[lvl ttl] pg] toc IH]; [reflexivity|].
  simpl. destruct (len (clean_text ttl) <? 2); simpl; lia.
Qed.

Lemma bookmark_items_texts (pc : Z) (toc : list (Z * str * Z)) :
  map text (bookmark_items pc toc)
  = map (fun e => clean_text (snd (fst e))) (List.filter kept_entry toc).
Proof.
  induction toc as [|[[lvl ttl] pg] toc IH]; [reflexivity|].
  simpl. unfold kept_entry at 1. simpl.
  destruct (len (clean_text ttl) <? 2) eqn:E.
  - apply Z.ltb_lt in E. destruct (2 <=? len (clean_text ttl)) eqn:E'; [|exact IH].
    apply Z.leb_le in E'. lia.
  - apply Z.ltb_ge in E. destruct (2 <=? len (clean_text ttl)) eqn:E'.
    + simpl. now rewrite IH.
    + apply Z.leb_gt in E'. lia.
Qed.

Lemma bookmarks_inv (doc : document) :
  Forall (fun it => level it ∈ JSONValidator.valid_levels
                    /\ 2 <= len (text it) /\ strip (text it) = text it
                    /\ 1 <= page it <= Z.max 1 (page_count doc))
         (_extract_from_bookmarks doc).
Proof.
  unfold _extract_from_bookmarks. destruct (get_toc doc) as [toc|]; simpl;
    [apply bookmark_items_inv | constructor].
Qed.

(** X11: every item of the bookmark outline has a level among h1..h6, a
    text of at least two characters that is trimmed, and a page between 1
    and the number of pages (1 for a document without pages); the texts are
    the cleaned titles of the native entries that are kept, in their order;
    and when the native outline cannot be read the outline is empty. *)
Theorem X11_bookmark_items (doc : document) :
  Forall (fun it => level it ∈ JSONValidator.valid_levels
                    /\ 2 <= len (text it) /\ strip (text it) = text it
                    /\ 1 <= page it <= Z.max 1 (page_count doc))
         (_extract_from_bookmarks doc)
  /\ map text (_extract_from_bookmarks doc)
     = map (fun e => clean_text (snd (fst e))) (List.filter kept_entry (catch (get_toc doc) []))
  /\ (length (_extract_from_bookmarks doc) <= length (catch (get_toc doc) []))%nat.
Proof.
  split; [apply bookmarks_inv|].
  unfold _extract_from_bookmarks. destruct (get_toc doc) as [toc|]; simpl.
  - split; [apply bookmark_items_texts | apply bookmark_items_length].
  - split; [reflexivity | lia].
Qed.

Lemma bookmarks_with_pages (doc : document) (pgs : list pdf_page) :
  length pgs = length (pages doc) ->
  _extract_from_bookmarks (with_pages doc pgs) = _extract_from_bookmarks doc.
Proof.
  intros Hl. unfold _extract_from_bookmarks, with_pages, page_count. simpl. now rewrite Hl.
Qed.

(** X12: a bookmark outline that is not empty is the outline, and the
    contents of the pages play no part in it: any other pages, as many, give
    the same outline. *)
Theorem X12_bookmarks_first `{Unicode} (doc : document) :
  _extract_from_bookmarks doc <> [] ->
  extract_outline doc = _extract_from_bookmarks doc
  /\ forall pgs, length pgs = length (pages doc) ->
       extract_outline (with_pages doc pgs) = extract_outline doc.
Proof.
  intros Hne.
  assert (Hb : forall d, _extract_from_bookmarks d <> [] ->
                         extract_outline d = _extract_from_bookmarks d).
  { intros d Hd. unfold extract_outline.
    destruct (_extract_from_bookmarks d); [contradiction | reflexivity]. }
  split; [apply Hb, Hne|].
  intros pgs Hl. rewrite (Hb doc Hne), Hb; rewrite (bookmarks_with_pages doc pgs Hl);
    [reflexivity | exact Hne].
Qed.

(** X12 at the document of the first scenario, with its two pages replaced
    by pages that cannot be read. *)
Lemma X12_witness :
  @extract_outline Ascii.unicode (with_pages doc_c1 [unreadable_page; unreadable_page])
  = @extract_outline Ascii.unicode doc_c1.
Proof.
  refine (proj2 (@X12_bookmarks_first Ascii.unicode doc_c1 _)
                [unreadable_page; unreadable_page] _).
  - vm_compute. discriminate.
  - reflexivity.
Defined.

(** ** Headings of a page *)

Lemma detect_heading_level_range `{Unicode} text font_size flags avg_font_size :
  detect_heading_level text font_size flags avg_font_size ∈ h1_to_h4.
Proof.
  unfold detect_heading_level, h1_to_h4.
  destruct (explicit_level text) as [l|] eqn:E.
  { unfold explicit_level in E.
    repeat match type of E with
           | context [if ?b then _ else _] => destruct b
           end; inversion E; subst; rewrite !elem_of_cons; auto 10. }
  destruct (keyword_level (lower text)) as [l|] eqn:K.
  { unfold keyword_level in K.
    repeat match type of K with
           | context [if ?b then _ else _] => destruct b
           end; inversion K; subst; rewrite !elem_of_cons; auto 10. }
  unfold ratio_level.
  repeat match goal with
         | |- context [if ?b then _ else _] => destruct b
         end; rewrite !elem_of_cons; auto 10.
Qed.

Lemma likely_heading_length `{Unicode} text font_size flags avg_font_size :
  _is_likely_heading text font_size flags avg_font_size = Ok true -> 3 <= len text <= 200.
Proof.
  unfold _is_likely_heading.
  destruct (len text <? 3) eqn:E1; [discriminate|].
  destruct (200 <? len text) eqn:E2; [discriminate|].
  apply Z.ltb_ge in E1, E2. intros _. lia.
Qed.

Lemma clean_text_len_le (t : str) : len (clean_text t) <= len t.
Proof.
  pose proof (clean_text_length t). pose proof (strip_length t). unfold len. lia.
Qed.

Lemma clean_text_trimmed (t : str) : strip (clean_text t) = clean_text t.
Proof. unfold clean_text. apply strip_idemp. Qed.

Lemma headings_of_inv `{Unicode} (n : Z) (text_spans : list text_span) :
  Forall (fun it => page it = n /\ level it ∈ h1_to_h4
                    /\ len (text it) <= 200 /\ strip (text it) = text it)
         (headings_of n text_spans).
Proof.
  unfold headings_of. generalize (_calculate_average_font_size text_spans). intros avg.
  induction text_spans as [|sp r IH]; [constructor|]. simpl.
  destruct (_is_likely_heading (ts_text sp) (ts_size sp) (ts_flags sp) avg) as [[|]|] eqn:E;
    [|exact IH | constructor].
  constructor; [|exact IH]. simpl.
  split; [reflexivity|]. split; [apply detect_heading_level_range|].
  split; [|apply clean_text_trimmed].
  pose proof (likely_heading_length _ _ _ _ E). pose proof (clean_text_len_le (ts_text sp)). lia.
Qed.

Lemma find_headings_inv `{Unicode} (pg : pdf_page) (n : Z) :
  Forall (fun it => page it = n /\ level it ∈ h1_to_h4
                    /\ len (text it) <= 200 /\ strip (text it) = text it)
         (_find_headings_on_page pg n).
Proof.
  unfold _find_headings_on_page. destruct (page_text_spans pg); simpl;
    [apply headings_of_inv | constructor].
Qed.

Lemma headings_of_length `{Unicode} (n : Z) (text_spans : list text_span) :
  (length (headings_of n text_spans) <= length text_spans)%nat.
Proof.
  unfold headings_of. generalize (_calculate_average_font_size text_spans). intros avg.
  induction text_spans as [|sp r IH]; [reflexivity|]. simpl.
  destruct (_is_likely_heading (ts_text sp) (ts_size sp) (ts_flags sp) avg) as [[|]|];
    simpl; lia.
Qed.

(** X13: every heading found on a page carries the number of that page, a
    level among h1..h4, and a trimmed text of at most 200 characters; and
    there are no more headings than spans with text on the page (none when
    the page cannot be walked). *)
Theorem X13_headings_on_page `{Unicode} (pg : pdf_page) (n : Z) :
  Forall (fun it => page it = n /\ level it ∈ h1_to_h4
                    /\ len (text it) <= 200 /\ strip (text it) = text it)
         (_find_headings_on_page pg n)
  /\ (length (_find_headings_on_page pg n) <= length (catch (page_text_spans pg) []))%nat.
Proof.
  unfold _find_headings_on_page.
  destruct (page_text_spans pg) as [text_spans|]; simpl.
  - split; [apply headings_of_inv | apply headings_of_length].
  - split; [constructor | lia].
Qed.

(** ** The outline, whatever its source *)

Lemma elem_of_list_map {A B} (f : A -> B) (l : list A) (y : B) :
  y ∈ map f l <-> exists x, f x = y /\ x ∈ l.
Proof.
  rewrite list_elem_of_In, in_map_iff.
  split; intros (x & Hx & Hin); exists x; (split; [exact Hx|]); apply list_elem_of_In, Hin.
Qed.

Lemma dedup_elem `{Unicode} seen (l : list item) it : it ∈ dedup seen l -> it ∈ l.
Proof.
  revert seen. induction l as [|x r IH]; intros seen; simpl; [auto|].
  destruct (decide ((lower (text x), page x) ∈ seen)).
  - intros Hin. right. eapply IH, Hin.
  - rewrite !elem_of_cons. intros [-> | Hin]; [auto|]. right. eapply IH, Hin.
Qed.

Lemma fix_levels_text_page c (l : list item) :
  map (fun it => (text it, page it)) (fix_levels c l) = map (fun it => (text it, page it)) l.
Proof.
  revert c. induction l as [|it r IH]; intros c; [reflexivity|].
  rewrite fix_levels_cons. simpl. now rewrite IH.
Qed.

Lemma refine_item_from `{Unicode} (xs : list item) it :
  it ∈ _refine_outline xs -> exists it', it' ∈ xs /\ text it' = text it /\ page it' = page it.
Proof.
  intros Hin.
  assert (Hp : (text it, page it) ∈ map (fun it => (text it, page it)) (_refine_outline xs))
    by (apply elem_of_list_map; eauto).
  unfold _refine_outline, _fix_hierarchy, sort_by_page in Hp.
  rewrite fix_levels_text_page in Hp.
  rewrite (Permutation_map (fun it => (text it, page it))
             (stable_sort_permutation (fun a b => page a <? page b) (dedup ∅ xs))) in Hp.
  apply elem_of_list_map in Hp as (it' & [= Ht Hpg] & Hin').
  exists it'. split; [eapply dedup_elem, Hin' | split; assumption].
Qed.

Lemma refine_levels_valid `{Unicode} (xs : list item) :
  Forall (fun it => level it ∈ JSONValidator.valid_levels) (_refine_outline xs).
Proof. unfold _refine_outline, _fix_hierarchy. apply fix_levels_valid. lia. Qed.

Lemma content_inv `{Unicode} (doc : document) :
  Forall (fun it => 1 <= page it <= page_count doc
                    /\ len (text it) <= 200 /\ strip (text it) = text it)
         (_extract_from_content doc).
Proof.
  rewrite content_outline_closed. destruct (forallb loaded (pages doc)); [|constructor].
  apply Forall_forall. intros it Hin.
  apply refine_item_from in Hin as (it' & Hin & <- & <-).
  apply list_elem_of_In, in_concat in Hin as (l & Hl & Hit).
  apply list_elem_of_In, elem_of_lookup_imap in Hl as (i & pg & -> & Hlk).
  apply lookup_lt_Some in Hlk.
  pose proof (find_headings_inv pg (Z.of_nat i + 1)) as Hinv.
  rewrite Forall_forall in Hinv. apply list_elem_of_In, Hinv in Hit as (-> & _ & Hlen & Hs).
  unfold page_count. split; [lia | split; assumption].
Qed.

Lemma content_levels_valid `{Unicode} (doc : document) :
  Forall (fun it => level it ∈ JSONValidator.valid_levels) (_extract_from_content doc).
Proof.
  rewrite content_outline_closed. destruct (forallb loaded (pages doc)); [|constructor].
  apply refine_levels_valid.
Qed.

Lemma outline_inv `{Unicode} (doc : document) :
  Forall (fun it => level it ∈ JSONValidator.valid_levels
                    /\ 1 <= page it <= Z.max 1 (page_count doc))
         (extract_outline doc).
Proof.
  unfold extract_outline. destruct (_extract_from_bookmarks doc) as [|b bs] eqn:E.
  - pose proof (content_levels_valid doc) as Hl. pose proof (content_inv doc) as Hp.
    rewrite Forall_forall in Hl, Hp. apply Forall_forall. intros it Hin.
    split; [apply Hl, Hin|]. specialize (Hp it Hin). lia.
  - rewrite <- E. eapply Forall_impl; [apply bookmarks_inv|].
    intros it (Hl & _ & _ & Hp). split; assumption.
Qed.

(** X14: whatever its source, every item of the extracted outline has a
    level among h1..h6 and a page between 1 and the number of pages of the
    document (1 for a document without pages). *)
Theorem X14_outline_schema `{Unicode} (doc : document) :
  Forall (fun it => level it ∈ JSONValidator.valid_levels
                    /\ 1 <= page it <= Z.max 1 (page_count doc))
         (extract_outline doc).
Proof. apply outline_inv. Qed.

(** ** Validation of an extraction *)

Lemma validate_item_spec (it : item) :
  JSONValidator._validate_outline_item (item_to_py it) = true
  <-> level it ∈ JSONValidator.valid_levels /\ text_ok it /\ 1 <= page it.
Proof.
  unfold item_to_py, JSONValidator._validate_outline_item, text_ok.
  rewrite JSONFacts.dict_get_here.
  rewrite JSONFacts.dict_get_next by discriminate. rewrite JSONFacts.dict_get_here.
  rewrite !JSONFacts.dict_get_next by discriminate. rewrite JSONFacts.dict_get_here.
  destruct (decide (level it ∈ JSONValidator.valid_levels)) as [Hl|Hl];
    [|split; [discriminate | intros [? _]; contradiction]].
  destruct (len (strip (text it)) =? 0) eqn:E0.
  { apply Z.eqb_eq in E0. split; [discriminate|]. intros (_ & [Hne _] & _).
    unfold len in E0. destruct (strip (text it)); [contradiction | discriminate]. }
  apply Z.eqb_neq in E0.
  assert (Hne : strip (text it) <> []) by (intros Hs; rewrite Hs in E0; contradiction).
  destruct (1000 <? len (text it)) eqn:E1.
  { apply Z.ltb_lt in E1. split; [discriminate|]. intros (_ & [_ Hle] & _). lia. }
  apply Z.ltb_ge in E1. simpl. rewrite negb_true_iff, Z.ltb_ge. tauto.
Qed.

Lemma validate_outline_spec (l : list item) :
  JSONValidator._validate_outline (PList (map item_to_py l)) = true
  <-> Forall (fun it => level it ∈ JSONValidator.valid_levels /\ text_ok it /\ 1 <= page it) l.
Proof.
  unfold JSONValidator._validate_outline. induction l as [|it r IH]; cbn [map forallb].
  - split; [constructor | reflexivity].
  - rewrite andb_true_iff, validate_item_spec, IH, Forall_cons. reflexivity.
Qed.

Lemma validate_extraction_spec (e : extraction) :
  JSONValidator.validate (extraction_to_py e) = true
  <-> len (title e) <= 500
      /\ Forall (fun it => level it ∈ JSONValidator.valid_levels /\ text_ok it /\ 1 <= page it)
                (outline e).
Proof.
  unfold extraction_to_py, extraction_fields, JSONValidator.validate.
  rewrite JSONFacts.dict_get_here.
  rewrite JSONFacts.dict_get_next by discriminate. rewrite JSONFacts.dict_get_here.
  rewrite andb_true_iff, validate_outline_spec.
  unfold JSONValidator._validate_title. rewrite negb_true_iff, Z.ltb_ge. reflexivity.
Qed.

Lemma process_pdf_cases `{Unicode} (opened : result document) :
  process_pdf opened = empty_extraction
  \/ exists doc, opened = Ok doc /\ page_count doc <> 0
                 /\ process_pdf opened
                    = {| title := extract_title doc; outline := extract_outline doc |}.
Proof.
  unfold process_pdf. destruct opened as [doc|]; simpl; [|left; reflexivity].
  destruct (page_count doc =? 0) eqn:E; simpl; [left; reflexivity|].
  apply Z.eqb_neq in E. right. exists doc. auto.
Qed.

Lemma process_pdf_outline_inv `{Unicode} (opened : result document) :
  Forall (fun it => level it ∈ JSONValidator.valid_levels /\ 1 <= page it)
         (outline (process_pdf opened)).
Proof.
  destruct (process_pdf_cases opened) as [-> | (doc & _ & _ & ->)]; [constructor|].
  simpl. eapply Forall_impl; [apply outline_inv|]. intros it [Hl Hp]. split; [exact Hl | lia].
Qed.

(** X15: the validator accepts the result of [process_pdf] exactly when
    the title has at most 500 characters and every item of the outline has
    a text that is not blank and has at most 1000 characters: the levels and
    the pages of a result never make it invalid. *)
Theorem X15_validate_processed `{Unicode} (opened : result document) :
  JSONValidator.validate (extraction_to_py (process_pdf opened)) = true
  <-> len (title (process_pdf opened)) <= 500
      /\ Forall text_ok (outline (process_pdf opened)).
Proof.
  rewrite validate_extraction_spec.
  pose proof (process_pdf_outline_inv opened) as Hinv.
  rewrite !Forall_forall in *. split.
  - intros [Ht Hall]. split; [exact Ht|]. intros it Hin. apply (Hall it Hin).
  - intros [Ht Hall]. split; [exact Ht|]. intros it Hin.
    destruct (Hinv it Hin) as [Hl Hp]. auto.
Qed.

(** X16: by the source of the outline.  An outline taken from the
    bookmarks is accepted exactly when no text has more than 1000
    characters; an outline found in the contents exactly when no text is
    empty. *)
Theorem X16_valid_outline_by_source `{Unicode} (doc : document) :
  (_extract_from_bookmarks doc <> [] ->
   JSONValidator._validate_outline (PList (map item_to_py (extract_outline doc))) = true
   <-> Forall (fun it => len (text it) <= 1000) (extract_outline doc))
  /\ (_extract_from_bookmarks doc = [] ->
      JSONValidator._validate_outline (PList (map item_to_py (extract_outline doc))) = true
      <-> Forall (fun it => text it <> []) (extract_outline doc)).
Proof.
  rewrite validate_outline_spec. pose proof (outline_inv doc) as Hinv.
  unfold extract_outline in *. split; intros Hb.
  - destruct (_extract_from_bookmarks doc) as [|b bs] eqn:E; [contradiction|].
    pose proof (bookmarks_inv doc) as Hbk. rewrite E in Hbk.
    rewrite !Forall_forall in *. split.
    + intros Hall it Hin. apply (Hall it Hin).
    + intros Hall it Hin. destruct (Hinv it Hin) as [Hl Hp].
      destruct (Hbk it Hin) as (_ & Hlen & Hs & _).
      split; [exact Hl|]. split; [|lia]. split; [|apply Hall, Hin].
      rewrite Hs. intros Hnil. rewrite Hnil in Hlen. unfold len in Hlen. simpl in Hlen. lia.
  - rewrite Hb in *. pose proof (content_inv doc) as Hc.
    rewrite !Forall_forall in *. split.
    + intros Hall it Hin. destruct (Hall it Hin) as (_ & [Hne _] & _).
      intros Hnil. rewrite Hnil in Hne. contradiction.
    + intros Hall it Hin. destruct (Hinv it Hin) as [Hl Hp].
      destruct (Hc it Hin) as (_ & Hlen & Hs).
      split; [exact Hl|]. split; [|lia]. split; [|lia].
      rewrite Hs. apply Hall, Hin.
Qed.

Section AsciiValidation.
Import Ascii.

(** X16 at the document of the first scenario and at a document without
    bookmarks. *)
Lemma X16_witness :
  (JSONValidator._validate_outline (PList (map item_to_py (extract_outline doc_c1))) = true
   <-> Forall (fun it => len (text it) <= 1000) (extract_outline doc_c1))
  /\ (JSONValidator._validate_outline (PList (map item_to_py (extract_outline doc_c8))) = true
      <-> Forall (fun it => text it <> []) (extract_outline doc_c8)).
Proof.
  split.
  - apply (proj1 (X16_valid_outline_by_source doc_c1)). vm_compute. discriminate.
  - apply (proj2 (X16_valid_outline_by_source doc_c8)). vm_compute. reflexivity.
Defined.
End AsciiValidation.

(** ** Sanitizing a valid dictionary *)

Section SanitizeValid.
Variable str_of : pyval -> str.

Lemma sanitize_valid_item (it : pyval) :
  JSONValidator._validate_outline_item it = true ->
  JSONValidator.sanitize_item str_of it = [kept_item it].
Proof.
  destruct it as [| | | | | |d]; try discriminate.
  unfold JSONValidator._validate_outline_item, JSONValidator.sanitize_item, kept_item, field_of.
  destruct (JSONValidator.dict_get d (py "level")) as [lvl|]; [|discriminate].
  destruct (JSONValidator.dict_get d (py "text")) as [txt|]; [|discriminate].
  destruct (JSONValidator.dict_get d (py "page")) as [pg|]; [|discriminate].
  destruct lvl as [| | | |l| |]; try discriminate.
  cbn [default from_option id JSONValidator.to_str trimmed_str].
  destruct (decide (l ∈ JSONValidator.valid_levels)); [|discriminate].
  destruct txt as [| | | |t| |]; try discriminate.
  cbn [JSONValidator.to_str trimmed_str].
  destruct (len (strip t) =? 0) eqn:E0; [discriminate|].
  destruct (1000 <? len t) eqn:E1; [discriminate|].
  apply Z.ltb_ge in E1. apply Z.eqb_neq in E0.
  rewrite take_ge by (pose proof (strip_length t); unfold len in E1; lia).
  destruct (strip t) as [|c r] eqn:Es; [contradiction E0; reflexivity|].
  destruct (JSONValidator.as_int pg) as [n|]; [|discriminate].
  intros Hn. apply negb_true_iff in Hn. rewrite Hn. reflexivity.
Qed.

Lemma sanitize_valid_items (l : list pyval) :
  forallb JSONValidator._validate_outline_item l = true ->
  flat_map (JSONValidator.sanitize_item str_of) l = map kept_item l.
Proof.
  induction l as [|it r IH]; [reflexivity|]. cbn [forallb flat_map map].
  intros [Hit Hr]%andb_true_iff. now rewrite (sanitize_valid_item it Hit), IH.
Qed.

(** X17: on a dictionary that the validator accepts, [sanitize_data] only
    trims and drops what the schema does not know: the result holds the
    title without the white space around it and, for each item in order, its
    level, its text without the white space around it and its page; any
    other key, of the dictionary or of an item, is left out. *)
Theorem X17_sanitize_valid (data : list (list N * pyval)) :
  JSONValidator.validate (PDict data) = true ->
  JSONValidator.sanitize_data str_of data = kept_data data.
Proof.
  unfold JSONValidator.validate, JSONValidator.sanitize_data, kept_data, field_of.
  destruct (JSONValidator.dict_get data (py "title")) as [ttl|]; [|discriminate].
  destruct (JSONValidator.dict_get data (py "outline")) as [o|]; [|discriminate].
  intros [Ht Ho]%andb_true_iff. cbn [default from_option id].
  destruct ttl as [| | | |s| |]; try discriminate.
  destruct o as [| | | | |l|]; try discriminate.
  cbn [JSONValidator.to_str trimmed_str kept_items].
  unfold JSONValidator._validate_title in Ht. apply negb_true_iff, Z.ltb_ge in Ht.
  rewrite take_ge by (pose proof (strip_length s); unfold len in Ht; lia).
  now rewrite (sanitize_valid_items l Ho).
Qed.
End SanitizeValid.

(** X17 at a valid dictionary whose first item has a key [font], whose
    second item has the page [True], and which has a key [source]. *)
Lemma X17_witness :
  JSONValidator.validate (PDict data_x17) = true
  /\ JSONValidator.sanitize_data (fun _ => []) data_x17
     = PDict [ (py "title", PStr (py "Report"));
               (py "outline",
                PList [ PDict [ (py "level", PStr (py "h2"));
                                (py "text", PStr (py "Scope"));
                                (py "page", PInt 2) ];
                        PDict [ (py "level", PStr (py "h1"));
                                (py "text", PStr (py "Method"));
                                (py "page", PBool true) ] ]) ].
Proof.
  split; [vm_compute; reflexivity|].
  apply (X17_sanitize_valid (fun _ => []) data_x17). vm_compute. reflexivity.
Defined.

(** ** The title, whatever its source *)

Section TitleFacts.
Context `{Unicode}.

Lemma likely_title_length (t : str) : is_likely_title t = true -> 3 <= len t <= 200.
Proof.
  unfold is_likely_title.
  destruct (len t <? 3) eqn:E1; [discriminate|].
  destruct (200 <? len t) eqn:E2; [discriminate|].
  apply Z.ltb_ge in E1, E2. intros _. lia.
Qed.

Lemma survives_length (b : text_block) : survives b = true -> len (strip (tb_text b)) <= 200.
Proof.
  unfold survives.
  destruct (len (strip (tb_text b)) <? 5) eqn:E1; [discriminate|].
  destruct (200 <? len (strip (tb_text b))) eqn:E2; [discriminate|].
  apply Z.ltb_ge in E2. intros _. exact E2.
Qed.

Lemma candidates_of_length (bs : list text_block) (cs : list candidate) :
  candidates_of bs = Ok cs -> Forall (fun c => len (c_text c) <= 200) cs.
Proof.
  revert cs. induction bs as [|b r IH]; intros cs; simpl.
  - intros [= <-]. constructor.
  - destruct (survives b) eqn:Es; [|apply IH].
    destruct (index1 (tb_bbox b)) as [y|]; [|discriminate]. simpl.
    destruct (_calculate_title_score b) as [sc|]; [|discriminate]. simpl.
    destruct (candidates_of r) as [rest|]; [|discriminate]. simpl.
    intros [= <-]. constructor; [apply survives_length, Es | apply IH; reflexivity].
Qed.

Lemma font_step_length (bs : list text_block) (st : float * list str) :
  Forall (fun t => len t <= 200) (snd st) ->
  Forall (fun t => len t <= 200) (snd (fold_left font_step bs st)).
Proof.
  revert st. induction bs as [|b r IH]; intros [m cands] Hst; [exact Hst|].
  simpl fold_left. apply IH. unfold font_step.
  destruct ((m <? tb_size b)%float && (5 <? len (strip (tb_text b)))
            && is_likely_title (strip (tb_text b))) eqn:E1.
  - apply andb_true_iff in E1 as [_ Hl]. apply likely_title_length in Hl.
    simpl. constructor; [lia | constructor].
  - destruct ((tb_size b =? m)%float && (5 <? len (strip (tb_text b)))
              && is_likely_title (strip (tb_text b))) eqn:E2; [|exact Hst].
    apply andb_true_iff in E2 as [_ Hl]. apply likely_title_length in Hl.
    simpl. apply Forall_app. split; [exact Hst|]. constructor; [lia | constructor].
Qed.

Lemma outline_title_short (doc : document) : short_clean (_extract_from_outline doc).
Proof.
  unfold short_clean, _extract_from_outline. intros t.
  destruct (get_toc doc) as [[|[[lvl ttl] pg] r]|]; simpl; try discriminate.
  destruct (lvl =? 1); simpl; [|discriminate].
  destruct (is_likely_title ttl) eqn:E; simpl; [|discriminate].
  intros [= <-]. exists ttl. split; [reflexivity|]. apply likely_title_length in E. lia.
Qed.

Lemma first_page_title_short (doc : document) : short_clean (_extract_from_first_page doc).
Proof.
  unfold short_clean, _extract_from_first_page. intros t.
  destruct (pages doc) as [|pg rest]; simpl; [discriminate|].
  destruct pg as [pt|]; simpl; [|discriminate].
  destruct (candidates_of (_get_text_blocks_with_formatting (Page pt))) as [cs|] eqn:E; simpl;
    [|discriminate].
  apply candidates_of_length in E.
  destruct (sort_by_score cs) as [|c r] eqn:Es; simpl; [discriminate|].
  intros [= <-]. exists (c_text c). split; [reflexivity|].
  rewrite Forall_forall in E. apply E.
  assert (Hin : c ∈ sort_by_score cs) by (rewrite Es; left).
  unfold sort_by_score in Hin.
  now rewrite (stable_sort_permutation (fun a b => (c_score b <? c_score a)%float) cs) in Hin.
Qed.

Lemma font_size_title_short (doc : document) : short_clean (_extract_by_font_size doc).
Proof.
  unfold short_clean, _extract_by_font_size. intros t.
  destruct (blocks_of_pages (firstn 3 (pages doc))) as [blocks|]; simpl; [|discriminate].
  pose proof (font_step_length blocks (0%float, []) ltac:(constructor)) as Hl.
  destruct (snd (fold_left font_step blocks (0%float, []))) as [|s r]; [discriminate|].
  intros [= <-]. exists s. split; [reflexivity|]. now inversion Hl.
Qed.

Lemma metadata_title_clean (doc : document) :
  forall t, _extract_from_metadata doc = Some t -> exists s, t = clean_text s.
Proof.
  unfold _extract_from_metadata. intros t.
  destruct (doc_metadata doc) as [[|s|]|]; simpl; try discriminate.
  destruct (3 <? len (strip s)); simpl; [|discriminate]. intros [= <-]. eauto.
Qed.

Lemma or_else_short (o : option str) (k : str) :
  short_clean o -> (exists s, k = clean_text s /\ len s <= 200) ->
  exists s, or_else o k = clean_text s /\ len s <= 200.
Proof.
  intros Ho Hk. destruct o as [[|c r]|]; simpl; [exact Hk | apply Ho; reflexivity | exact Hk].
Qed.

Lemma fallback_title_short (doc : document) :
  exists s, or_else (_extract_from_outline doc)
              (or_else (_extract_from_first_page doc)
                 (or_else (_extract_by_font_size doc) [])) = clean_text s
            /\ len s <= 200.
Proof.
  apply or_else_short; [apply outline_title_short|].
  apply or_else_short; [apply first_page_title_short|].
  apply or_else_short; [apply font_size_title_short|].
  exists []. split; [reflexivity | unfold len; simpl; lia].
Qed.

Lemma title_is_clean_text (doc : document) : exists s, extract_title doc = clean_text s.
Proof.
  unfold extract_title.
  destruct (_extract_from_metadata doc) as [[|c r]|] eqn:M; simpl.
  - destruct (fallback_title_short doc) as (s & -> & _). eauto.
  - apply (metadata_title_clean doc _ M).
  - destruct (fallback_title_short doc) as (s & -> & _). eauto.
Qed.

(** X18: whichever strategy gives it, the title is a cleaned text: it is
    trimmed, and each of its characters is one that cleaning keeps. *)
Theorem X18_title_is_cleaned (doc : document) :
  (exists s, extract_title doc = clean_text s)
  /\ strip (extract_title doc) = extract_title doc
  /\ Forall (fun c => clean_char c = true) (extract_title doc).
Proof.
  destruct (title_is_clean_text doc) as (s & Hs).
  split; [eauto|]. rewrite Hs. split; [apply clean_text_trimmed | apply clean_text_chars].
Qed.

(** X19: a title of more than 200 characters can only be the one of the
    metadata. *)
Theorem X19_long_title_from_metadata (doc : document) :
  len (extract_title doc) <= 200
  \/ _extract_from_metadata doc = Some (extract_title doc).
Proof.
  unfold extract_title.
  destruct (_extract_from_metadata doc) as [[|c r]|] eqn:M; simpl.
  - left. destruct (fallback_title_short doc) as (s & -> & Hs).
    pose proof (clean_text_len_le s). lia.
  - right. reflexivity.
  - left. destruct (fallback_title_short doc) as (s & -> & Hs).
    pose proof (clean_text_len_le s). lia.
Qed.

(** X20: the title depends on the metadata, the bookmarks and the first
    three pages only. *)
Theorem X20_title_first_three_pages (doc : document) :
  extract_title (with_pages doc (firstn 3 (pages doc))) = extract_title doc.
Proof.
  unfold extract_title, _extract_from_metadata, _extract_from_outline,
    _extract_from_first_page, _extract_by_font_size, with_pages.
  simpl. rewrite take_take. simpl.
  destruct (pages doc) as [|pg rest]; reflexivity.
Qed.
End TitleFacts.

(** ** Image blocks *)

Lemma spans_of_blocks_text_only (bs : list block) :
  spans_of_blocks (List.filter has_lines bs) = spans_of_blocks bs.
Proof.
  induction bs as [|b r IH]; [reflexivity|]. simpl. unfold has_lines at 1.
  destruct (block_lines b) as [ls|] eqn:E; [|exact IH].
  simpl. rewrite E, IH. reflexivity.
Qed.

Lemma imap_map {A B C} (f : nat -> B -> C) (g : A -> B) (l : list A) :
  imap f (map g l) = imap (fun i x => f i (g x)) l.
Proof.
  revert f. induction l as [|x r IH]; intros f; [reflexivity|].
  simpl. f_equal. apply IH.
Qed.

Section ImageFacts.
Context `{Unicode}.

Lemma find_headings_without_images (pg : pdf_page) (n : Z) :
  _find_headings_on_page (without_images pg) n = _find_headings_on_page pg n.
Proof.
  unfold _find_headings_on_page, page_text_spans, without_images, blocks_of.
  destruct pg as [[[[bs|]]|]|]; simpl; try reflexivity.
  now rewrite spans_of_blocks_text_only.
Qed.

Lemma text_blocks_without_images (pg : pdf_page) :
  _get_text_blocks_with_formatting (without_images pg) = _get_text_blocks_with_formatting pg.
Proof.
  unfold _get_text_blocks_with_formatting, without_images, blocks_of.
  destruct pg as [[[[bs|]]|]|]; simpl; try reflexivity.
  now rewrite spans_of_blocks_text_only.
Qed.

Lemma loaded_without_images (pgs : list pdf_page) :
  forallb loaded (map without_images pgs) = forallb loaded pgs.
Proof.
  induction pgs as [|pg r IH]; [reflexivity|]. simpl. rewrite IH.
  now destruct pg as [[[[bs|]]|]|].
Qed.

Lemma blocks_of_pages_without_images (pgs : list pdf_page) :
  blocks_of_pages (map without_images pgs) = blocks_of_pages pgs.
Proof.
  induction pgs as [|pg r IH]; [reflexivity|]. simpl. rewrite IH.
  pose proof (text_blocks_without_images pg) as Hb.
  destruct pg as [[[[bs|]]|]|]; simpl in *; try reflexivity. now rewrite Hb.
Qed.

Lemma outline_without_images (doc : document) :
  extract_outline (with_pages doc (map without_images (pages doc))) = extract_outline doc.
Proof.
  unfold extract_outline.
  rewrite bookmarks_with_pages by apply length_map.
  destruct (_extract_from_bookmarks doc); [|reflexivity].
  rewrite !content_outline_closed. unfold with_pages. simpl pages.
  rewrite loaded_without_images, imap_map.
  destruct (forallb loaded (pages doc)); [|reflexivity].
  do 2 f_equal. apply imap_ext. intros i pg _. apply find_headings_without_images.
Qed.

Lemma title_without_images (doc : document) :
  extract_title (with_pages doc (map without_images (pages doc))) = extract_title doc.
Proof.
  unfold extract_title, _extract_from_metadata, _extract_from_outline,
    _extract_from_first_page, _extract_by_font_size, with_pages.
  simpl. rewrite firstn_map, blocks_of_pages_without_images.
  destruct (pages doc) as [|pg rest]; [reflexivity|].
  pose proof (text_blocks_without_images pg) as Hb.
  destruct pg as [[[[bs|]]|]|]; simpl in *; try reflexivity. now rewrite Hb.
Qed.

(** X21: blocks without lines (images) have no influence: the result for
    a document is the one for the document with these blocks removed from
    every page. *)
Theorem X21_images_ignored (doc : document) :
  process_pdf (Ok (with_pages doc (map without_images (pages doc)))) = process_pdf (Ok doc).
Proof.
  unfold process_pdf. simpl.
  assert (Hc : page_count (with_pages doc (map without_images (pages doc))) = page_count doc).
  { unfold page_count, with_pages. simpl. now rewrite length_map. }
  rewrite Hc. destruct (page_count doc =? 0); [reflexivity|].
  simpl. now rewrite title_without_images, outline_without_images.
Qed.
End ImageFacts.

(** ** The text blocks of the first pages *)

Lemma paged_block_of_inv (n : Z) (sp : span) :
  Forall (fun b => pb_page b = n /\ pb_text b <> [] /\ strip (pb_text b) = pb_text b)
         (paged_block_of n sp).
Proof.
  unfold paged_block_of. destruct (strip (default [] (span_text sp))) as [|c r] eqn:E;
    [constructor|].
  constructor; [|constructor]. simpl. split; [reflexivity|]. split; [discriminate|].
  rewrite <- E. apply strip_idemp.
Qed.

Lemma sorted_same_page_app (n : Z) (here rest : list paged_block) :
  Forall (fun b => pb_page b = n) here ->
  Sorted Z.le (map pb_page rest) -> Forall (fun b => n <= pb_page b) rest ->
  Sorted Z.le (map pb_page (here ++ rest)).
Proof.
  intros Hh Hs Hge. induction Hh as [|b bs Hb Hbs IH]; [exact Hs|].
  simpl. constructor; [exact IH|].
  destruct Hbs as [|b' bs' Hb' _]; simpl.
  - destruct Hge as [|x rest' Hx _]; constructor. lia.
  - constructor. lia.
Qed.

Lemma text_blocks_from_inv (k : Z) (pgs : list pdf_page) :
  Forall (fun b => k + 1 <= pb_page b <= k + len pgs
                   /\ pb_text b <> [] /\ strip (pb_text b) = pb_text b)
         (text_blocks_from k pgs)
  /\ Sorted Z.le (map pb_page (text_blocks_from k pgs)).
Proof.
  revert k. induction pgs as [|pg r IH]; intros k; [split; constructor|].
  assert (Hlen : len (pg :: r) = len r + 1) by (unfold len; simpl length; lia).
  simpl text_blocks_from.
  destruct pg as [[page_dict|]|]; cbn [load get_text];
    [|split; constructor|split; constructor].
  destruct (pd_blocks page_dict) as [blocks|]; [|split; constructor].
  destruct (spans_of_blocks blocks) as [ss ok].
  assert (Hhere : Forall (fun b => pb_page b = k + 1 /\ pb_text b <> []
                                   /\ strip (pb_text b) = pb_text b)
                         (flat_map (paged_block_of (k + 1)) ss)).
  { induction ss as [|sp ss IHs]; [constructor|]. simpl. apply Forall_app.
    split; [apply paged_block_of_inv | exact IHs]. }
  assert (Hr : 0 <= len r) by (unfold len; lia).
  assert (Hhere' : Forall (fun b => k + 1 <= pb_page b <= k + len (Page (Ok page_dict) :: r)
                                    /\ pb_text b <> [] /\ strip (pb_text b) = pb_text b)
                          (flat_map (paged_block_of (k + 1)) ss)).
  { eapply Forall_impl; [exact Hhere|]. intros b (Hp & Hrest). split; [lia | exact Hrest]. }
  assert (Hpages : Forall (fun b => pb_page b = k + 1) (flat_map (paged_block_of (k + 1)) ss)).
  { eapply Forall_impl; [exact Hhere|]. intros b (Hp & _). exact Hp. }
  destruct ok.
  - destruct (IH (k + 1)) as [Hall Hs]. split.
    + apply Forall_app. split; [exact Hhere'|].
      eapply Forall_impl; [exact Hall|]. intros b (Hp & Hrest). split; [lia | exact Hrest].
    + apply (sorted_same_page_app (k + 1)); [exact Hpages | exact Hs |].
      eapply Forall_impl; [exact Hall|]. intros b (Hp & _). lia.
  - split; [exact Hhere'|].
    rewrite <- (app_nil_r (flat_map _ ss)).
    apply (sorted_same_page_app (k + 1)); [exact Hpages | constructor | constructor].
Qed.

(** X22: every block that [extract_text_blocks] returns has a trimmed text
    that is not empty and the number of its page, between 1 and the smaller
    of the limit and the number of pages; the blocks come in page order. *)
Theorem X22_text_blocks (doc : document) (max_pages : Z) :
  Forall (fun b => 1 <= pb_page b <= Z.min max_pages (page_count doc)
                   /\ pb_text b <> [] /\ strip (pb_text b) = pb_text b)
         (extract_text_blocks doc max_pages)
  /\ Sorted Z.le (map pb_page (extract_text_blocks doc max_pages)).
Proof.
  unfold extract_text_blocks.
  destruct (text_blocks_from_inv 0
              (firstn (Z.to_nat (Z.min max_pages (page_count doc))) (pages doc)))
    as [Hall Hs].
  split; [|exact Hs]. eapply Forall_impl; [exact Hall|].
  intros b (Hp & Hrest). split; [|exact Hrest].
  unfold len in Hp. rewrite length_take in Hp. unfold page_count in *. lia.
Qed.

Lemma text_blocks_from_stop (k : Z) (pre : list pdf_page) (bad : pdf_page) (post : list pdf_page) :
  page_fails bad = true ->
  text_blocks_from k (pre ++ bad :: post) = text_blocks_from k (pre ++ [bad]).
Proof.
  intros Hbad. revert k. induction pre as [|pg r IH]; intros k.
  - simpl. unfold page_fails in Hbad.
    destruct bad as [[page_dict|]|]; simpl in Hbad |- *; [|reflexivity|reflexivity].
    destruct (pd_blocks page_dict) as [blocks|]; [|reflexivity].
    destruct (spans_of_blocks blocks) as [ss ok]. simpl in Hbad.
    destruct ok; [discriminate | reflexivity].
  - simpl. destruct pg as [[page_dict|]|]; simpl; [|reflexivity|reflexivity].
    destruct (pd_blocks page_dict) as [blocks|]; [|reflexivity].
    destruct (spans_of_blocks blocks) as [ss ok]. destruct ok; [|reflexivity].
    now rewrite IH.
Qed.

(** X23: [extract_text_blocks] stops at the first page whose walk raises:
    the pages after it contribute nothing, whatever they hold. *)
Theorem X23_text_blocks_stop (doc : document) (pre post : list pdf_page) (bad : pdf_page)
    (max_pages : Z) :
  page_fails bad = true ->
  extract_text_blocks (with_pages doc (pre ++ bad :: post)) max_pages
  = extract_text_blocks (with_pages doc (pre ++ [bad])) max_pages.
Proof.
  intros Hbad. unfold extract_text_blocks, with_pages, page_count. simpl.
  rewrite !length_app. simpl length.
  set (m := Z.to_nat (Z.min max_pages (Z.of_nat (length pre + S (length post))))).
  set (m' := Z.to_nat (Z.min max_pages (Z.of_nat (length pre + 1)))).
  destruct (decide (m <= length pre)%nat) as [Hle|Hgt].
  - assert (m' = m) by lia. rewrite H.
    rewrite !take_app_le by exact Hle. reflexivity.
  - assert (Hm' : m' = S (length pre)) by lia.
    rewrite Hm'. rewrite (take_ge (pre ++ [bad])) by (rewrite length_app; simpl; lia).
    replace m with (length pre + S (m - S (length pre)))%nat by lia.
    rewrite take_app_add. simpl take. apply text_blocks_from_stop, Hbad.
Qed.

(** X23 at a page that cannot be read between two pages with text. *)
Lemma X23_witness :
  extract_text_blocks (with_pages doc_c8 ([page_of [span_of "1. Scope" 18 40 0]]
                                          ++ unreadable_page
                                          :: [page_of [span_of "2. Method" 18 40 0]])) 5
  = extract_text_blocks (with_pages doc_c8 ([page_of [span_of "1. Scope" 18 40 0]]
                                            ++ [unreadable_page])) 5.
Proof. apply X23_text_blocks_stop. reflexivity. Defined.

(** ** More on the order of binary64 values *)

Lemma float_ltb_of_leb_ltb x y z :
  (x <=? y)%float = true -> (y <? z)%float = true -> (x <? z)%float = true.
Proof.
  rewrite FloatAxioms.leb_spec, !FloatAxioms.ltb_spec. unfold SFleb, SFltb. intros Hxy Hyz.
  destruct (SFcompare (Prim2SF x) (Prim2SF y)) as [a|] eqn:Ea; [|discriminate].
  destruct (SFcompare (Prim2SF y) (Prim2SF z)) as [b|] eqn:Eb; [|discriminate].
  destruct (SFcompare_trans _ _ _ a b Ea ltac:(destruct a; congruence)
              Eb ltac:(destruct b; congruence)) as (c & -> & _ & Hc).
  rewrite Hc; [reflexivity|]. right. destruct b; congruence.
Qed.

Lemma float_leb_of_eqb x y :
  (x =? y)%float = true -> (x <=? y)%float = true /\ (y <=? x)%float = true.
Proof.
  rewrite FloatAxioms.eqb_spec, !FloatAxioms.leb_spec. unfold SFeqb, SFleb.
  rewrite (SFcompare_swap (Prim2SF x) (Prim2SF y)).
  destruct (SFcompare (Prim2SF x) (Prim2SF y)) as [[]|]; simpl; try discriminate. auto.
Qed.

Lemma float_eqb_of_leb x y :
  (x <=? y)%float = true -> (y <=? x)%float = true -> (x =? y)%float = true.
Proof.
  rewrite FloatAxioms.eqb_spec, !FloatAxioms.leb_spec. unfold SFeqb, SFleb.
  rewrite (SFcompare_swap (Prim2SF x) (Prim2SF y)).
  destruct (SFcompare (Prim2SF x) (Prim2SF y)) as [[]|]; simpl; congruence.
Qed.

Lemma SFcompare_refl x y : SFcompare x y <> None -> SFcompare y y <> None.
Proof.
  destruct x as [sx|sx| |sx mx ex], y as [sy|sy| |sy my ey]; simpl; congruence.
Qed.

Lemma ordered_of_defined x : SFcompare (Prim2SF x) (Prim2SF x) <> None -> ordered x = true.
Proof.
  unfold ordered. rewrite FloatAxioms.eqb_spec. unfold SFeqb. intros Hd.
  destruct (Prim2SF x) as [sx|sx| |sx mx ex]; simpl in *; try congruence;
    try (destruct sx; reflexivity).
  destruct sx; rewrite Z.compare_refl;
    change (Pos.compare_cont Eq mx mx) with (Pos.compare mx mx);
    rewrite Pos.compare_refl; reflexivity.
Qed.

Lemma ordered_of_leb x y : (x <=? y)%float = true -> ordered y = true.
Proof.
  rewrite FloatAxioms.leb_spec. unfold SFleb. intros Hxy.
  apply ordered_of_defined. apply (SFcompare_refl (Prim2SF x)).
  destruct (SFcompare (Prim2SF x) (Prim2SF y)); congruence.
Qed.

(** ** The largest font *)

Section LargestFont.
Context `{Unicode}.

Lemma font_scan_step (seen : list text_block) (st : float * list str) (b : text_block) :
  font_scan_inv seen st ->
  font_scan_inv (seen ++ List.filter font_candidate [b]) (font_step st b).
Proof.
  destruct st as [m cands]. intros [Hm Hinv]. simpl in Hm, Hinv.
  pose proof (ordered_of_leb _ _ Hm) as Hom.
  unfold font_step, font_candidate. simpl List.filter.
  set (s := tb_size b). set (t := strip (tb_text b)).
  destruct (5 <? len t) eqn:E5, (is_likely_title t) eqn:El;
    rewrite ?andb_false_r, ?andb_true_r; cbn [andb]; rewrite ?andb_false_r;
    try (rewrite app_nil_r; split; assumption).
  destruct (m <? s)%float eqn:Elt.
  - (* a larger font: the block becomes the only candidate *)
    assert (Hs : (0 <=? s)%float = true)
      by (eapply float_leb_trans; [exact Hm | apply float_leb_of_ltb, Elt]).
    rewrite Hs. split; [exact Hs|]. simpl.
    exists b. split; [reflexivity|].
    split; [exact (ordered_of_leb _ _ Hs)|].
    exists seen, []. split; [reflexivity|]. split; [|constructor].
    destruct cands as [|t0 tl].
    + destruct Hinv as [-> _]. constructor.
    + destruct Hinv as (b0 & _ & Hb0 & pre & post & -> & Hpre & Hpost).
      apply float_leb_of_eqb in Hb0 as [Hb0 _].
      apply Forall_app. split; [|constructor].
      * eapply Forall_impl; [exact Hpre|]. intros x Hx. simpl in Hx.
        eapply float_ltb_of_leb_ltb; [|exact Elt].
        eapply float_leb_trans; [apply float_leb_of_ltb, Hx | exact Hb0].
      * eapply float_ltb_of_leb_ltb; [exact Hb0 | exact Elt].
      * eapply Forall_impl; [exact Hpost|]. intros x Hx. simpl in Hx.
        eapply float_ltb_of_leb_ltb; [|exact Elt].
        eapply float_leb_trans; [exact Hx | exact Hb0].
  - destruct (s =? m)%float eqn:Eeq.
    + (* the same font: the block joins the candidates *)
      destruct (float_leb_of_eqb _ _ Eeq) as [Hsm Hms].
      assert (Hs : (0 <=? s)%float = true) by (eapply float_leb_trans; eassumption).
      rewrite Hs. split; [exact Hm|]. simpl.
      destruct cands as [|t0 tl]; simpl.
      * destruct Hinv as [-> _]. exists b. split; [reflexivity|]. split; [exact Eeq|].
        exists [], []. repeat split; constructor.
      * destruct Hinv as (b0 & Ht0 & Hb0 & pre & post & -> & Hpre & Hpost).
        exists b0. split; [exact Ht0|]. split; [exact Hb0|].
        exists pre, (post ++ [b]). split; [now rewrite <- app_assoc|]. split; [exact Hpre|].
        apply Forall_app. split; [exact Hpost|]. constructor; [|constructor].
        apply float_leb_of_eqb in Hb0 as [_ Hb0].
        eapply float_leb_trans; [exact Hsm | exact Hb0].
    + (* a smaller font, or a size that is not a number: nothing changes *)
      split; [exact Hm|]. simpl.
      destruct (0 <=? s)%float eqn:Hs; [|rewrite app_nil_r; exact Hinv].
      pose proof (float_leb_of_not_ltb _ _ Hom (ordered_of_leb _ _ Hs) Elt) as Hsm.
      destruct cands as [|t0 tl].
      * destruct Hinv as [_ Hm0]. simpl in Hm0. subst m.
        rewrite (float_eqb_of_leb _ _ Hsm Hs) in Eeq. discriminate.
      * destruct Hinv as (b0 & Ht0 & Hb0 & pre & post & -> & Hpre & Hpost).
        exists b0. split; [exact Ht0|]. split; [exact Hb0|].
        exists pre, (post ++ [b]). split; [now rewrite <- app_assoc|]. split; [exact Hpre|].
        apply Forall_app. split; [exact Hpost|]. constructor; [|constructor].
        apply float_leb_of_eqb in Hb0 as [_ Hb0].
        eapply float_leb_trans; [exact Hsm | exact Hb0].
Qed.

Lemma font_scan_all (bs seen : list text_block) (st : float * list str) :
  font_scan_inv seen st ->
  font_scan_inv (seen ++ List.filter font_candidate bs) (fold_left font_step bs st).
Proof.
  revert seen st. induction bs as [|b r IH]; intros seen st Hinv.
  - simpl. now rewrite app_nil_r.
  - simpl fold_left. change (b :: r) with ([b] ++ r).
    rewrite List.filter_app, app_assoc. apply IH, font_scan_step, Hinv.
Qed.

(** X24: when the first three pages load, then among their blocks that have
    more than five characters after trimming, are title-like and have a size
    that is a number not below 0, the font-size strategy returns the cleaned
    text of the one with the greatest size, the earliest one among equals,
    and nothing when there is no such block; it returns nothing when one of
    these pages cannot be loaded. *)
Theorem X24_largest_font (doc : document) :
  if forallb loaded (firstn 3 (pages doc)) then
    match List.filter font_candidate
            (flat_map _get_text_blocks_with_formatting (firstn 3 (pages doc))) with
    | [] => _extract_by_font_size doc = None
    | (_ :: _) as candidates =>
        exists b, _extract_by_font_size doc = Some (clean_text (tb_text b))
                  /\ first_max tb_size b candidates
    end
  else _extract_by_font_size doc = None.
Proof.
  unfold _extract_by_font_size.
  destruct (forallb loaded (firstn 3 (pages doc))) eqn:El;
    [|now rewrite (blocks_of_pages_unloadable _ El)].
  rewrite (blocks_of_pages_loaded _ El). simpl bind.
  pose proof (font_scan_all (flat_map _get_text_blocks_with_formatting (firstn 3 (pages doc)))
                [] (0%float, []) ltac:(split; [reflexivity | split; reflexivity])) as [_ Hinv].
  simpl app in Hinv.
  destruct (snd (fold_left font_step _ (0%float, []))) as [|t tl].
  - destruct Hinv as [-> _]. reflexivity.
  - destruct Hinv as (b & -> & _ & Hmax).
    destruct (List.filter font_candidate _) as [|c cs] eqn:E.
    + destruct Hmax as (pre & post & Hsplit & _). destruct pre; discriminate.
    + exists b. split; [simpl; now rewrite clean_text_strip | exact Hmax].
Qed.
End LargestFont.
